(** * The game-theory extractor: fact validator and extraction loop

    A shallow embedding of [game-theory-extractor/validate.py] and of the
    page loop of [game-theory-extractor/extract.py], followed by the
    properties of the specification that concern them.

    Python [str] values are sequences of Unicode code points; they are
    modelled as lists of [N].  Python exceptions are modelled by an error
    monad, and the files, the console and the clock that [process_pdf]
    touches by an explicit world record that is threaded through the loop. *)

From Stdlib Require Import ZArith NArith List Bool Lia String Ascii DecimalString.
From Stdlib Require DecimalPos.
From stdpp Require Import gmap.
Import ListNotations.

Local Open Scope Z_scope.

(** ** Python strings *)

Module Py.

Abbreviation char := N (only parsing).
Abbreviation str := (list N) (only parsing).

Definition ord (a : ascii) : char := N_of_ascii a.

(** An ASCII literal as a Python string. *)
Fixpoint lit (s : string) : str :=
  match s with
  | EmptyString => []
  | String a s' => ord a :: lit s'
  end.

Definition LF : char := 10%N.
Definition DQUOTE : char := 34%N.
Definition PERCENT : char := 37%N.
Definition LPAREN : char := 40%N.
Definition RPAREN : char := 41%N.
Definition DOT : char := 46%N.
Definition BACKSLASH : char := 92%N.
Definition UNDERSCORE : char := 95%N.

Definition in_range (lo hi c : char) : bool := ((lo <=? c) && (c <=? hi))%N.

(** [str.isspace] on one code point; the same set is stripped by
    [str.strip()] and matched by [\s] in a [str] pattern. *)
Definition is_space (c : char) : bool :=
  in_range 9 13 c || in_range 28 32 c || (c =? 133)%N || (c =? 160)%N
  || (c =? 5760)%N || in_range 8192 8202 c || (c =? 8232)%N || (c =? 8233)%N
  || (c =? 8239)%N || (c =? 8287)%N || (c =? 12288)%N.

(** [s.lstrip()] *)
Fixpoint lstrip (s : str) : str :=
  match s with
  | [] => []
  | c :: s' => if is_space c then lstrip s' else s
  end.

(** [s.rstrip()] *)
Fixpoint rstrip (s : str) : str :=
  match s with
  | [] => []
  | c :: s' =>
      match rstrip s' with
      | [] => if is_space c then [] else [c]
      | r => c :: r
      end
  end.

(** [s.strip()] *)
Definition strip (s : str) : str := rstrip (lstrip s).

(** [s.split('\n')]: never empty, [''.split('\n') == ['']]. *)
Fixpoint split_lines (s : str) : list str :=
  match s with
  | [] => [[]]
  | c :: s' =>
      if (c =? LF)%N then [] :: split_lines s'
      else match split_lines s' with
           | l :: ls => (c :: l) :: ls
           | [] => [[c]]
           end
  end.

(** [s.startswith(c)] for a one-character prefix. *)
Definition startswith (c : char) (s : str) : bool :=
  match s with
  | d :: _ => (d =? c)%N
  | [] => false
  end.

(** [s.endswith(c)] for a one-character suffix. *)
Definition endswith (c : char) (s : str) : bool :=
  match last s with
  | Some d => (d =? c)%N
  | None => false
  end.

Definition str_eqb (a b : str) : bool := bool_decide (a = b).

(** Exceptions the modelled code can raise or receive. *)
Inductive exn : Type :=
| ValueError (msg : str)
| AttributeError
| IndexError
| RateLimitError
| APIError
| TypeError
| UnicodeEncodeError.

Inductive result (A : Type) : Type :=
| Ok (a : A)
| Raise (e : exn).
Arguments Ok {A} a.
Arguments Raise {A} e.

(** Sequencing that propagates a raised exception; used through stdpp's
    [x ← m; k] notation. *)
#[export] Instance result_bind : MBind result := fun A B k m =>
  match m with
  | Ok a => k a
  | Raise e => Raise e
  end.

#[export] Instance result_ret : MRet result := fun A a => Ok a.

End Py.

Import Py.

(** ** validate.py *)

Module Validate.

Definition VALID_PREDICATES : list str :=
  [lit "concept"; lit "relates"; lit "example"; lit "formula"].

Definition VALID_RELATION_TYPES : list str :=
  [lit "requires"; lit "illustrates"; lit "contrasts"; lit "extends"; lit "contains"].

(** *** [FACT_PATTERN]

    The pattern, compiled with [re.IGNORECASE], is anchored at both ends
    and reads: group 1, an identifier (a character of [[a-z_]] followed by
    any number of [[a-z0-9_]]); optional white space; an opening
    parenthesis; group 2, any characters; a closing parenthesis; optional
    white space; a period; optional white space.
    Under IGNORECASE a character matches [[a-z]] when its lower case is in
    the class closed under the engine's case fixes: the ASCII letters of
    both cases, and the four code points U+0130, U+0131, U+017F, U+212A. *)

Definition re_az (c : char) : bool :=
  in_range 97 122 c || in_range 65 90 c
  || (c =? 304)%N || (c =? 305)%N || (c =? 383)%N || (c =? 8490)%N.

Definition re_digit (c : char) : bool := in_range 48 57 c.

(** [[a-z_]] *)
Definition ident_start (c : char) : bool := re_az c || (c =? UNDERSCORE)%N.

(** [[a-z0-9_]] *)
Definition ident_char (c : char) : bool :=
  re_az c || re_digit c || (c =? UNDERSCORE)%N.

(** The longest prefix whose characters satisfy [p], and the rest. *)
Fixpoint span (p : char -> bool) (s : str) : str * str :=
  match s with
  | [] => ([], [])
  | c :: s' =>
      if p c then let '(a, b) := span p s' in (c :: a, b) else ([], s)
  end.

(** The end of the pattern after the closing parenthesis: white space, a
    period, white space and the end anchor.  The anchor also matches
    before a final newline, which the white space can consume itself, so
    what follows the period is any white space. *)
Definition close_tail (s : str) : bool :=
  match lstrip s with
  | d :: r => (d =? DOT)%N && forallb is_space r
  | [] => false
  end.

(** Group 2, the closing parenthesis and the end of the pattern, returning
    group 2.  The group is greedy and its dot does not match a newline:
    the group extends over [c] when the rest still matches, and otherwise
    ends here when [c] is the closing parenthesis. *)
Fixpoint match_args (s : str) : option str :=
  match s with
  | [] => None
  | c :: s' =>
      match (if (c =? LF)%N then None else match_args s') with
      | Some args => Some (c :: args)
      | None => if (c =? RPAREN)%N && close_tail s' then Some [] else None
      end
  end.

(** [FACT_PATTERN.match(line)]: [None], or the match with its groups 1
    and 2. *)
Definition FACT_PATTERN_match (line : str) : option (str * str) :=
  match line with
  | [] => None
  | c :: rest =>
      if ident_start c then
        let '(tl, rest1) := span ident_char rest in
        match lstrip rest1 with
        | p :: rest2 =>
            if (p =? LPAREN)%N then
              match match_args rest2 with
              | Some args => Some (c :: tl, args)
              | None => None
              end
            else None
        | [] => None
        end
      else None
  end.

(** [match.group(1)]; on [None] Python raises [AttributeError]. *)
Definition group1 (m : option (str * str)) : result str :=
  match m with
  | Some (g1, _) => Ok g1
  | None => Raise AttributeError
  end.

(** *** [check_balanced_parens] *)

(** The loop variables [count], [in_string], [escape_next]. *)
Record scanner : Type := Scanner {
  count : Z;
  in_string : bool;
  escape_next : bool
}.

Definition scanner0 : scanner := Scanner 0 false false.

(** The [for char in text] loop from a given scanner state; [None] is the
    early [return False]. *)
Fixpoint scan_parens (text : str) (st : scanner) : option scanner :=
  match text with
  | [] => Some st
  | char :: text' =>
      if escape_next st then
        scan_parens text' (Scanner (count st) (in_string st) false)
      else if (char =? BACKSLASH)%N then
        scan_parens text' (Scanner (count st) (in_string st) true)
      else if (char =? DQUOTE)%N && negb (escape_next st) then
        scan_parens text' (Scanner (count st) (negb (in_string st)) (escape_next st))
      else if in_string st then
        scan_parens text' st
      else if (char =? LPAREN)%N then
        scan_parens text' (Scanner (count st + 1) (in_string st) (escape_next st))
      else if (char =? RPAREN)%N then
        let count' := count st - 1 in
        if count' <? 0 then None
        else scan_parens text' (Scanner count' (in_string st) (escape_next st))
      else scan_parens text' st
  end.

Definition check_balanced_parens (text : str) : bool :=
  match scan_parens text scanner0 with
  | Some st => count st =? 0
  | None => false
  end.

(** *** [parse_prolog_string] *)

Definition MSG_START : str := lit "String must start with quote".
Definition MSG_UNTERMINATED : str := lit "Unterminated string".

(** The [while i < len(s)] loop: [rest] is [s[i:]] and [res] the
    characters collected so far. *)
Fixpoint parse_loop (rest : str) (i : nat) (res : str) : result (str * nat) :=
  match rest with
  | [] => Raise (ValueError MSG_UNTERMINATED)
  | c :: rest' =>
      if (c =? DQUOTE)%N then
        match rest' with
        | d :: rest'' =>
            if (d =? DQUOTE)%N then parse_loop rest'' (i + 2) (res ++ [DQUOTE])
            else Ok (res, (i + 1)%nat)
        | [] => Ok (res, (i + 1)%nat)
        end
      else
        match rest' with
        | d :: rest'' =>
            if (c =? BACKSLASH)%N then parse_loop rest'' (i + 2) (res ++ [d])
            else parse_loop rest' (i + 1) (res ++ [c])
        | [] => parse_loop rest' (i + 1) (res ++ [c])
        end
  end.

Definition parse_prolog_string (s : str) : result (str * nat) :=
  if negb (startswith DQUOTE s) then Raise (ValueError MSG_START)
  else parse_loop (tl s) 1 [].

(** *** [validate_fact] and [validate_prolog_syntax] *)

(** [not line or line.startswith('%')] *)
Definition skipped (line : str) : bool :=
  match line with
  | [] => true
  | _ => startswith PERCENT line
  end.

Definition validate_fact (line : str) : result (bool * str) :=
  let line := strip line in
  if skipped line then Ok (true, [])
  else if negb (check_balanced_parens line) then
    Ok (false, lit "Unbalanced parentheses")
  else
    let m := FACT_PATTERN_match line in
    match m with
    | None =>
        Ok (false, lit "Invalid fact syntax: " ++ firstn 50 line ++ lit "...")
    | Some _ =>
        predicate ← group1 m;
        if negb (existsb (str_eqb predicate) VALID_PREDICATES) then
          Ok (false, lit "Unknown predicate: " ++ predicate)
        else if negb (endswith DOT (rstrip line)) then
          Ok (false, lit "Fact must end with period")
        else Ok (true, [])
    end.

(** The [for line in lines] loop of [validate_prolog_syntax]. *)
Fixpoint validate_lines (lines : list str) : result bool :=
  match lines with
  | [] => Ok true
  | line :: lines' =>
      let line := strip line in
      if skipped line then validate_lines lines'
      else
        '(is_valid, _) ← validate_fact line;
        if negb is_valid then Ok false else validate_lines lines'
  end.

Definition validate_prolog_syntax (prolog_text : str) : result bool :=
  validate_lines (split_lines (strip prolog_text)).

(** *** Notions the properties are stated with *)

(** The quoting state of the scanner, [(in_string, escape_next)], after
    one more character; it does not depend on the counter. *)
Definition quote_step (fl : bool * bool) (c : char) : bool * bool :=
  let '(in_str, esc) := fl in
  if esc then (in_str, false)
  else if (c =? BACKSLASH)%N then (in_str, true)
  else if (c =? DQUOTE)%N then (negb in_str, false)
  else (in_str, false).

(** The quoting state after a text, starting outside of any string. *)
Definition quote_state (text : str) : bool * bool :=
  fold_left quote_step text (false, false).

(** A character lies outside the quoted spans when it is not escaped, is
    neither a backslash nor a quote, and no string is open. *)
Definition is_outside (fl : bool * bool) (c : char) : bool :=
  let '(in_str, esc) := fl in
  negb esc && negb (c =? BACKSLASH)%N && negb (c =? DQUOTE)%N && negb in_str.

(** The characters of a text that lie outside the quoted spans. *)
Fixpoint outside_from (fl : bool * bool) (text : str) : str :=
  match text with
  | [] => []
  | c :: text' =>
      (if is_outside fl c then [c] else []) ++ outside_from (quote_step fl c) text'
  end.

Definition outside (text : str) : str := outside_from (false, false) text.

(** The quoting state held in a scanner. *)
Definition flags (st : scanner) : bool * bool := (in_string st, escape_next st).

(** What a character adds to the counter when it is counted. *)
Definition delta (c : char) : Z :=
  if (c =? LPAREN)%N then 1 else if (c =? RPAREN)%N then -1 else 0.

(** Opening minus closing parentheses among some characters. *)
Fixpoint balance (cs : str) : Z :=
  match cs with
  | [] => 0
  | c :: cs' => delta c + balance cs'
  end.

(** The parenthesis depth of a text: only the parentheses outside the
    quoted spans count. *)
Definition depth (text : str) : Z := balance (outside text).

(** The bodies of string literals that no closing quote ends: ordinary
    characters, escaped characters, doubled quotes, and possibly a last
    lone backslash. *)
Inductive open_body : str -> Prop :=
| open_nil : open_body []
| open_char c s :
    c <> DQUOTE -> c <> BACKSLASH -> open_body s -> open_body (c :: s)
| open_escape d s : open_body s -> open_body (BACKSLASH :: d :: s)
| open_backslash : open_body [BACKSLASH]
| open_doubled s : open_body s -> open_body (DQUOTE :: DQUOTE :: s).

(** What [FACT_PATTERN] says of a line, read off the pattern: the line is
    an identifier [g1], white space, an opening parenthesis, some
    characters without newline, a closing parenthesis, white space, a
    period and white space. *)
Definition is_ident (g1 : str) : bool :=
  match g1 with
  | c :: tl => ident_start c && forallb ident_char tl
  | [] => false
  end.

Definition fact_shape (line g1 : str) : Prop :=
  exists ws1 args ws2 ws3,
    line = g1 ++ ws1 ++ [LPAREN] ++ args ++ [RPAREN] ++ ws2 ++ [DOT] ++ ws3
    /\ is_ident g1 = true
    /\ forallb is_space ws1 = true
    /\ forallb (fun c => negb (c =? LF)%N) args = true
    /\ forallb is_space ws2 = true
    /\ forallb is_space ws3 = true.

(** A snake_case identifier: lower-case letters, digits and underscores,
    not starting with a digit. *)
Definition snake_char (c : char) : bool :=
  in_range 97 122 c || re_digit c || (c =? UNDERSCORE)%N.

Definition snake_case (x : str) : bool :=
  match x with
  | [] => false
  | c :: _ => negb (re_digit c) && forallb snake_char x
  end.

(** An integer literal: digits, after an optional minus sign. *)
Definition is_integer (n : str) : bool :=
  match n with
  | [] => false
  | c :: n' =>
      if (c =? 45)%N then negb (bool_decide (n' = [])) && forallb re_digit n'
      else forallb re_digit n
  end.

(** Every quote character of the text is doubled. *)
Fixpoint quotes_doubled (s : str) : bool :=
  match s with
  | [] => true
  | c :: s' =>
      if (c =? DQUOTE)%N then
        match s' with
        | d :: s'' => (d =? DQUOTE)%N && quotes_doubled s''
        | [] => false
        end
      else quotes_doubled s'
  end.

(** A character that is no quote, backslash, parenthesis or newline. *)
Definition plain (c : char) : bool :=
  negb (c =? DQUOTE)%N && negb (c =? BACKSLASH)%N && negb (c =? LPAREN)%N
  && negb (c =? RPAREN)%N && negb (c =? LF)%N.

(** A character the scanner passes over outside of an escape: no quote,
    backslash or parenthesis. *)
Definition inert (c : char) : bool :=
  negb (c =? DQUOTE)%N && negb (c =? BACKSLASH)%N && negb (c =? LPAREN)%N
  && negb (c =? RPAREN)%N.

(** A text without a given character. *)
Definition without (c : char) (s : str) : bool :=
  forallb (fun d => negb (d =? c)%N) s.

(** The line [concept(X, N, "S").] *)
Definition concept_fact (x n s : str) : str :=
  lit "concept(" ++ x ++ lit ", " ++ n ++ lit ", "
  ++ [DQUOTE] ++ s ++ [DQUOTE] ++ lit ").".

(** The verdict of [validate_fact] on a line. *)
Definition fact_verdict (line : str) : bool :=
  match validate_fact line with
  | Ok (is_valid, _) => is_valid
  | Raise _ => false
  end.

(** The diagnostics [validate_fact] gives for a line it rejects. *)
Definition is_diagnostic (line msg : str) : Prop :=
  msg = lit "Unbalanced parentheses"
  \/ msg = lit "Invalid fact syntax: " ++ firstn 50 (strip line) ++ lit "..."
  \/ (exists predicate, msg = lit "Unknown predicate: " ++ predicate)
  \/ msg = lit "Fact must end with period".

End Validate.

(** ** extract.py *)

Module Extract.

Import Validate.

(** What one call of [call_claude] does: it returns the text of the
    completion, or raises [RateLimitError], or raises another [APIError],
    or raises an exception [e] that is not an [APIError] at all (a
    [TypeError] of the client without credentials, an [IndexError] or an
    [AttributeError] on a completion without a text block). *)
Inductive response : Type :=
| Completed (payload : str)
| RateLimited
| ServiceError
| Crashed (e : exn).

(** [time.sleep(wait_time)] of the back-off, in seconds, and the fixed
    [time.sleep(0.5)] between pages. *)
Inductive sleep_event : Type :=
| Backoff (seconds : Z)
| BaseDelay.

(** The lines printed on the console. *)
Inductive log_event : Type :=
| LogResuming (start_page : Z)
| LogRange (start_page end_page total_pages : Z)
| LogPage (current_page total_pages : Z)
| LogSkip (page_num : Z)
| LogOk (page_num : Z)
| LogInvalid (page_num : Z)
| LogRateLimit (wait_time : Z)
| LogError (page_num : Z)
| LogComplete.

(** Everything [process_pdf] reads or changes outside its own variables:
    [state.json] (its [current_page], when the file exists), the
    knowledge base file (its content, when it exists), the raw response
    files (by page number, which their names are an injective function
    of), the console, the clock, and the pages the generation service was
    called for so far. *)
Record world : Type := World {
  state_file : option Z;
  knowledge : option str;
  raw : gmap Z str;
  stdout : list log_event;
  slept : list sleep_event;
  calls : list Z
}.

Definition world0 : world := World None None ∅ [] [] [].

Definition load_state (w : world) : Z :=
  match state_file w with
  | Some current_page => current_page
  | None => 1
  end.

Definition save_state (page_num : Z) (w : world) : world :=
  World (Some page_num) (knowledge w) (raw w) (stdout w) (slept w) (calls w).

Definition print (e : log_event) (w : world) : world :=
  World (state_file w) (knowledge w) (raw w) (stdout w ++ [e]) (slept w) (calls w).

Definition sleep (e : sleep_event) (w : world) : world :=
  World (state_file w) (knowledge w) (raw w) (stdout w) (slept w ++ [e]) (calls w).

Definition log_skip (page_num : Z) : world -> world := print (LogSkip page_num).
Definition log_error (page_num : Z) : world -> world := print (LogError page_num).
Definition log_invalid_output (page_num : Z) (output : str) : world -> world :=
  print (LogInvalid page_num).

(** The raw response file of a page holds [response]. *)
Definition write_raw (page_num : Z) (response : str) (w : world) : world :=
  World (state_file w) (knowledge w) (<[page_num := response]> (raw w))
        (stdout w) (slept w) (calls w).

(** The knowledge base file as [open(KNOWLEDGE_FILE, "a")] leaves it: as
    it was, or empty when it had to be made. *)
Definition open_append (w : world) : world :=
  let old := match knowledge w with Some k => k | None => [] end in
  World (state_file w) (Some old) (raw w) (stdout w) (slept w) (calls w).

(** The knowledge base file with [prolog_facts] at its end, and a newline
    when [prolog_facts] does not end with one. *)
Definition append_text (prolog_facts : str) (w : world) : world :=
  let old := match knowledge w with Some k => k | None => [] end in
  let nl := if endswith LF prolog_facts then [] else [LF] in
  World (state_file w) (Some (old ++ prolog_facts ++ nl)) (raw w)
        (stdout w) (slept w) (calls w).

(** UTF-8 holds every code point but the surrogates. *)
Definition utf8 (c : char) : bool := negb (in_range 55296 57343 c).

Section Files.

(** The characters outside ASCII that the encoding of text files holds:
    the files are opened without [encoding], so it is the one of the
    locale.  ASCII itself is held by every such encoding. *)
Variable encodes : char -> bool.

(** [f.write(s)] on a text file encodes the whole of [s] before anything
    is written, and raises [UnicodeEncodeError] when a character of [s]
    has no encoding.  Other failures of the file system are left out. *)
Definition encodable (s : str) : bool :=
  forallb (fun c => (c <? 128)%N || encodes c) s.

(** [open(path, "w")] empties the file before the write is tried. *)
Definition save_raw_response (page_num : Z) (response : str) (w : world)
  : result unit * world :=
  if encodable response then (Ok (), write_raw page_num response w)
  else (Raise UnicodeEncodeError, write_raw page_num [] w).

Definition append_to_knowledge_base (prolog_facts : str) (w : world)
  : result unit * world :=
  if encodable prolog_facts then (Ok (), append_text prolog_facts w)
  else (Raise UnicodeEncodeError, open_append w).

End Files.

Definition KNOWLEDGE_HEADER : str :=
  lit "%% Game Theory Knowledge Base" ++ [LF] ++
  lit "%% Extracted from game-theory-101.pdf" ++ [LF] ++
  [LF] ++
  lit ":- dynamic concept/3." ++ [LF] ++
  lit ":- dynamic relates/3." ++ [LF] ++
  lit ":- dynamic example/3." ++ [LF] ++
  lit ":- dynamic formula/3." ++ [LF] ++
  [LF] ++
  lit "%% Relation types (declared as facts for validation):" ++ [LF] ++
  lit "valid_relation_type(requires).    % A requires B" ++ [LF] ++
  lit "valid_relation_type(illustrates). % A exemplifies B" ++ [LF] ++
  lit "valid_relation_type(contrasts).   % A opposes B" ++ [LF] ++
  lit "valid_relation_type(extends).     % A generalizes B" ++ [LF] ++
  lit "valid_relation_type(contains).    % A includes B" ++ [LF] ++
  [LF] ++
  lit "%% === Extracted Facts ===" ++ [LF] ++
  [LF].

(** The header is ASCII: its write has no character without encoding. *)
Definition init_knowledge_base (w : world) : world :=
  match knowledge w with
  | Some _ => w
  | None =>
      World (state_file w) (Some KNOWLEDGE_HEADER) (raw w)
            (stdout w) (slept w) (calls w)
  end.

(** [str(n)] for an integer. *)
Definition str_of_int (n : Z) : str :=
  lit (NilZero.string_of_int (Z.to_int n)).

(** The page marker that is put before the facts of a page. *)
Definition page_marker (current_page : Z) : str :=
  [LF] ++ lit "% === Page " ++ str_of_int current_page ++ lit " ===" ++ [LF].

(** [range(lo, hi)] *)
Definition range (lo hi : Z) : list Z :=
  map (fun k => lo + Z.of_nat k) (seq 0 (Z.to_nat (hi - lo))).

(** [l[i]] on a Python sequence: a negative index counts from the end, and
    an index out of range raises [IndexError]. *)
Definition py_index {A} (l : list A) (i : Z) : result A :=
  let n := Z.of_nat (length l) in
  let j := if i <? 0 then i + n else i in
  if (j <? 0) || (n <=? j) then Raise IndexError
  else match nth_error l (Z.to_nat j) with
       | Some a => Ok a
       | None => Raise IndexError
       end.

(** The generation service is called once more, for this page. *)
Definition record_call (page_num : Z) (w : world) : world :=
  World (state_file w) (knowledge w) (raw w) (stdout w) (slept w)
        (calls w ++ [page_num]).

Definition max_retries : Z := 3.

Section Loop.

(** The text [reader.pages[i].extract_text()] of each page of the PDF. *)
Variable pages : list str.

(** The characters outside ASCII that the encoding of text files holds. *)
Variable encodes : char -> bool.

(** The generation service: what the call number [n] (counted from 0)
    answers, given the page text and the page number of the prompt. *)
Variable service : nat -> str -> Z -> response.

Definition call_claude (page_text : str) (page_num : Z) (w : world)
  : response * world :=
  (service (length (calls w)) page_text page_num, record_call page_num w).

(** The [for attempt in range(max_retries)] loop for the page of index
    [page_num], over the attempts that are left.  [break] and the
    exhaustion of the attempts both end it with [Ok]; the [raise] ends it
    with the exception.  An exception of the validator or of a write, and
    one of the call that is no [APIError], is not handled: it leaves the
    loop at once. *)
Fixpoint attempt_loop (page_num : Z) (text : str) (attempts : list Z)
  (w : world) : result unit * world :=
  match attempts with
  | [] => (Ok (), w)
  | attempt :: attempts' =>
      let current_page := page_num + 1 in
      let '(r, w) := call_claude text current_page w in
      match r with
      | Completed prolog_facts =>
          let facts_with_marker := page_marker current_page ++ prolog_facts in
          match validate_prolog_syntax prolog_facts with
          | Ok true =>
              match append_to_knowledge_base encodes facts_with_marker w with
              | (Ok _, w) =>
                  let w := save_state current_page w in
                  (Ok (), print (LogOk current_page) w)
              | (Raise e, w) => (Raise e, w)
              end
          | Ok false =>
              let w := log_invalid_output current_page prolog_facts w in
              match save_raw_response encodes current_page prolog_facts w with
              | (Ok _, w) => (Ok (), save_state current_page w)
              | (Raise e, w) => (Raise e, w)
              end
          | Raise e => (Raise e, w)
          end
      | RateLimited =>
          let wait_time := 2 ^ attempt in
          let w := print (LogRateLimit wait_time) w in
          let w := sleep (Backoff wait_time) w in
          attempt_loop page_num text attempts' w
      | ServiceError =>
          let w := log_error current_page w in
          let w := save_state page_num w in
          if attempt =? max_retries - 1 then (Raise APIError, w)
          else attempt_loop page_num text attempts' w
      | Crashed e => (Raise e, w)
      end
  end.

(** The [for page_num in range(start_page - 1, end_page)] loop, over the
    page indices that are left. *)
Fixpoint page_loop (total_pages : Z) (page_nums : list Z) (w : world)
  : result unit * world :=
  match page_nums with
  | [] => (Ok (), w)
  | page_num :: page_nums' =>
      let current_page := page_num + 1 in
      let w := print (LogPage current_page total_pages) w in
      match py_index pages page_num with
      | Raise e => (Raise e, w)
      | Ok text =>
          if bool_decide (text = []) || (Z.of_nat (length text) <? 50) then
            let w := log_skip current_page w in
            let w := save_state current_page w in
            page_loop total_pages page_nums' w
          else
            match attempt_loop page_num text (range 0 max_retries) w with
            | (Ok _, w) => page_loop total_pages page_nums' (sleep BaseDelay w)
            | (Raise e, w) => (Raise e, w)
            end
      end
  end.

(** [process_pdf(pdf_path, start_page, max_pages)]; the PDF at [pdf_path]
    is [pages]. *)
Definition process_pdf (start_page max_pages : option Z) (w : world)
  : result unit * world :=
  let '(start_page, w) :=
    match start_page with
    | None =>
        let start_page := load_state w in
        (start_page,
         if 1 <? start_page then print (LogResuming start_page) w else w)
    | Some start_page => (start_page, w)
    end in
  let total_pages := Z.of_nat (length pages) in
  let end_page :=
    match max_pages with
    | Some m =>
        if m =? 0 then total_pages
        else Z.min (start_page + m - 1) total_pages
    | None => total_pages
    end in
  let w := print (LogRange start_page end_page total_pages) w in
  let w := init_knowledge_base w in
  match page_loop total_pages (range (start_page - 1) end_page) w with
  | (Ok _, w) => (Ok (), print LogComplete w)
  | (Raise e, w) => (Raise e, w)
  end.

End Loop.

(** *** Observations on a run *)

(** The pages whose processing was started, in order. *)
Definition pages_processed (w : world) : list Z :=
  omap (fun e => match e with LogPage p _ => Some p | _ => None end) (stdout w).

(** The pages whose generated payload went through the validator, in
    order: the accepted and the rejected ones. *)
Definition pages_validated (w : world) : list Z :=
  omap (fun e => match e with
                 | LogOk p | LogInvalid p => Some p
                 | _ => None
                 end) (stdout w).

(** The seconds of back-off among some sleeps. *)
Definition backoff_sum (l : list sleep_event) : Z :=
  fold_right (fun e acc => match e with Backoff s => s + acc | BaseDelay => acc end)
             0 l.


(** The world after an attempt that was rate limited: the call, the
    console line, and the sleep of the back-off. *)
Definition rate_limited_attempt (current_page : Z) (w : world) (attempt : Z) : world :=
  sleep (Backoff (2 ^ attempt))
        (print (LogRateLimit (2 ^ attempt)) (record_call current_page w)).

(** The world after an attempt that met a service error: the call, the
    console line, and the progress put back to the page before. *)
Definition service_error_attempt (current_page : Z) (w : world) : world :=
  save_state (current_page - 1) (log_error current_page (record_call current_page w)).

(** The console of [w'] continues the console of [w]. *)
Definition extends (w w' : world) : Prop :=
  exists l, stdout w' = stdout w ++ l.

(** A response that is a failure of the call which the retry loop
    handles. *)
Definition failed (r : response) : bool :=
  match r with
  | Completed _ | Crashed _ => false
  | RateLimited | ServiceError => true
  end.

End Extract.

(** ** validate.py: the file-level entry point *)

Module ValidateFile.

Import Validate Extract.

(** [s.startswith(p)] *)
Fixpoint prefix_of (p s : str) : bool :=
  match p, s with
  | [], _ => true
  | c :: p', d :: s' => (d =? c)%N && prefix_of p' s'
  | _ :: _, [] => false
  end.

Definition DIRECTIVE : str := lit ":-".

(** The lines [for line in f] yields for a file whose text, as text mode
    reads it, is [content]: each line keeps its newline, and a last line
    without newline is a line too. *)
Fixpoint file_lines (content : str) : list str :=
  match content with
  | [] => []
  | c :: content' =>
      if (c =? LF)%N then [c] :: file_lines content'
      else match file_lines content' with
           | l :: ls => (c :: l) :: ls
           | [] => [[c]]
           end
  end.

(** The [for line_num, line in enumerate(f, 1)] loop of [validate_file],
    over the lines that are left. *)
Fixpoint validate_file_loop (lines : list str) (line_num : Z) (errors : list str)
  : result (list str) :=
  match lines with
  | [] => Ok errors
  | line :: lines' =>
      let line := strip line in
      if skipped line || prefix_of DIRECTIVE line then
        validate_file_loop lines' (line_num + 1) errors
      else
        '(is_valid, error) ← validate_fact line;
        if negb is_valid then
          validate_file_loop lines' (line_num + 1)
            (errors ++ [lit "Line " ++ str_of_int line_num ++ lit ": " ++ error])
        else validate_file_loop lines' (line_num + 1) errors
  end.

(** [validate_file(filepath)], for an existing file of text [content]. *)
Definition validate_file (content : str) : result (bool * list str) :=
  errors ← validate_file_loop (file_lines content) 1 [];
  Ok (match errors with [] => true | _ => false end, errors).

(** A line [validate_file] has nothing to say against: blank, comment,
    directive, or accepted by [validate_fact]. *)
Definition file_line_ok (line : str) : bool :=
  skipped (strip line) || prefix_of DIRECTIVE (strip line) || fact_verdict line.

End ValidateFile.

(** * Raw response files ([extract.py]) *)

Module RawFiles.

Import Extract.

Definition RAW_DIR : str := lit "output/raw".

(** The format [03d] of an integer: the sign, zeros up to a width of
    three, the digits. *)
Definition format_03d (n : Z) : str :=
  let sign := if n <? 0 then lit "-" else [] in
  let digits := str_of_int (Z.abs n) in
  sign ++ repeat (ord "0") (3 - length sign - length digits)%nat ++ digits.

(** The path that [save_raw_response] writes for a page. *)
Definition raw_path (page_num : Z) : str :=
  RAW_DIR ++ lit "/" ++ lit "page_" ++ format_03d page_num ++ lit ".txt".

End RawFiles.

(** ** Further notions the properties are stated with *)

Module Notions.

Import Validate Extract.

(** The body of a string literal for a text: each quote is doubled and
    each backslash is escaped by a backslash. *)
Fixpoint escape_body (s : str) : str :=
  match s with
  | [] => []
  | c :: s' =>
      (if (c =? DQUOTE)%N then [DQUOTE; DQUOTE]
       else if (c =? BACKSLASH)%N then [BACKSLASH; BACKSLASH]
       else [c]) ++ escape_body s'
  end.

(** The world after an attempt whose payload was accepted. *)
Definition accepted_attempt (current_page : Z) (payload : str) (w : world) : world :=
  print (LogOk current_page)
    (save_state current_page
       (append_text (page_marker current_page ++ payload)
          (record_call current_page w))).

(** The world after an attempt whose payload was rejected. *)
Definition rejected_attempt (current_page : Z) (payload : str) (w : world) : world :=
  save_state current_page
    (write_raw current_page payload
       (log_invalid_output current_page payload (record_call current_page w))).

(** The world after an attempt whose accepted payload could not be
    written: the call was made, nothing was appended. *)
Definition unwritten_accept (current_page : Z) (w : world) : world :=
  open_append (record_call current_page w).

(** The world after an attempt whose rejected payload could not be
    written: the raw response file of the page is left empty. *)
Definition unwritten_reject (current_page : Z) (payload : str) (w : world) : world :=
  write_raw current_page []
    (log_invalid_output current_page payload (record_call current_page w)).

(** The world after a page that was skipped for its text. *)
Definition skipped_page (current_page total_pages : Z) (w : world) : world :=
  save_state current_page
    (log_skip current_page (print (LogPage current_page total_pages) w)).

(** The text of a page is too short to be sent to the service. *)
Definition too_short (text : str) : bool :=
  bool_decide (text = []) || (Z.of_nat (length text) <? 50).

(** What the knowledge base file holds before anything is appended in a
    run: its content, or the header when the file is yet to be made. *)
Definition knowledge_base (w : world) : str :=
  match knowledge w with
  | Some k => k
  | None => KNOWLEDGE_HEADER
  end.

(** The first page of a run and the page after which it stops. *)
Definition first_page (start_page : option Z) (w : world) : Z :=
  match start_page with
  | Some p => p
  | None => load_state w
  end.

Definition last_page (pages : list str) (start_page max_pages : option Z) (w : world) : Z :=
  match max_pages with
  | Some m =>
      if m =? 0 then Z.of_nat (length pages)
      else Z.min (first_page start_page w + m - 1) (Z.of_nat (length pages))
  | None => Z.of_nat (length pages)
  end.

(** What one attempt of the retry loop for page [p] does to the world. *)
Inductive attempt_step (p : Z) : world -> world -> Prop :=
| step_rate_limited w a :
    In a (range 0 max_retries) -> attempt_step p w (rate_limited_attempt p w a)
| step_service_error w :
    attempt_step p w (service_error_attempt p w)
| step_accepted w payload :
    validate_prolog_syntax payload = Ok true ->
    attempt_step p w (accepted_attempt p payload w)
| step_rejected w payload :
    validate_prolog_syntax payload = Ok false ->
    attempt_step p w (rejected_attempt p payload w)
| step_crashed w :
    attempt_step p w (record_call p w)
| step_unwritten_accept w :
    attempt_step p w (unwritten_accept p w)
| step_unwritten_reject w payload :
    validate_prolog_syntax payload = Ok false ->
    attempt_step p w (unwritten_reject p payload w).

(** What the page loop does to the world, one effect at a time, for pages
    from [lo] to [hi]: it starts a page, skips it, makes an attempt for
    it, or sleeps the fixed delay. *)
Inductive page_step (lo hi total_pages : Z) : world -> world -> Prop :=
| step_start w p :
    lo <= p <= hi -> page_step lo hi total_pages w (print (LogPage p total_pages) w)
| step_skip w p :
    lo <= p <= hi -> page_step lo hi total_pages w (save_state p (log_skip p w))
| step_attempt w w' p :
    lo <= p <= hi -> attempt_step p w w' -> page_step lo hi total_pages w w'
| step_delay w :
    page_step lo hi total_pages w (sleep BaseDelay w).

(** The seconds of back-off of attempts that are all rate limited. *)
Definition backoff_ceiling (attempts : list Z) : Z :=
  fold_right (fun a acc => 2 ^ a + acc) 0 attempts.

(** The sleeps of a run: the fixed delay, and the back-offs of one, two
    and four seconds. *)
Definition known_sleep (e : sleep_event) : Prop :=
  e = BaseDelay \/ e = Backoff 1 \/ e = Backoff 2 \/ e = Backoff 4.

(** Two worlds with the same files, sleeps and calls: they differ by the
    console at most. *)
Definition same_files (w w' : world) : Prop :=
  state_file w' = state_file w /\ knowledge w' = knowledge w /\ raw w' = raw w
  /\ slept w' = slept w /\ calls w' = calls w.

(** The knowledge base of [w'] is the one of [w] with whole lines added
    that the validator accepts. *)
Definition kb_grows (w w' : world) : Prop :=
  forall k, knowledge w = Some k ->
  exists added,
    knowledge w' = Some (k ++ added)
    /\ forallb fact_verdict (split_lines added) = true
    /\ (added = [] \/ (startswith LF added = true /\ endswith LF added = true)).

(** The progress state is as before or a page number between the page
    before [lo] and [hi]. *)
Definition state_within (lo hi : Z) (w w' : world) : Prop :=
  state_file w' = state_file w
  \/ exists n, state_file w' = Some n /\ lo - 1 <= n <= hi.

(** Why a run left the loop with the exception [e] at page [p], the
    world being [w'] then: the last call of the service, made for the
    text of page [p], met a service error, and the progress state is the
    page before; or it raised [e] itself; or it gave a payload that a
    write could not encode. *)
Definition failure_cause (pages : list str) (encodes : char -> bool)
  (service : nat -> str -> Z -> response) (e : exn) (p : Z) (w' : world) : Prop :=
  exists text,
    py_index pages (p - 1) = Ok text
    /\ ((service (pred (length (calls w'))) text p = ServiceError
         /\ e = APIError /\ state_file w' = Some (p - 1))
        \/ service (pred (length (calls w'))) text p = Crashed e
        \/ (exists payload,
              service (pred (length (calls w'))) text p = Completed payload
              /\ encodable encodes payload = false
              /\ e = UnicodeEncodeError)).

End Notions.

Import Validate Extract ValidateFile RawFiles Notions.

(** * Properties *)

(** ** Python string operations *)

Section StringFacts.

Lemma lstrip_decompose (s : str) :
  exists ws, s = ws ++ lstrip s /\ forallb is_space ws = true.
Proof.
  induction s as [|c s [ws [Hs Hws]]]; simpl.
  - exists []. auto.
  - destruct (is_space c) eqn:Hc.
    + exists (c :: ws). simpl. rewrite Hc, Hws. split; [congruence | reflexivity].
    + exists []. auto.
Qed.

Lemma rstrip_decompose (s : str) :
  exists ws, s = rstrip s ++ ws /\ forallb is_space ws = true.
Proof.
  induction s as [|c s [ws [Hs Hws]]]; simpl.
  - exists []. auto.
  - destruct (rstrip s) as [|r rs] eqn:Hr.
    + destruct (is_space c) eqn:Hc.
      * exists (c :: ws). simpl in *. rewrite Hc, Hws. split; [congruence | reflexivity].
      * exists ws. simpl in *. split; [congruence | assumption].
    + exists ws. split; [|assumption]. simpl. simpl in Hs. congruence.
Qed.

Lemma lstrip_nonspace c (s : str) : is_space c = false -> lstrip (c :: s) = c :: s.
Proof. intros H. simpl. now rewrite H. Qed.

Lemma lstrip_all_space (ws : str) : forallb is_space ws = true -> lstrip ws = [].
Proof.
  induction ws as [|c ws IH]; simpl; [reflexivity|].
  intros H. apply andb_prop in H as [Hc Hws]. rewrite Hc. auto.
Qed.

Lemma rstrip_all_space (ws : str) : forallb is_space ws = true -> rstrip ws = [].
Proof.
  induction ws as [|c ws IH]; simpl; [reflexivity|].
  intros H. apply andb_prop in H as [Hc Hws]. rewrite IH, Hc; auto.
Qed.

Lemma rstrip_nil_all_space (s : str) : rstrip s = [] -> forallb is_space s = true.
Proof.
  induction s as [|c s IH]; simpl; [reflexivity|].
  destruct (rstrip s) eqn:Hr; [|discriminate].
  destruct (is_space c); [auto | discriminate].
Qed.

(** The two ends can be stripped in either order. *)
Lemma strip_lstrip_rstrip (s : str) : strip s = lstrip (rstrip s).
Proof.
  unfold strip. induction s as [|c s IH]; [reflexivity|].
  simpl. destruct (is_space c) eqn:Hc.
  - rewrite IH. destruct (rstrip s); simpl; rewrite ?Hc; reflexivity.
  - simpl. destruct (rstrip s); simpl; rewrite Hc; reflexivity.
Qed.

Lemma rstrip_snoc_nonspace (s : str) c :
  is_space c = false -> rstrip (s ++ [c]) = s ++ [c].
Proof.
  intros Hc. induction s as [|d s IH]; simpl.
  - now rewrite Hc.
  - rewrite IH. destruct (s ++ [c]) eqn:E; [|reflexivity].
    destruct s; discriminate.
Qed.

Lemma rstrip_idem (s : str) : rstrip (rstrip s) = rstrip s.
Proof.
  induction s as [|c s IH]; [reflexivity|].
  simpl. destruct (rstrip s) as [|r rs] eqn:Hr.
  - destruct (is_space c) eqn:Hc; simpl; [reflexivity | now rewrite Hc].
  - simpl. simpl in IH. now rewrite IH.
Qed.

Lemma lstrip_idem (s : str) : lstrip (lstrip s) = lstrip s.
Proof.
  induction s as [|c s IH]; [reflexivity|].
  simpl. destruct (is_space c) eqn:Hc; [assumption | simpl; now rewrite Hc].
Qed.

Lemma strip_idem (s : str) : strip (strip s) = strip s.
Proof.
  unfold strip at 1. rewrite (strip_lstrip_rstrip s), lstrip_idem.
  rewrite <- strip_lstrip_rstrip. unfold strip. apply rstrip_idem.
Qed.

Lemma strip_space_cons c (s : str) : is_space c = true -> strip (c :: s) = strip s.
Proof. intros H. unfold strip. simpl. now rewrite H. Qed.

Lemma strip_all_space (ws : str) : forallb is_space ws = true -> strip ws = [].
Proof. intros H. unfold strip. now rewrite lstrip_all_space. Qed.

Lemma split_lines_nonempty (s : str) : split_lines s <> [].
Proof.
  destruct s as [|c s]; simpl; [discriminate|].
  destruct (c =? LF)%N; [discriminate|].
  destruct (split_lines s); discriminate.
Qed.

Lemma split_lines_cons_nonLF c (s : str) :
  (c =? LF)%N = false ->
  exists l ls, split_lines s = l :: ls /\ split_lines (c :: s) = (c :: l) :: ls.
Proof.
  intros Hc. simpl. rewrite Hc.
  destruct (split_lines s) as [|l ls] eqn:E.
  - now apply split_lines_nonempty in E.
  - eauto.
Qed.

Lemma split_lines_single (s : str) :
  forallb (fun c => negb (c =? LF)%N) s = true -> split_lines s = [s].
Proof.
  induction s as [|c s IH]; simpl; [reflexivity|].
  intros H. apply andb_prop in H as [Hc Hs].
  apply negb_true_iff in Hc. rewrite Hc, IH; auto.
Qed.

Lemma LF_is_space : is_space LF = true.
Proof. reflexivity. Qed.

End StringFacts.

(** ** The validator as a function of the lines *)

Section ValidatorFacts.

Lemma skipped_nil : skipped [] = true.
Proof. reflexivity. Qed.

(** [validate_fact] always returns, and what it returns with [False] is
    one of its four diagnostics. *)
Lemma validate_fact_total (line : str) :
  exists msg, validate_fact line = Ok (fact_verdict line, msg)
              /\ (fact_verdict line = false -> is_diagnostic line msg).
Proof.
  unfold fact_verdict, validate_fact, is_diagnostic.
  destruct (skipped (strip line)); [eexists; split; [reflexivity | discriminate]|].
  destruct (check_balanced_parens (strip line)); cbn [negb];
    [|eexists; split; [reflexivity | auto]].
  destruct (FACT_PATTERN_match (strip line)) as [[g1 g2]|];
    [|eexists; split; [reflexivity | auto]].
  unfold mbind, result_bind, group1.
  destruct (existsb (str_eqb g1) VALID_PREDICATES); cbn [negb];
    [|eexists; split; [reflexivity | eauto]].
  destruct (endswith DOT (rstrip (strip line))); cbn [negb];
    eexists; (split; [reflexivity | auto; discriminate]).
Qed.

Lemma validate_fact_strip (line : str) : validate_fact (strip line) = validate_fact line.
Proof. unfold validate_fact. now rewrite strip_idem. Qed.

Lemma fact_verdict_strip (line : str) : fact_verdict (strip line) = fact_verdict line.
Proof. unfold fact_verdict. now rewrite validate_fact_strip. Qed.

Lemma fact_verdict_skipped (line : str) :
  skipped (strip line) = true -> fact_verdict line = true.
Proof. intros H. unfold fact_verdict, validate_fact. now rewrite H. Qed.

Lemma fact_verdict_rstrip (l l' : str) :
  rstrip l = rstrip l' -> fact_verdict l = fact_verdict l'.
Proof.
  intros H. rewrite <- (fact_verdict_strip l), <- (fact_verdict_strip l').
  now rewrite !strip_lstrip_rstrip, H.
Qed.

Lemma fact_verdict_space_cons c (l : str) :
  is_space c = true -> fact_verdict (c :: l) = fact_verdict l.
Proof.
  intros H. rewrite <- (fact_verdict_strip (c :: l)), <- (fact_verdict_strip l).
  now rewrite strip_space_cons.
Qed.

Lemma fact_verdict_all_space (ws : str) :
  forallb is_space ws = true -> fact_verdict ws = true.
Proof.
  intros H. apply fact_verdict_skipped. now rewrite strip_all_space.
Qed.

(** The loop over the lines answers whether every line passes. *)
Lemma validate_lines_spec (lines : list str) :
  validate_lines lines = Ok (forallb fact_verdict lines).
Proof.
  induction lines as [|l ls IH]; [reflexivity|].
  cbn [validate_lines forallb]. destruct (skipped (strip l)) eqn:Hs.
  - now rewrite fact_verdict_skipped.
  - rewrite validate_fact_strip.
    destruct (validate_fact_total l) as [msg [Hv _]]. rewrite Hv.
    unfold mbind, result_bind.
    destruct (fact_verdict l); cbn [negb andb]; [assumption | reflexivity].
Qed.

Lemma split_lines_all_space (ws : str) :
  forallb is_space ws = true ->
  forallb (forallb is_space) (split_lines ws) = true.
Proof.
  induction ws as [|c ws IH]; [reflexivity|].
  cbn [forallb]. intros H. apply andb_prop in H as [Hc Hws].
  specialize (IH Hws).
  destruct (c =? LF)%N eqn:E.
  - simpl. now rewrite E.
  - destruct (split_lines_cons_nonLF c ws E) as [l [ls [H1 H2]]].
    rewrite H2. rewrite H1 in IH. simpl in *. rewrite Hc. exact IH.
Qed.

Lemma forallb_verdict_all_space (ls : list str) :
  forallb (forallb is_space) ls = true -> forallb fact_verdict ls = true.
Proof.
  induction ls as [|l ls IH]; [reflexivity|].
  simpl. intros H. apply andb_prop in H as [Hl Hls].
  now rewrite fact_verdict_all_space, IH.
Qed.

(** The leading [strip()] of the payload does not change the answer. *)
Lemma forallb_split_lstrip (t : str) :
  forallb fact_verdict (split_lines (lstrip t)) = forallb fact_verdict (split_lines t).
Proof.
  induction t as [|c t IH]; [reflexivity|].
  cbn [lstrip]. destruct (is_space c) eqn:Hc; [|reflexivity].
  rewrite IH. destruct (c =? LF)%N eqn:E.
  - cbn [split_lines]. rewrite E. cbn [forallb].
    now rewrite (fact_verdict_skipped []).
  - destruct (split_lines_cons_nonLF c t E) as [l [ls [H1 H2]]].
    rewrite H1, H2. cbn [forallb]. now rewrite fact_verdict_space_cons.
Qed.

Lemma forallb_split_trailing (r ws : str) :
  forallb is_space ws = true ->
  exists h1 t1 h2 t2,
    split_lines (r ++ ws) = h1 :: t1 /\ split_lines r = h2 :: t2
    /\ rstrip h1 = rstrip h2
    /\ forallb fact_verdict t1 = forallb fact_verdict t2.
Proof.
  intros Hws. induction r as [|c r (h1 & t1 & h2 & t2 & E1 & E2 & Hh & Ht)].
  - cbn [app split_lines]. pose proof (split_lines_all_space ws Hws) as Hall.
    destruct (split_lines ws) as [|h1 t1] eqn:E; [now apply split_lines_nonempty in E|].
    cbn [forallb] in Hall. apply andb_prop in Hall as [Hh Ht].
    exists h1, t1, [], []. repeat split.
    + now rewrite rstrip_all_space.
    + now rewrite forallb_verdict_all_space.
  - rewrite <- app_comm_cons. cbn [split_lines]. destruct (c =? LF)%N eqn:E.
    + exists [], (split_lines (r ++ ws)), [], (split_lines r). repeat split.
      rewrite E1, E2. cbn [forallb]. now rewrite Ht, (fact_verdict_rstrip h1 h2).
    + rewrite E1, E2. exists (c :: h1), t1, (c :: h2), t2. repeat split; [|assumption].
      cbn [rstrip]. now rewrite Hh.
Qed.

Lemma forallb_split_rstrip (t : str) :
  forallb fact_verdict (split_lines (rstrip t)) = forallb fact_verdict (split_lines t).
Proof.
  destruct (rstrip_decompose t) as [ws [Ht Hws]].
  destruct (forallb_split_trailing (rstrip t) ws Hws)
    as (h1 & t1 & h2 & t2 & E1 & E2 & Hh & Htl).
  rewrite Ht at 2. rewrite E1, E2. cbn [forallb].
  now rewrite Htl, (fact_verdict_rstrip h1 h2).
Qed.

(** The payload is valid exactly when each of its lines, as cut at the
    newlines, passes [validate_fact]. *)
Lemma validate_prolog_syntax_spec (text : str) :
  validate_prolog_syntax text = Ok (forallb fact_verdict (split_lines text)).
Proof.
  unfold validate_prolog_syntax. rewrite validate_lines_spec. f_equal.
  unfold strip. now rewrite forallb_split_rstrip, forallb_split_lstrip.
Qed.

End ValidatorFacts.

(** ** The validator never raises; blank and comment payloads *)

Section ValidatorTotal.

Lemma comment_line_skipped (line : str) :
  startswith PERCENT line = true -> skipped (strip line) = true.
Proof.
  destruct line as [|c r]; [discriminate|]. cbn [startswith]. intros Hc.
  apply N.eqb_eq in Hc. subst c. unfold strip. cbn [lstrip].
  change (is_space PERCENT) with false. cbn iota. cbn [rstrip].
  destruct (rstrip r); reflexivity.
Qed.

Lemma forallb_false_exists {A} (f : A -> bool) (l : list A) :
  forallb f l = false <-> exists x, In x l /\ f x = false.
Proof.
  induction l as [|a l IH]; cbn [forallb In].
  - split; [discriminate | intros [x [[] _]]].
  - rewrite andb_false_iff, IH. split.
    + intros [Ha | [x [Hin Hx]]]; eauto.
    + intros [x [[<- | Hin] Hx]]; eauto.
Qed.

Lemma forallb_verdict_false (lines : list str) :
  forallb fact_verdict lines = false <->
  exists line, In line lines /\ exists msg, validate_fact line = Ok (false, msg).
Proof.
  split.
  - intros H. apply forallb_false_exists in H as [line [Hin Hv]]. exists line. split; [assumption|].
    destruct (validate_fact_total line) as [msg [Hm _]]. rewrite Hv in Hm. eauto.
  - intros [line [Hin [msg Hm]]]. apply forallb_false_exists. exists line. split; [assumption|].
    unfold fact_verdict. now rewrite Hm.
Qed.

End ValidatorTotal.

(** C7: for every payload, [validate_prolog_syntax] returns a boolean and
    raises nothing; the boolean is [False] exactly when some line is
    rejected by [validate_fact], which itself always returns a verdict
    and, with a rejection, one of its four diagnostics. *)
Theorem C7_validation_never_raises (text : str) :
  (exists b, validate_prolog_syntax text = Ok b
     /\ (b = false <->
         exists line, In line (split_lines text)
                      /\ exists msg, validate_fact line = Ok (false, msg)))
  /\ (forall line, exists v msg,
        validate_fact line = Ok (v, msg)
        /\ (v = false -> is_diagnostic line msg)).
Proof.
  split.
  - exists (forallb fact_verdict (split_lines text)). split.
    + apply validate_prolog_syntax_spec.
    + apply forallb_verdict_false.
  - intros line. destruct (validate_fact_total line) as [msg [H1 H2]]. eauto.
Qed.

Lemma C7_validation_never_raises_witness :
  exists b, validate_prolog_syntax (lit "concept(test, 1, unclosed") = Ok b.
Proof.
  destruct (C7_validation_never_raises (lit "concept(test, 1, unclosed"))
    as [[b [Hb _]] _].
  exists b. exact Hb.
Defined.

(** C9: a payload whose lines are all blank or start with the comment
    marker is valid. *)
Theorem C9_blank_and_comment_payload_valid (text : str) :
  (forall line, In line (split_lines text) ->
     forallb is_space line = true \/ startswith PERCENT line = true) ->
  validate_prolog_syntax text = Ok true.
Proof.
  intros H. rewrite validate_prolog_syntax_spec. f_equal.
  apply forallb_forall. intros line Hin.
  destruct (H line Hin) as [Hb | Hc].
  - now apply fact_verdict_all_space.
  - now apply fact_verdict_skipped, comment_line_skipped.
Qed.

Lemma C9_blank_and_comment_payload_valid_witness :
  validate_prolog_syntax
    (lit "% No concepts on this page" ++ [LF] ++ lit "  " ++ [LF] ++ [LF]
     ++ lit "% FORMULA_CHECK_NEEDED") = Ok true.
Proof.
  apply C9_blank_and_comment_payload_valid.
  intros line Hin. vm_compute in Hin.
  destruct Hin as [<- | [<- | [<- | [<- | []]]]]; vm_compute; auto.
Defined.

(** ** The balanced-parenthesis scan *)

Section ScannerFacts.

Lemma balance_app (a b : str) : balance (a ++ b) = balance a + balance b.
Proof. induction a as [|c a IH]; cbn [app balance]; lia. Qed.

Lemma balance_counted (b : bool) c :
  balance (if b then [c] else []) = if b then delta c else 0.
Proof. destruct b; cbn [balance]; unfold delta; lia. Qed.

Lemma paren_not_quote c :
  (c =? LPAREN)%N = true \/ (c =? RPAREN)%N = true ->
  (c =? BACKSLASH)%N = false /\ (c =? DQUOTE)%N = false.
Proof.
  intros [H | H]; apply N.eqb_eq in H; subst c; split; reflexivity.
Qed.

(** One turn of the loop: the counter moves by the character's weight when
    it lies outside the quoted spans, the quoting state moves by
    [quote_step], and the loop returns early when the counter gets
    negative. *)
Lemma scan_parens_cons c (t : str) (st : scanner) :
  0 <= count st ->
  scan_parens (c :: t) st =
  let n := count st + (if is_outside (flags st) c then delta c else 0) in
  let fl := quote_step (flags st) c in
  if n <? 0 then None else scan_parens t (Scanner n (fst fl) (snd fl)).
Proof.
  destruct st as [n ins esc]. unfold flags, is_outside, quote_step, delta.
  cbn [count in_string escape_next scan_parens]. intros Hn.
  destruct esc; cbn [negb andb fst snd].
  { rewrite Z.add_0_r. destruct (Z.ltb_spec n 0); [lia | reflexivity]. }
  destruct (c =? BACKSLASH)%N eqn:Eb; cbn [negb andb fst snd].
  { rewrite Z.add_0_r. destruct (Z.ltb_spec n 0); [lia | reflexivity]. }
  destruct (c =? DQUOTE)%N eqn:Eq; cbn [negb andb fst snd].
  { rewrite Z.add_0_r. destruct (Z.ltb_spec n 0); [lia | reflexivity]. }
  destruct ins; cbn [negb andb fst snd].
  { rewrite Z.add_0_r. destruct (Z.ltb_spec n 0); [lia | reflexivity]. }
  destruct (c =? LPAREN)%N eqn:El.
  { destruct (Z.ltb_spec (n + 1) 0); [lia | reflexivity]. }
  destruct (c =? RPAREN)%N eqn:Er.
  { replace (n + -1) with (n - 1) by lia. reflexivity. }
  rewrite Z.add_0_r. destruct (Z.ltb_spec n 0); [lia | reflexivity].
Qed.

Lemma outside_from_cons fl c (t : str) :
  balance (outside_from fl (c :: t)) =
  (if is_outside fl c then delta c else 0) + balance (outside_from (quote_step fl c) t).
Proof. cbn [outside_from]. now rewrite balance_app, balance_counted. Qed.

(** What the loop computes, from any state with a counter that is not
    negative: it returns early exactly when the depth of some prefix is
    negative, and it ends otherwise with the depth of the text and with
    the quoting state of the text. *)
Lemma scan_parens_depth (t : str) : forall st,
  0 <= count st ->
  match scan_parens t st with
  | Some st' =>
      (forall k, 0 <= count st + balance (outside_from (flags st) (firstn k t)))
      /\ count st' = count st + balance (outside_from (flags st) t)
      /\ flags st' = fold_left quote_step t (flags st)
  | None =>
      exists k, count st + balance (outside_from (flags st) (firstn k t)) < 0
  end.
Proof.
  induction t as [|c t IH]; intros st Hst.
  - cbn [scan_parens]. repeat split.
    + intros k. rewrite firstn_nil. cbn [outside_from balance]. lia.
    + cbn [outside_from balance]. lia.
  - rewrite scan_parens_cons by assumption. cbv zeta.
    set (n := count st + (if is_outside (flags st) c then delta c else 0)).
    destruct (n <? 0) eqn:En.
    + exists 1%nat. cbn [firstn]. rewrite outside_from_cons, firstn_O.
      cbn [outside_from balance]. apply Z.ltb_lt in En. unfold n in *; lia.
    + apply Z.ltb_ge in En.
      specialize (IH (Scanner n (fst (quote_step (flags st) c))
                              (snd (quote_step (flags st) c)))).
      cbn [count] in IH. specialize (IH En).
      replace (flags (Scanner n _ _)) with (quote_step (flags st) c) in IH
        by (unfold flags; cbn [in_string escape_next]; now destruct (quote_step _ c)).
      destruct (scan_parens t _) as [st'|].
      * destruct IH as (Hk & Hc & Hf). repeat split.
        -- intros [|k]; [rewrite firstn_O; cbn [outside_from balance]; lia|].
           cbn [firstn]. rewrite outside_from_cons. specialize (Hk k). unfold n in *; lia.
        -- rewrite outside_from_cons. unfold n in *; lia.
        -- exact Hf.
      * destruct IH as [k Hk]. exists (S k). cbn [firstn].
        rewrite outside_from_cons. unfold n in *; lia.
Qed.

(** [check_balanced_parens] accepts a text exactly when no prefix has a
    negative depth and the whole text has depth zero. *)
Lemma check_balanced_parens_spec (text : str) :
  check_balanced_parens text = true <->
  (forall k, 0 <= depth (firstn k text)) /\ depth text = 0.
Proof.
  unfold check_balanced_parens, depth, outside.
  pose proof (scan_parens_depth text scanner0) as H.
  cbn [count scanner0] in H. specialize (H ltac:(lia)).
  change (flags scanner0) with (false, false) in H.
  destruct (scan_parens text scanner0) as [st'|].
  - destruct H as (Hk & Hc & _). rewrite Z.eqb_eq. split.
    + intros E. split; [intros k; specialize (Hk k); lia | lia].
    + intros [_ E]. lia.
  - destruct H as [k Hk]. split; [discriminate|].
    intros [Hall _]. specialize (Hall k). lia.
Qed.

End ScannerFacts.

Section QuotedSpans.

Lemma outside_from_app fl (a b : str) :
  outside_from fl (a ++ b) =
  outside_from fl a ++ outside_from (fold_left quote_step a fl) b.
Proof.
  revert fl. induction a as [|c a IH]; intros fl; [reflexivity|].
  cbn [app outside_from fold_left]. now rewrite IH, app_assoc.
Qed.

(** Inside a string, characters other than the quote and the backslash
    are not counted and leave the string open. *)
Lemma inside_span (s : str) :
  forallb (fun c => negb (c =? DQUOTE)%N && negb (c =? BACKSLASH)%N) s = true ->
  outside_from (true, false) s = []
  /\ fold_left quote_step s (true, false) = (true, false).
Proof.
  induction s as [|c s IH]; [auto|].
  cbn [forallb]. intros H. apply andb_prop in H as [Hc Hs].
  apply andb_prop in Hc as [Hq Hb].
  apply negb_true_iff in Hq, Hb.
  cbn [outside_from fold_left]. unfold is_outside, quote_step.
  rewrite Hq, Hb. cbn [negb andb app]. auto.
Qed.

End QuotedSpans.

(** C5: the balanced-parenthesis check accepts a line exactly when the
    depth, which counts only the parentheses outside the quoted spans, is
    never negative along the line and is zero at its end; the characters
    of a quoted span are not among the counted ones; the line with
    parentheses inside its string is valid and the line with an extra
    closing parenthesis is not. *)
Theorem C5_balanced_parens_outside_strings :
  (forall text : str,
     check_balanced_parens text = true <->
     (forall k, 0 <= depth (firstn k text)) /\ depth text = 0)
  /\ (forall pre s post : str,
        quote_state pre = (false, false) ->
        forallb (fun c => negb (c =? DQUOTE)%N && negb (c =? BACKSLASH)%N) s = true ->
        outside (pre ++ [DQUOTE] ++ s ++ [DQUOTE] ++ post)
        = outside pre ++ outside post)
  /\ validate_prolog_syntax
       (lit "concept(a, 1, " ++ [DQUOTE] ++ lit "b(c)" ++ [DQUOTE] ++ lit ").")
     = Ok true
  /\ validate_prolog_syntax (lit "concept(a, 1)).") = Ok false.
Proof.
  split; [exact check_balanced_parens_spec|].
  split; [|split; vm_compute; reflexivity].
  intros pre s post Hpre Hs. unfold outside, quote_state in *.
  destruct (inside_span s Hs) as [Ho Hf].
  rewrite outside_from_app, Hpre. f_equal.
  cbn [app outside_from]. unfold is_outside at 1, quote_step at 1.
  change (DQUOTE =? BACKSLASH)%N with false. change (DQUOTE =? DQUOTE)%N with true.
  cbn [negb andb app]. rewrite outside_from_app, Ho, Hf.
  cbn [app outside_from]. reflexivity.
Qed.

Lemma C5_balanced_parens_outside_strings_witness :
  check_balanced_parens (lit "f(g(x))") = true
  /\ outside (lit "concept(a, " ++ [DQUOTE] ++ lit "b(c" ++ [DQUOTE] ++ lit ").")
     = outside (lit "concept(a, ") ++ outside (lit ").").
Proof.
  destruct C5_balanced_parens_outside_strings as (Hspec & Hspan & _).
  split.
  - apply Hspec. split; [|vm_compute; reflexivity].
    intros k. do 8 (destruct k as [|k]; [vm_compute; discriminate|]).
    vm_compute. discriminate.
  - apply Hspan; vm_compute; reflexivity.
Defined.

(** ** Accepted facts *)

Section AcceptedFacts.

Ltac char_facts :=
  unfold plain, snake_char, re_digit, in_range, is_space,
    DQUOTE, BACKSLASH, LPAREN, RPAREN, LF, UNDERSCORE, DOT in *;
  repeat rewrite ?andb_true_iff, ?orb_true_iff, ?negb_true_iff,
    ?N.eqb_eq, ?N.eqb_neq, ?N.leb_le in *;
  lia.

Lemma snake_char_plain c : snake_char c = true -> plain c = true.
Proof. intros H. char_facts. Qed.

Lemma digit_plain c : re_digit c = true -> plain c = true.
Proof. intros H. char_facts. Qed.

Lemma forallb_impl {A} (f g : A -> bool) (l : list A) :
  (forall a, f a = true -> g a = true) -> forallb f l = true -> forallb g l = true.
Proof.
  intros Hfg. induction l as [|a l IH]; cbn [forallb]; [reflexivity|].
  intros H. apply andb_prop in H as [Ha Hl]. now rewrite Hfg, IH.
Qed.

Lemma snake_case_plain (x : str) : snake_case x = true -> forallb plain x = true.
Proof.
  destruct x as [|c x]; [discriminate|]. unfold snake_case.
  intros H. apply andb_prop in H as [_ H].
  revert H. apply forallb_impl, snake_char_plain.
Qed.

Lemma is_integer_plain (n : str) : is_integer n = true -> forallb plain n = true.
Proof.
  destruct n as [|c n]; [discriminate|]. unfold is_integer.
  destruct (c =? 45)%N eqn:E.
  - intros H. apply andb_prop in H as [_ H]. cbn [forallb].
    apply N.eqb_eq in E. subst c. change (plain 45) with true. cbn [andb].
    revert H. apply forallb_impl, digit_plain.
  - apply forallb_impl, digit_plain.
Qed.

Lemma scan_parens_app (a b : str) : forall st,
  scan_parens (a ++ b) st =
  match scan_parens a st with
  | Some st' => scan_parens b st'
  | None => None
  end.
Proof.
  induction a as [|c a IH]; intros st; [reflexivity|].
  cbn [app scan_parens].
  repeat match goal with
         | |- context [if ?b then _ else _] => destruct b
         end; auto.
Qed.

(** Inert characters leave the scanner as it is. *)
Lemma scan_parens_inert (s : str) n ins :
  forallb inert s = true ->
  scan_parens s (Scanner n ins false) = Some (Scanner n ins false).
Proof.
  induction s as [|c s IH]; [reflexivity|].
  cbn [forallb]. intros H. apply andb_prop in H as [Hc Hs].
  unfold inert in Hc. repeat rewrite andb_true_iff in Hc.
  destruct Hc as (((Hq & Hb) & Hl) & Hr).
  apply negb_true_iff in Hq, Hb, Hl, Hr.
  cbn [scan_parens escape_next in_string count]. rewrite Hb, Hq, Hl, Hr.
  cbn [andb]. destruct ins; auto.
Qed.

Lemma plain_inert c : plain c = true -> inert c = true.
Proof.
  unfold plain, inert. repeat rewrite andb_true_iff. tauto.
Qed.

Lemma scan_parens_plain (s : str) n ins :
  forallb plain s = true ->
  scan_parens s (Scanner n ins false) = Some (Scanner n ins false).
Proof.
  intros H. apply scan_parens_inert. revert H. apply forallb_impl, plain_inert.
Qed.

(** Inside a string, a text without backslash whose quotes are doubled
    leaves the scanner inside the string. *)
Lemma scan_parens_doubled (m : nat) : forall (s : str) n,
  (length s <= m)%nat ->
  quotes_doubled s = true -> without BACKSLASH s = true ->
  scan_parens s (Scanner n true false) = Some (Scanner n true false).
Proof.
  induction m as [|m IH]; intros s n Hlen Hq Hb.
  - destruct s; [reflexivity | cbn [length] in Hlen; lia].
  - destruct s as [|c s]; [reflexivity|].
    cbn [length] in Hlen. unfold without in Hb. cbn [forallb] in Hb.
    apply andb_prop in Hb as [Hc Hb]. apply negb_true_iff in Hc.
    cbn [quotes_doubled] in Hq.
    cbn [scan_parens escape_next in_string count]. rewrite Hc.
    destruct (c =? DQUOTE)%N eqn:Ec; cbn [andb negb].
    + destruct s as [|d s]; [discriminate|].
      apply andb_prop in Hq as [Hd Hq]. cbn [forallb] in Hb.
      apply andb_prop in Hb as [Hdb Hb]. apply negb_true_iff in Hdb.
      cbn [scan_parens escape_next in_string count]. rewrite Hdb, Hd.
      cbn [andb negb]. apply IH; [cbn [length] in Hlen; lia | assumption | assumption].
    + apply IH; [lia | assumption | assumption].
Qed.

Lemma span_app (p : char -> bool) (a : str) c (r : str) :
  forallb p a = true -> p c = false -> span p (a ++ c :: r) = (a, c :: r).
Proof.
  intros Ha Hc. induction a as [|d a IH]; cbn [app span].
  - now rewrite Hc.
  - cbn [forallb] in Ha. apply andb_prop in Ha as [Hd Ha].
    now rewrite Hd, IH.
Qed.

(** A text without newline that ends with a closing parenthesis and a
    period matches from group 2 on. *)
Lemma match_args_closing (s : str) :
  without LF s = true -> exists args, match_args (s ++ [RPAREN; DOT]) = Some args.
Proof.
  unfold without. induction s as [|c s IH].
  - intros _. exists []. vm_compute. reflexivity.
  - cbn [forallb]. intros H. apply andb_prop in H as [Hc Hs].
    apply negb_true_iff in Hc. destruct (IH Hs) as [args Ha].
    exists (c :: args). cbn [app match_args]. now rewrite Hc, Ha.
Qed.

Lemma endswith_snoc (s : str) c : endswith c (s ++ [c]) = true.
Proof. unfold endswith. rewrite last_snoc. apply N.eqb_refl. Qed.

(** What makes [validate_fact] accept a line that has no white space
    around it. *)
Lemma fact_verdict_accept (line g1 g2 : str) :
  strip line = line ->
  skipped line = false ->
  check_balanced_parens line = true ->
  FACT_PATTERN_match line = Some (g1, g2) ->
  existsb (str_eqb g1) VALID_PREDICATES = true ->
  endswith DOT line = true ->
  fact_verdict line = true.
Proof.
  intros Hstrip Hskip Hbal Hm Hp Hdot.
  unfold fact_verdict, validate_fact. rewrite Hstrip, Hskip, Hbal, Hm.
  unfold mbind, result_bind, group1. cbn [negb]. rewrite Hp. cbn [negb].
  assert (rstrip line = line) as ->.
  { rewrite <- Hstrip at 1. unfold strip. rewrite rstrip_idem. exact Hstrip. }
  now rewrite Hdot.
Qed.

Lemma strip_trimmed c (s : str) d :
  is_space c = false -> is_space d = false -> strip (c :: s ++ [d]) = c :: s ++ [d].
Proof.
  intros Hc Hd. unfold strip. rewrite lstrip_nonspace by assumption.
  rewrite app_comm_cons. now apply rstrip_snoc_nonspace.
Qed.

Lemma plain_without_LF (s : str) : forallb plain s = true -> without LF s = true.
Proof.
  apply forallb_impl. intros c H. unfold plain in H.
  repeat rewrite andb_true_iff in H. tauto.
Qed.

Lemma without_app c (a b : str) :
  without c (a ++ b) = without c a && without c b.
Proof. apply forallb_app. Qed.

End AcceptedFacts.

Section ConceptFacts.

Variables x n s : str.
Hypothesis Hx : snake_case x = true.
Hypothesis Hn : is_integer n = true.
Hypothesis Hq : quotes_doubled s = true.
Hypothesis Hlf : without LF s = true.
Hypothesis Hbs : without BACKSLASH s = true.

Let body : str := x ++ lit ", " ++ n ++ lit ", " ++ [DQUOTE] ++ s ++ [DQUOTE].

Lemma concept_fact_body : concept_fact x n s = lit "concept(" ++ body ++ [RPAREN; DOT].
Proof.
  unfold concept_fact, body. repeat rewrite <- app_assoc. reflexivity.
Qed.

Lemma concept_body_without_LF : without LF body = true.
Proof.
  unfold body. repeat rewrite without_app.
  rewrite (plain_without_LF x (snake_case_plain x Hx)).
  rewrite (plain_without_LF n (is_integer_plain n Hn)).
  rewrite Hlf. reflexivity.
Qed.

Lemma concept_fact_single_line : split_lines (concept_fact x n s) = [concept_fact x n s].
Proof.
  apply split_lines_single. fold (without LF (concept_fact x n s)).
  rewrite concept_fact_body. repeat rewrite without_app.
  now rewrite concept_body_without_LF.
Qed.

Lemma concept_fact_balanced : check_balanced_parens (concept_fact x n s) = true.
Proof.
  unfold check_balanced_parens, concept_fact.
  rewrite scan_parens_app.
  change (scan_parens (lit "concept(") scanner0) with (Some (Scanner 1 false false)).
  cbv iota.
  rewrite scan_parens_app, (scan_parens_plain x) by now apply snake_case_plain.
  rewrite scan_parens_app, (scan_parens_plain (lit ", ")) by reflexivity.
  rewrite scan_parens_app, (scan_parens_plain n) by now apply is_integer_plain.
  rewrite scan_parens_app, (scan_parens_plain (lit ", ")) by reflexivity.
  rewrite scan_parens_app.
  change (scan_parens [DQUOTE] (Scanner 1 false false)) with (Some (Scanner 1 true false)).
  cbv iota.
  rewrite scan_parens_app, (scan_parens_doubled (length s) s) by auto.
  reflexivity.
Qed.

Lemma concept_fact_match :
  exists args, FACT_PATTERN_match (concept_fact x n s) = Some (lit "concept", args).
Proof.
  rewrite concept_fact_body.
  destruct (match_args_closing body concept_body_without_LF) as [args Ha].
  exists args.
  change (lit "concept(" ++ body ++ [RPAREN; DOT])
    with (ord "c" :: (lit "oncept" ++ LPAREN :: body ++ [RPAREN; DOT])).
  unfold FACT_PATTERN_match. change (ident_start (ord "c")) with true. cbv iota.
  rewrite span_app by reflexivity.
  rewrite lstrip_nonspace by reflexivity.
  change (LPAREN =? LPAREN)%N with true. cbv iota. now rewrite Ha.
Qed.

Lemma concept_fact_trimmed : strip (concept_fact x n s) = concept_fact x n s.
Proof.
  rewrite concept_fact_body.
  change (lit "concept(" ++ body ++ [RPAREN; DOT])
    with (ord "c" :: (lit "oncept(" ++ body ++ [RPAREN; DOT])).
  replace (lit "oncept(" ++ body ++ [RPAREN; DOT])
    with ((lit "oncept(" ++ body ++ [RPAREN]) ++ [DOT])
    by (repeat rewrite <- app_assoc; reflexivity).
  now apply strip_trimmed.
Qed.

Lemma concept_fact_accepted : fact_verdict (concept_fact x n s) = true.
Proof.
  destruct concept_fact_match as [args Hm].
  apply (fact_verdict_accept _ (lit "concept") args).
  - apply concept_fact_trimmed.
  - rewrite concept_fact_body. reflexivity.
  - apply concept_fact_balanced.
  - exact Hm.
  - vm_compute. reflexivity.
  - rewrite concept_fact_body.
    replace (lit "concept(" ++ body ++ [RPAREN; DOT])
      with ((lit "concept(" ++ body ++ [RPAREN]) ++ [DOT])
      by (repeat rewrite <- app_assoc; reflexivity).
    apply endswith_snoc.
Qed.

End ConceptFacts.

(** C4, amended: a single-line payload [concept(X, N, "S").], with X a
    snake_case identifier, N an integer and S a text without newline and
    without backslash in which every quote is doubled, is valid. *)
Theorem C4_concept_fact_valid (x n s : str) :
  snake_case x = true ->
  is_integer n = true ->
  quotes_doubled s = true ->
  without LF s = true ->
  without BACKSLASH s = true ->
  validate_prolog_syntax (concept_fact x n s) = Ok true.
Proof.
  intros Hx Hn Hq Hlf Hbs.
  rewrite validate_prolog_syntax_spec, concept_fact_single_line by assumption.
  cbn [forallb]. now rewrite concept_fact_accepted.
Qed.

Lemma C4_concept_fact_valid_witness :
  validate_prolog_syntax
    (concept_fact (lit "nash_equilibrium") (lit "42")
       (lit "He said " ++ [DQUOTE; DQUOTE] ++ lit "hello" ++ [DQUOTE; DQUOTE]))
  = Ok true.
Proof.
  apply C4_concept_fact_valid; vm_compute; reflexivity.
Defined.

(** C4 as stated fails: with S a single backslash, a text in which every
    quote is doubled since it has none, the scanner takes the closing
    quote for an escaped character and the line is rejected for its
    parentheses. *)
Lemma C4_backslash_counterexample :
  snake_case (lit "a") = true
  /\ is_integer (lit "1") = true
  /\ quotes_doubled [BACKSLASH] = true
  /\ without LF [BACKSLASH] = true
  /\ validate_prolog_syntax (concept_fact (lit "a") (lit "1") [BACKSLASH]) = Ok false
  /\ validate_fact (concept_fact (lit "a") (lit "1") [BACKSLASH])
     = Ok (false, lit "Unbalanced parentheses").
Proof. vm_compute. repeat split; reflexivity. Qed.

(** ** The matcher against the pattern *)

Section PatternFacts.

Lemma span_spec (p : char -> bool) (s : str) :
  s = fst (span p s) ++ snd (span p s)
  /\ forallb p (fst (span p s)) = true
  /\ match snd (span p s) with
     | [] => True
     | c :: _ => p c = false
     end.
Proof.
  induction s as [|c s (IH1 & IH2 & IH3)]; [cbn; auto|].
  cbn [span]. destruct (p c) eqn:Hc.
  - destruct (span p s) as [a b]. cbn [fst snd forallb] in *.
    repeat split; [now rewrite <- app_comm_cons, <- IH1 | now rewrite Hc | exact IH3].
  - cbn [fst snd forallb app]. auto.
Qed.

Lemma lstrip_app_spaces (ws : str) c (r : str) :
  forallb is_space ws = true -> is_space c = false ->
  lstrip (ws ++ c :: r) = c :: r.
Proof.
  intros Hws Hc. induction ws as [|d ws IH]; cbn [app lstrip].
  - now rewrite Hc.
  - cbn [forallb] in Hws. apply andb_prop in Hws as [Hd Hws]. rewrite Hd. auto.
Qed.

Lemma lstrip_head (s : str) :
  match lstrip s with
  | [] => True
  | c :: _ => is_space c = false
  end.
Proof.
  induction s as [|c s IH]; [exact I|].
  cbn [lstrip]. destruct (is_space c) eqn:Hc; assumption.
Qed.

Lemma close_tail_spec (s : str) :
  close_tail s = true <->
  exists ws2 ws3, s = ws2 ++ [DOT] ++ ws3
                  /\ forallb is_space ws2 = true /\ forallb is_space ws3 = true.
Proof.
  unfold close_tail. split.
  - destruct (lstrip_decompose s) as [ws [Hs Hws]].
    destruct (lstrip s) as [|d r]; [discriminate|].
    intros H. apply andb_prop in H as [Hd Hr]. apply N.eqb_eq in Hd. subst d.
    exists ws, r. auto.
  - intros (ws2 & ws3 & -> & H2 & H3). cbn [app].
    rewrite lstrip_app_spaces by (assumption || reflexivity).
    now rewrite N.eqb_refl, H3.
Qed.

Lemma match_args_sound (s : str) : forall args,
  match_args s = Some args ->
  forallb (fun c => negb (c =? LF)%N) args = true
  /\ exists t, s = args ++ [RPAREN] ++ t /\ close_tail t = true.
Proof.
  induction s as [|c s IH]; intros args H; [discriminate|].
  cbn [match_args] in H.
  destruct (if (c =? LF)%N then None else match_args s) as [a|] eqn:E.
  - injection H as <-. destruct (c =? LF)%N eqn:Ec; [discriminate|].
    destruct (IH a E) as [Ha [t [-> Ht]]].
    cbn [forallb]. rewrite Ec, Ha. split; [reflexivity|]. now exists t.
  - destruct (c =? RPAREN)%N eqn:Er; [|discriminate].
    destruct (close_tail s) eqn:Ht; [|discriminate].
    injection H as <-. apply N.eqb_eq in Er. subst c.
    split; [reflexivity|]. now exists s.
Qed.

Lemma match_args_complete (args t : str) :
  forallb (fun c => negb (c =? LF)%N) args = true ->
  close_tail t = true ->
  exists g2, match_args (args ++ [RPAREN] ++ t) = Some g2.
Proof.
  intros Ha Ht. induction args as [|c args IH].
  - cbn [app match_args]. change (RPAREN =? LF)%N with false. cbv iota.
    destruct (match_args t); [eauto|].
    change (RPAREN =? RPAREN)%N with true. rewrite Ht. cbn [andb]. eauto.
  - cbn [forallb] in Ha. apply andb_prop in Ha as [Hc Ha].
    apply negb_true_iff in Hc. destruct (IH Ha) as [g2 Hg].
    cbn [app match_args] in *. rewrite Hc, Hg. eauto.
Qed.

Lemma space_not_ident c : is_space c = true -> ident_char c = false.
Proof.
  intros H. apply not_true_is_false. intros Hi.
  unfold ident_char, re_az, re_digit, is_space, in_range, UNDERSCORE in *.
  repeat rewrite ?andb_true_iff, ?orb_true_iff, ?N.eqb_eq, ?N.leb_le in *.
  lia.
Qed.

(** The matcher succeeds with group 1 exactly on the lines of the shape
    the pattern describes. *)
Lemma FACT_PATTERN_match_shape (line g1 : str) :
  (exists g2, FACT_PATTERN_match line = Some (g1, g2)) <-> fact_shape line g1.
Proof.
  unfold fact_shape. split.
  - intros [g2 H]. unfold FACT_PATTERN_match in H.
    destruct line as [|c rest]; [discriminate|].
    destruct (ident_start c) eqn:Hc; [|discriminate].
    destruct (span_spec ident_char rest) as (Hrest & Htl & _).
    destruct (span ident_char rest) as [tl rest1]. cbn [fst snd] in *.
    destruct (lstrip_decompose rest1) as [ws1 [Hr1 Hw1]].
    destruct (lstrip rest1) as [|p rest2]; [discriminate|].
    destruct (p =? LPAREN)%N eqn:Hp; [|discriminate].
    apply N.eqb_eq in Hp. subst p.
    destruct (match_args rest2) as [args|] eqn:Ha; [|discriminate].
    injection H as <- <-.
    destruct (match_args_sound rest2 args Ha) as [Hargs [t [-> Ht]]].
    apply close_tail_spec in Ht as (ws2 & ws3 & -> & H2 & H3).
    exists ws1, args, ws2, ws3. cbn [is_ident]. rewrite Hc, Htl.
    repeat split; try assumption.
    rewrite Hrest, Hr1. reflexivity.
  - intros (ws1 & args & ws2 & ws3 & -> & Hid & H1 & Ha & H2 & H3).
    destruct g1 as [|c tl]; [discriminate|]. cbn [is_ident] in Hid.
    apply andb_prop in Hid as [Hc Htl].
    destruct (match_args_complete args (ws2 ++ [DOT] ++ ws3) Ha) as [g2 Hg].
    { apply close_tail_spec. now exists ws2, ws3. }
    exists g2. cbn [app FACT_PATTERN_match]. rewrite Hc.
    assert (Hspan : span ident_char
                      (tl ++ ws1 ++ LPAREN :: args ++ RPAREN :: ws2 ++ DOT :: ws3)
                    = (tl, ws1 ++ LPAREN :: args ++ RPAREN :: ws2 ++ DOT :: ws3)).
    { destruct ws1 as [|d ws1]; cbn [app].
      - now apply span_app.
      - cbn [forallb] in H1. apply andb_prop in H1 as [Hd _].
        apply span_app; [assumption | now apply space_not_ident]. }
    rewrite Hspan, lstrip_app_spaces by (assumption || reflexivity).
    change (LPAREN =? LPAREN)%N with true. cbv iota.
    cbn [app] in Hg. now rewrite Hg.
Qed.

End PatternFacts.

(** ** Unterminated strings *)

Section UnterminatedStrings.

Lemma space_inert c : is_space c = true -> inert c = true.
Proof.
  intros H. unfold inert, is_space, in_range, DQUOTE, BACKSLASH, LPAREN, RPAREN in *.
  repeat rewrite ?andb_true_iff, ?orb_true_iff, ?negb_true_iff,
    ?N.eqb_eq, ?N.eqb_neq, ?N.leb_le in *.
  lia.
Qed.

(** Inert characters never change the counter, whatever the state. *)
Lemma scan_parens_inert_count (ws : str) (st : scanner) :
  forallb inert ws = true ->
  exists st', scan_parens ws st = Some st' /\ count st' = count st.
Proof.
  destruct ws as [|c ws]; [eauto|].
  cbn [forallb]. intros H. apply andb_prop in H as [Hc Hws].
  destruct st as [n ins [|]].
  - cbn [scan_parens escape_next in_string count].
    rewrite scan_parens_inert by assumption. eauto.
  - change (c :: ws) with ([c] ++ ws).
    rewrite scan_parens_app, (scan_parens_inert [c]) by (cbn [forallb]; now rewrite Hc).
    rewrite scan_parens_inert by assumption. eauto.
Qed.

Lemma strip_decompose (l : str) :
  exists ws1 ws2, l = ws1 ++ strip l ++ ws2
                  /\ forallb is_space ws1 = true /\ forallb is_space ws2 = true.
Proof.
  destruct (lstrip_decompose l) as [ws1 [H1 Hw1]].
  destruct (rstrip_decompose (lstrip l)) as [ws2 [H2 Hw2]].
  exists ws1, ws2. unfold strip. rewrite <- H2. auto.
Qed.

(** The white space around a line does not change the verdict of the
    parenthesis check. *)
Lemma check_balanced_parens_strip (l : str) :
  check_balanced_parens (strip l) = check_balanced_parens l.
Proof.
  destruct (strip_decompose l) as (ws1 & ws2 & Hl & Hw1 & Hw2).
  unfold check_balanced_parens. rewrite Hl at 2.
  rewrite scan_parens_app.
  change scanner0 with (Scanner 0 false false).
  rewrite (scan_parens_inert ws1) by (revert Hw1; apply forallb_impl, space_inert).
  rewrite scan_parens_app.
  destruct (scan_parens (strip l) (Scanner 0 false false)) as [st|]; [|reflexivity].
  destruct (scan_parens_inert_count ws2 st) as [st' [Hs Hc]];
    [revert Hw2; apply forallb_impl, space_inert|].
  now rewrite Hs, Hc.
Qed.

(** The string parser runs off the end of an open body. *)
Lemma open_body_parse (s : str) :
  open_body s ->
  forall i res, parse_loop s i res = Raise (ValueError MSG_UNTERMINATED).
Proof.
  induction 1 as [|c s Hq Hb Hs IH|d s Hs IH| |s Hs IH]; intros i res.
  - reflexivity.
  - apply N.eqb_neq in Hq, Hb. cbn [parse_loop]. rewrite Hq, Hb.
    destruct s; apply IH.
  - cbn [parse_loop]. change (BACKSLASH =? DQUOTE)%N with false.
    change (BACKSLASH =? BACKSLASH)%N with true. cbv iota. apply IH.
  - reflexivity.
  - cbn [parse_loop]. change (DQUOTE =? DQUOTE)%N with true. cbv iota. apply IH.
Qed.

(** Conversely, the parser reports nothing else, and reports it on open
    bodies only. *)
Lemma parse_loop_raise (m : nat) : forall (s : str) i res e,
  (length s <= m)%nat ->
  parse_loop s i res = Raise e ->
  e = ValueError MSG_UNTERMINATED /\ open_body s.
Proof.
  induction m as [|m IH]; intros s i res e Hlen H.
  - destruct s; [|cbn [length] in Hlen; lia].
    cbn [parse_loop] in H. split; [congruence | constructor].
  - destruct s as [|c s]; [cbn [parse_loop] in H; split; [congruence | constructor]|].
    cbn [length] in Hlen. cbn [parse_loop] in H.
    destruct (c =? DQUOTE)%N eqn:Ec.
    + apply N.eqb_eq in Ec. subst c.
      destruct s as [|d s]; [discriminate|].
      destruct (d =? DQUOTE)%N eqn:Ed; [|discriminate].
      apply N.eqb_eq in Ed. subst d. cbn [length] in Hlen.
      apply IH in H as [He Ho]; [|lia]. split; [assumption | now apply open_doubled].
    + apply N.eqb_neq in Ec.
      destruct s as [|d s].
      * cbn [parse_loop] in H. split; [congruence|].
        destruct (N.eq_dec c BACKSLASH) as [->|Hb]; [apply open_backslash|].
        apply open_char; [assumption | assumption | apply open_nil].
      * destruct (c =? BACKSLASH)%N eqn:Eb.
        -- apply N.eqb_eq in Eb. subst c. cbn [length] in Hlen.
           apply IH in H as [He Ho]; [|lia].
           split; [assumption | now apply open_escape].
        -- apply N.eqb_neq in Eb.
           apply IH in H as [He Ho]; [|cbn [length] in *; lia].
           split; [assumption | now apply open_char].
Qed.

(** The scanner stays inside the string along an open body, and the
    counter does not move. *)
Lemma open_body_scan (s : str) :
  open_body s ->
  forall n, exists e, scan_parens s (Scanner n true false) = Some (Scanner n true e).
Proof.
  induction 1 as [|c s Hq Hb Hs IH|d s Hs IH| |s Hs IH]; intros n.
  - exists false. reflexivity.
  - apply N.eqb_neq in Hq, Hb.
    cbn [scan_parens escape_next in_string count]. rewrite Hq, Hb.
    cbn [andb]. apply IH.
  - cbn [scan_parens escape_next in_string count].
    change (BACKSLASH =? BACKSLASH)%N with true. cbv iota. apply IH.
  - exists true. reflexivity.
  - cbn [scan_parens escape_next in_string count].
    change (DQUOTE =? BACKSLASH)%N with false. change (DQUOTE =? DQUOTE)%N with true.
    cbn [andb negb]. apply IH.
Qed.

(** A string that opens at a depth other than zero and is not closed
    makes the parenthesis check fail. *)
Lemma unterminated_unbalanced (pre s : str) :
  open_body s ->
  quote_state pre = (false, false) ->
  depth pre <> 0 ->
  check_balanced_parens (pre ++ DQUOTE :: s) = false.
Proof.
  intros Hs Hfl Hd. unfold check_balanced_parens. rewrite scan_parens_app.
  pose proof (scan_parens_depth pre scanner0) as H.
  cbn [count scanner0] in H. specialize (H ltac:(lia)).
  change (flags scanner0) with (false, false) in H.
  destruct (scan_parens pre scanner0) as [[n ins esc]|]; [|reflexivity].
  destruct H as (_ & Hc & Hf). unfold flags in Hf.
  cbn [count in_string escape_next] in Hc, Hf.
  fold (quote_state pre) in Hf. rewrite Hfl in Hf. injection Hf as -> ->.
  cbn [scan_parens escape_next in_string count].
  change (DQUOTE =? BACKSLASH)%N with false. change (DQUOTE =? DQUOTE)%N with true.
  cbn [andb negb].
  destruct (open_body_scan s Hs n) as [e ->]. cbn [count].
  apply Z.eqb_neq. fold (outside pre) in Hc. fold (depth pre) in Hc. lia.
Qed.

(** A string that is not closed has no effect on the parenthesis check:
    the verdict is the one of the text before the string. *)
Lemma unterminated_ignored (pre s : str) :
  open_body s ->
  quote_state pre = (false, false) ->
  check_balanced_parens (pre ++ DQUOTE :: s) = check_balanced_parens pre.
Proof.
  intros Hs Hfl. unfold check_balanced_parens. rewrite scan_parens_app.
  pose proof (scan_parens_depth pre scanner0) as H.
  cbn [count scanner0] in H. specialize (H ltac:(lia)).
  change (flags scanner0) with (false, false) in H.
  destruct (scan_parens pre scanner0) as [[n ins esc]|]; [|reflexivity].
  destruct H as (_ & _ & Hf). unfold flags in Hf.
  cbn [in_string escape_next] in Hf.
  fold (quote_state pre) in Hf. rewrite Hfl in Hf. injection Hf as -> ->.
  cbn [scan_parens escape_next in_string count].
  change (DQUOTE =? BACKSLASH)%N with false. change (DQUOTE =? DQUOTE)%N with true.
  cbn [andb negb].
  destruct (open_body_scan s Hs n) as [e ->]. reflexivity.
Qed.

End UnterminatedStrings.

(** C8: the validator does not look for strings that are not closed.
    In a line where a quoted string opens and is never closed, the
    parenthesis check gives the verdict of the text before the string:
    the scanner keeps track of being inside a string and never looks at
    it at the end.  Such a line makes the payload invalid when the
    string opens at a depth other than zero, and nothing is said of it
    otherwise.  The string parser, which the validator does not call,
    fails on the string with the unterminated-string error, and on a
    text that does not begin with a quote with another error. *)
Theorem C8_unterminated_string_not_checked (line pre s : str) :
  line = pre ++ DQUOTE :: s ->
  open_body s ->
  quote_state pre = (false, false) ->
  check_balanced_parens line = check_balanced_parens pre
  /\ (depth pre <> 0 -> skipped (strip line) = false ->
      forall text, In line (split_lines text) ->
                   validate_prolog_syntax text = Ok false)
  /\ parse_prolog_string (DQUOTE :: s) = Raise (ValueError MSG_UNTERMINATED)
  /\ (forall t, startswith DQUOTE t = false ->
                parse_prolog_string t = Raise (ValueError MSG_START))
  /\ MSG_START <> MSG_UNTERMINATED.
Proof.
  intros Hline Hs Hfl. split; [|split; [|split; [|split]]].
  - rewrite Hline. now apply unterminated_ignored.
  - intros Hd Hskip text Hin.
    rewrite validate_prolog_syntax_spec. f_equal.
    apply forallb_false_exists. exists line. split; [assumption|].
    unfold fact_verdict, validate_fact. rewrite Hskip.
    rewrite check_balanced_parens_strip, Hline.
    now rewrite unterminated_unbalanced.
  - unfold parse_prolog_string. cbn [startswith tl].
    change (DQUOTE =? DQUOTE)%N with true. cbn [negb].
    now apply open_body_parse.
  - intros t Ht. unfold parse_prolog_string. now rewrite Ht.
  - intros H. vm_compute in H. discriminate H.
Qed.

(** The line made of [concept()], a quote, a closing parenthesis and a
    period: the string that opens after the parentheses never ends, the
    parser fails on it, and the payload is valid. *)
Lemma C8_unterminated_string_not_checked_witness :
  check_balanced_parens (lit "concept()" ++ DQUOTE :: lit ").")
  = check_balanced_parens (lit "concept()")
  /\ parse_prolog_string (DQUOTE :: lit ").") = Raise (ValueError MSG_UNTERMINATED)
  /\ validate_prolog_syntax (lit "concept()" ++ DQUOTE :: lit ").") = Ok true.
Proof.
  destruct (C8_unterminated_string_not_checked
              (lit "concept()" ++ DQUOTE :: lit ").") (lit "concept()") (lit ")."))
    as (Hb & _ & Hp & _).
  - reflexivity.
  - repeat (apply open_char; [discriminate | discriminate |]). apply open_nil.
  - reflexivity.
  - split; [exact Hb|]. split; [exact Hp|]. vm_compute. reflexivity.
Defined.

(** ** The page marker *)

Section PageMarker.

Variable encodes : char -> bool.

Lemma uint_digits (d : Decimal.uint) :
  forallb re_digit (lit (NilEmpty.string_of_uint d)) = true.
Proof. induction d; cbn [NilEmpty.string_of_uint lit forallb]; auto. Qed.

(** The decimal form of an integer: digits after an optional minus. *)
Lemma str_of_int_chars (n : Z) :
  forallb (fun c => re_digit c || (c =? 45)%N) (str_of_int n) = true.
Proof.
  assert (Hu : forall d, forallb (fun c => re_digit c || (c =? 45)%N)
                           (lit (NilZero.string_of_uint d)) = true).
  { intros d. apply (forallb_impl re_digit); [intros c ->; reflexivity|].
    destruct d; try apply uint_digits. reflexivity. }
  unfold str_of_int. destruct (Z.to_int n) as [d|d]; cbn [NilZero.string_of_int lit].
  - apply Hu.
  - cbn [forallb]. now rewrite Hu.
Qed.

Lemma encodable_app (a b : str) :
  encodable encodes (a ++ b) = encodable encodes a && encodable encodes b.
Proof. unfold encodable. apply forallb_app. Qed.

(** The marker is ASCII: with it before a payload, the text is written
    when the payload is. *)
Lemma encodable_marker (p : Z) (payload : str) :
  encodable encodes (page_marker p ++ payload) = encodable encodes payload.
Proof.
  assert (Hn : encodable encodes (str_of_int p) = true).
  { unfold encodable.
    apply (forallb_impl (fun c => re_digit c || (c =? 45)%N));
      [|apply str_of_int_chars].
    intros c H. apply orb_true_iff. left. apply N.ltb_lt.
    unfold re_digit, in_range in H.
    repeat rewrite ?andb_true_iff, ?orb_true_iff, ?N.eqb_eq, ?N.leb_le in H. lia. }
  unfold page_marker. rewrite !encodable_app, Hn.
  reflexivity.
Qed.

End PageMarker.

(** ** The retry loop of a page *)

Section RetryLoop.

Variable pages : list str.
Variable encodes : char -> bool.
Variable service : nat -> str -> Z -> response.
Variable page_num : Z.
Variable text : str.

Local Abbreviation current_page := (page_num + 1).
Local Abbreviation attempts_from := (attempt_loop encodes service page_num text).

Lemma attempt_loop_rate_limited attempt attempts' w :
  service (length (calls w)) text current_page = RateLimited ->
  attempts_from (attempt :: attempts') w
  = attempts_from attempts' (rate_limited_attempt current_page w attempt).
Proof.
  intros H. cbn [attempt_loop]. unfold call_claude. now rewrite H.
Qed.

Lemma attempt_loop_service_error attempt attempts' w :
  service (length (calls w)) text current_page = ServiceError ->
  attempts_from (attempt :: attempts') w
  = if attempt =? max_retries - 1
    then (Raise APIError, service_error_attempt current_page w)
    else attempts_from attempts' (service_error_attempt current_page w).
Proof.
  intros H. cbn [attempt_loop]. unfold call_claude, service_error_attempt.
  rewrite H. now rewrite Z.add_simpl_r.
Qed.

Lemma attempt_loop_crashed attempt attempts' w e :
  service (length (calls w)) text current_page = Crashed e ->
  attempts_from (attempt :: attempts') w = (Raise e, record_call current_page w).
Proof.
  intros H. cbn [attempt_loop]. unfold call_claude. now rewrite H.
Qed.

Lemma attempt_loop_completed attempt attempts' w payload :
  service (length (calls w)) text current_page = Completed payload ->
  attempts_from (attempt :: attempts') w
  = if forallb fact_verdict (split_lines payload)
    then if encodable encodes payload
         then (Ok (), print (LogOk current_page)
                        (save_state current_page
                           (append_text (page_marker current_page ++ payload)
                              (record_call current_page w))))
         else (Raise UnicodeEncodeError, unwritten_accept current_page w)
    else if encodable encodes payload
         then (Ok (), save_state current_page
                        (write_raw current_page payload
                           (log_invalid_output current_page payload
                              (record_call current_page w))))
         else (Raise UnicodeEncodeError, unwritten_reject current_page payload w).
Proof.
  intros H. cbn [attempt_loop]. unfold call_claude. rewrite H.
  rewrite validate_prolog_syntax_spec.
  unfold append_to_knowledge_base, save_raw_response.
  rewrite encodable_marker.
  destruct (forallb fact_verdict (split_lines payload));
    now destruct (encodable encodes payload).
Qed.


Lemma service_error_calls w :
  length (calls (service_error_attempt current_page w)) = S (length (calls w)).
Proof.
  unfold service_error_attempt, save_state, log_error, print, record_call. cbn [calls].
  rewrite length_app. cbn [length]. lia.
Qed.


End RetryLoop.

(** ** The page loop *)

Section PageLoop.

Variable pages : list str.
Variable encodes : char -> bool.
Variable service : nat -> str -> Z -> response.

Lemma range_attempts : range 0 max_retries = [0; 1; 2].
Proof. reflexivity. Qed.

(** A page with enough text goes to the retry loop; the loop goes on with
    the next page after the fixed delay, unless the retry loop raised. *)
Lemma page_loop_cons total_pages page_num page_nums' w text :
  py_index pages page_num = Ok text ->
  50 <= Z.of_nat (length text) ->
  page_loop pages encodes service total_pages (page_num :: page_nums') w
  = match attempt_loop encodes service page_num text (range 0 max_retries)
            (print (LogPage (page_num + 1) total_pages) w) with
    | (Ok _, w') => page_loop pages encodes service total_pages page_nums' (sleep BaseDelay w')
    | (Raise e, w') => (Raise e, w')
    end.
Proof.
  intros Hidx Hlen. cbn [page_loop]. rewrite Hidx.
  assert (Hne : bool_decide (text = []) = false).
  { apply bool_decide_eq_false. intros ->. cbn [length] in Hlen. lia. }
  assert (Hge : (Z.of_nat (length text) <? 50) = false) by (apply Z.ltb_ge; lia).
  now rewrite Hne, Hge.
Qed.

End PageLoop.



(** ** Rate limits before a completion *)

Section RateLimits.

Variable encodes : char -> bool.
Variable service : nat -> str -> Z -> response.
Variable page_num : Z.
Variable text : str.

Local Abbreviation current_page := (page_num + 1).

Lemma backoff_sum_app (a b : list sleep_event) :
  backoff_sum (a ++ b) = backoff_sum a + backoff_sum b.
Proof.
  unfold backoff_sum. induction a as [|e a IH]; cbn [app fold_right]; [lia|].
  destruct e; lia.
Qed.




End RateLimits.




(** ** Service errors *)

Section ServiceErrors.

Variable pages : list str.
Variable encodes : char -> bool.
Variable service : nat -> str -> Z -> response.
Variable page_num : Z.
Variable text : str.

Local Abbreviation current_page := (page_num + 1).

Lemma pages_processed_print_other e w :
  (forall p t, e <> LogPage p t) ->
  pages_processed (print e w) = pages_processed w.
Proof.
  intros He. unfold pages_processed, print. cbn [stdout].
  rewrite omap_app.
  destruct e as [| |p t| | | | | |]; try apply app_nil_r.
  now contradiction (He p t).
Qed.

(** An attempt that fails before the last one leaves the page to the next
    attempt, with one more call made and nothing written but, for a
    service error, the progress state. *)
Lemma attempt_loop_failed attempt attempts' w :
  attempt <> max_retries - 1 ->
  failed (service (length (calls w)) text current_page) = true ->
  exists w',
    attempt_loop encodes service page_num text (attempt :: attempts') w
    = attempt_loop encodes service page_num text attempts' w'
    /\ calls w' = calls w ++ [current_page]
    /\ knowledge w' = knowledge w
    /\ raw w' = raw w
    /\ pages_processed w' = pages_processed w.
Proof.
  intros Hne Hf.
  destruct (service (length (calls w)) text current_page) eqn:E;
    [discriminate| | |discriminate].
  - rewrite attempt_loop_rate_limited by exact E.
    eexists. split; [reflexivity|]. repeat split.
    unfold pages_processed, rate_limited_attempt, sleep, print, record_call.
    cbn [stdout]. rewrite omap_app. apply app_nil_r.
  - rewrite attempt_loop_service_error by exact E.
    apply Z.eqb_neq in Hne. rewrite Hne.
    eexists. split; [reflexivity|]. repeat split.
    unfold pages_processed, service_error_attempt, save_state, log_error,
      print, record_call.
    cbn [stdout]. rewrite omap_app. apply app_nil_r.
Qed.

Lemma service_error_fields p w :
  state_file (service_error_attempt p w) = Some (p - 1)
  /\ pages_processed (service_error_attempt p w) = pages_processed w
  /\ calls (service_error_attempt p w) = calls w ++ [p]
  /\ knowledge (service_error_attempt p w) = knowledge w.
Proof.
  repeat split.
  unfold pages_processed, service_error_attempt, save_state, log_error,
    print, record_call.
  cbn [stdout]. rewrite omap_app. apply app_nil_r.
Qed.

Lemma pages_processed_page p t w :
  pages_processed (print (LogPage p t) w) = pages_processed w ++ [p].
Proof.
  unfold pages_processed, print. cbn [stdout]. now rewrite omap_app.
Qed.

Lemma range_cons lo hi : lo < hi -> range lo hi = lo :: range (lo + 1) hi.
Proof.
  intros H. unfold range.
  replace (Z.to_nat (hi - lo)) with (S (Z.to_nat (hi - (lo + 1)))) by lia.
  cbn [seq map]. f_equal; [lia|].
  rewrite <- seq_shift, map_map. apply map_ext. intros k. lia.
Qed.

(** Failed attempts before the last one are gone through one after the
    other: a call is made for each, and neither the knowledge base nor a
    raw response file is written. *)
Lemma attempt_loop_failed_prefix (pre : list Z) : forall rest w,
  ~ In (max_retries - 1) pre ->
  (forall j, (j < length pre)%nat ->
     failed (service (length (calls w) + j)%nat text current_page) = true) ->
  exists w',
    attempt_loop encodes service page_num text (pre ++ rest) w
    = attempt_loop encodes service page_num text rest w'
    /\ calls w' = calls w ++ repeat current_page (length pre)
    /\ knowledge w' = knowledge w
    /\ raw w' = raw w
    /\ pages_validated w' = pages_validated w
    /\ (pre = [] -> w' = w).
Proof.
  induction pre as [|a pre IH]; intros rest w Hlast Hf.
  - exists w. cbn [app length repeat]. rewrite app_nil_r. auto 10.
  - assert (Ha : a <> max_retries - 1) by (intros ->; apply Hlast; now left).
    assert (Hpre : ~ In (max_retries - 1) pre) by (intros H; apply Hlast; now right).
    pose proof (Hf 0%nat ltac:(cbn [length]; lia)) as H0.
    rewrite Nat.add_0_r in H0.
    assert (Hstep : exists w1,
      attempt_loop encodes service page_num text ((a :: pre) ++ rest) w
      = attempt_loop encodes service page_num text (pre ++ rest) w1
      /\ calls w1 = calls w ++ [current_page]
      /\ knowledge w1 = knowledge w /\ raw w1 = raw w
      /\ pages_validated w1 = pages_validated w).
    { cbn [app].
      destruct (service (length (calls w)) text current_page) eqn:E;
        [discriminate| | |discriminate].
      - rewrite attempt_loop_rate_limited by exact E.
        eexists. split; [reflexivity|]. repeat split.
        unfold pages_validated, rate_limited_attempt, sleep, print, record_call.
        cbn [stdout]. rewrite omap_app. apply app_nil_r.
      - rewrite attempt_loop_service_error by exact E.
        apply Z.eqb_neq in Ha. rewrite Ha.
        eexists. split; [reflexivity|]. repeat split.
        unfold pages_validated, service_error_attempt, save_state, log_error,
          print, record_call.
        cbn [stdout]. rewrite omap_app. apply app_nil_r. }
    destruct Hstep as (w1 & E1 & C1 & K1 & R1 & V1).
    destruct (IH rest w1 Hpre) as (w' & E' & C' & K' & R' & V' & _).
    { intros j Hj. rewrite C1, length_app. cbn [length].
      replace (length (calls w) + 1 + j)%nat with (length (calls w) + S j)%nat by lia.
      apply Hf. cbn [length]. lia. }
    exists w'. rewrite E1, E', C', C1, K', K1, R', R1, V', V1, <- app_assoc.
    cbn [length repeat app]. repeat split; try reflexivity. discriminate.
Qed.

(** A payload that fails validation and can be written, after failed
    attempts: the retry loop ends, with the payload in the raw response
    file of the page and the page as the progress state. *)
Lemma attempt_loop_rejected_after (pre : list Z) attempt attempts' w payload :
  ~ In (max_retries - 1) pre ->
  (forall j, (j < length pre)%nat ->
     failed (service (length (calls w) + j)%nat text current_page) = true) ->
  service (length (calls w) + length pre)%nat text current_page = Completed payload ->
  validate_prolog_syntax payload = Ok false ->
  encodable encodes payload = true ->
  exists w',
    attempt_loop encodes service page_num text (pre ++ attempt :: attempts') w
    = (Ok (), w')
    /\ raw w' = <[current_page := payload]> (raw w)
    /\ knowledge w' = knowledge w
    /\ state_file w' = Some current_page
    /\ calls w' = calls w ++ repeat current_page (S (length pre))
    /\ pages_validated w' = pages_validated w ++ [current_page]
    /\ last (stdout w') = Some (LogInvalid current_page)
    /\ (pre = [] ->
        slept w' = slept w /\ stdout w' = stdout w ++ [LogInvalid current_page]).
Proof.
  intros Hlast Hf Hok Hbad Henc.
  rewrite validate_prolog_syntax_spec in Hbad. injection Hbad as Hbad.
  destruct (attempt_loop_failed_prefix pre (attempt :: attempts') w Hlast Hf)
    as (wk & E & C & K & R & V & Hnil).
  rewrite E.
  rewrite (attempt_loop_completed encodes service page_num text _ _ _ payload)
    by (rewrite C, length_app, repeat_length; exact Hok).
  rewrite Hbad, Henc. eexists. split; [reflexivity|].
  unfold pages_validated in *.
  unfold save_state, write_raw, log_invalid_output, print, record_call.
  cbn [state_file knowledge raw calls slept stdout].
  rewrite omap_app, V, R, K, C, <- app_assoc, last_snoc.
  cbn [repeat]. rewrite repeat_cons.
  do 6 (split; [reflexivity|]).
  intros Hp. now rewrite (Hnil Hp).
Qed.

End ServiceErrors.

(** C6, amended: a page whose generated payload fails validation and can
    be held by the encoding of the files, on whichever attempt it was
    generated, gets its raw payload written to the debug file of the
    page, leaves the knowledge base as it is, has its number recorded as
    progress, and is not tried again: no call is made for it after the
    one that gave the payload, and the loop goes on with the next page. *)
Theorem C6_rejected_payload_saved_not_retried
  (pages : list str) (encodes : char -> bool) (service : nat -> str -> Z -> response)
  (total_pages page_num : Z) (page_nums' : list Z) (text payload : str) (w : world)
  (k : nat) :
  py_index pages page_num = Ok text ->
  50 <= Z.of_nat (length text) ->
  (k < Z.to_nat max_retries)%nat ->
  (forall j, (j < k)%nat ->
     failed (service (length (calls w) + j)%nat text (page_num + 1)) = true) ->
  service (length (calls w) + k)%nat text (page_num + 1) = Completed payload ->
  validate_prolog_syntax payload = Ok false ->
  encodable encodes payload = true ->
  exists w',
    page_loop pages encodes service total_pages (page_num :: page_nums') w
    = page_loop pages encodes service total_pages page_nums' (sleep BaseDelay w')
    /\ raw w' = <[page_num + 1 := payload]> (raw w)
    /\ knowledge w' = knowledge w
    /\ state_file w' = Some (page_num + 1)
    /\ calls w' = calls w ++ repeat (page_num + 1) (S k)
    /\ pages_validated w' = pages_validated w ++ [page_num + 1]
    /\ last (stdout w') = Some (LogInvalid (page_num + 1))
    /\ (k = 0%nat ->
        slept w' = slept w
        /\ stdout w' = stdout w ++ [LogPage (page_num + 1) total_pages;
                                    LogInvalid (page_num + 1)]).
Proof.
  intros Hidx Hlen Hk Hf Hok Hbad Henc.
  rewrite (page_loop_cons _ _ _ _ _ _ _ text) by assumption.
  rewrite range_attempts.
  set (w0 := print (LogPage (page_num + 1) total_pages) w).
  assert (Hsplit : exists pre attempt attempts',
            [0; 1; 2] = pre ++ attempt :: attempts'
            /\ length pre = k /\ ~ In (max_retries - 1) pre).
  { change (Z.to_nat max_retries) with 3%nat in Hk.
    destruct k as [|[|[|k]]]; [| | |lia].
    - exists [], 0, [1; 2]. repeat split. intros [].
    - exists [0], 1, [2]. repeat split. intros [H|[]]. discriminate H.
    - exists [0; 1], 2, []. repeat split. intros [H|[H|[]]]; discriminate H. }
  destruct Hsplit as (pre & attempt & attempts' & -> & Hpre & Hlast).
  destruct (attempt_loop_rejected_after encodes service page_num text
              pre attempt attempts' w0 payload)
    as (w' & E & R & K & S & C & V & L & Hnil); try assumption.
  - intros j Hj. apply Hf. lia.
  - rewrite Hpre. exact Hok.
  - rewrite E. exists w'. rewrite R, K, S, C, V, L, Hpre.
    assert (Hv0 : pages_validated w0 = pages_validated w).
    { unfold pages_validated, w0, print. cbn [stdout].
      rewrite omap_app. apply app_nil_r. }
    rewrite Hv0. repeat split; try reflexivity.
    + apply Hnil. destruct pre; [reflexivity | subst k; discriminate].
    + destruct Hnil as [_ Hs]; [destruct pre; [reflexivity | subst k; discriminate]|].
      rewrite Hs. unfold w0, print. cbn [stdout]. now rewrite <- app_assoc.
Qed.

Lemma C6_rejected_payload_saved_not_retried_witness :
  exists w',
    page_loop [repeat (ord "a") 50] utf8
      (fun n _ _ => match n with
                    | 0%nat => RateLimited
                    | _ => Completed (lit "concept(a, 1")
                    end)
      1 [0] world0
    = (Ok (), sleep BaseDelay w')
    /\ raw w' !! 1 = Some (lit "concept(a, 1")
    /\ knowledge w' = None
    /\ state_file w' = Some 1
    /\ calls w' = [1; 1].
Proof.
  destruct (C6_rejected_payload_saved_not_retried
              [repeat (ord "a") 50] utf8
              (fun n _ _ => match n with
                            | 0%nat => RateLimited
                            | _ => Completed (lit "concept(a, 1")
                            end)
              1 0 [] (repeat (ord "a") 50) (lit "concept(a, 1") world0 1%nat)
    as (w' & Hloop & Hraw & Hk & Hs & Hc & _).
  - reflexivity.
  - vm_compute. discriminate.
  - vm_compute. lia.
  - intros [|j] Hj; [reflexivity | lia].
  - reflexivity.
  - vm_compute. reflexivity.
  - reflexivity.
  - exists w'. rewrite Hraw.
    repeat split; try assumption; try apply lookup_insert_eq.
Defined.

(** C6 as stated fails: a rejected payload with a character the encoding
    of the files does not hold (here a lone surrogate, in UTF-8) is not
    written: the raw response file of the page is left empty, the
    exception of the write leaves the loop, and the page is not recorded
    as progress. *)
Lemma C6_unwritten_payload_counterexample :
  validate_prolog_syntax (lit "concept(a, 1" ++ [55296%N]) = Ok false
  /\ page_loop [repeat (ord "a") 50] utf8
       (fun _ _ _ => Completed (lit "concept(a, 1" ++ [55296%N]))
       1 [0] world0
     = (Raise UnicodeEncodeError,
        World None None (<[1 := []]> ∅) [LogPage 1 1; LogInvalid 1] [] [1]).
Proof. split; vm_compute; reflexivity. Qed.

(** C3: a service error on an attempt that is not the last one is
    logged, puts the progress state back to the page before, and leaves
    the page to the next attempt.  A service error on the last attempt,
    which is reached when the two attempts before it failed, leaves the
    progress state at the page before and raises: the page loop ends with
    the exception and processes no page after this one, and so does
    [process_pdf] when started at this page. *)
Theorem C3_service_error_on_final_attempt
  (pages : list str) (encodes : char -> bool) (service : nat -> str -> Z -> response)
  (total_pages page_num : Z) (page_nums' : list Z) (text : str) (w : world) :
  py_index pages page_num = Ok text ->
  50 <= Z.of_nat (length text) ->
  (forall attempt attempts' w1,
     attempt <> max_retries - 1 ->
     service (length (calls w1)) text (page_num + 1) = ServiceError ->
     attempt_loop encodes service page_num text (attempt :: attempts') w1
     = attempt_loop encodes service page_num text attempts'
         (save_state (page_num + 1 - 1)
            (log_error (page_num + 1) (record_call (page_num + 1) w1))))
  /\ (failed (service (length (calls w)) text (page_num + 1)) = true ->
      failed (service (length (calls w) + 1)%nat text (page_num + 1)) = true ->
      service (length (calls w) + 2)%nat text (page_num + 1) = ServiceError ->
      (exists w',
         page_loop pages encodes service total_pages (page_num :: page_nums') w
         = (Raise APIError, w')
         /\ state_file w' = Some (page_num + 1 - 1)
         /\ pages_processed w' = pages_processed w ++ [page_num + 1]
         /\ calls w' = calls w ++ [page_num + 1; page_num + 1; page_num + 1]
         /\ knowledge w' = knowledge w)
      /\ (0 <= page_num ->
          exists w',
            process_pdf pages encodes service (Some (page_num + 1)) None w
            = (Raise APIError, w')
            /\ state_file w' = Some (page_num + 1 - 1)
            /\ pages_processed w' = pages_processed w ++ [page_num + 1]
            /\ calls w' = calls w ++ [page_num + 1; page_num + 1; page_num + 1])).
Proof.
  intros Hidx Hlen. split.
  - intros attempt attempts' w1 Hne Herr.
    rewrite attempt_loop_service_error by exact Herr.
    apply Z.eqb_neq in Hne. now rewrite Hne.
  - intros Hf0 Hf1 Herr.
    assert (Hloop : forall total rest w0,
      calls w0 = calls w ->
      exists w',
        page_loop pages encodes service total (page_num :: rest) w0 = (Raise APIError, w')
        /\ state_file w' = Some (page_num + 1 - 1)
        /\ pages_processed w' = pages_processed w0 ++ [page_num + 1]
        /\ calls w' = calls w0 ++ [page_num + 1; page_num + 1; page_num + 1]
        /\ knowledge w' = knowledge w0).
    { intros total rest w0 Hw0.
      rewrite (page_loop_cons _ _ _ _ _ _ _ text) by assumption.
      rewrite range_attempts.
      set (wp := print (LogPage (page_num + 1) total) w0).
      destruct (attempt_loop_failed encodes service page_num text 0 [1; 2] wp)
        as (w1 & E1 & C1 & K1 & _ & P1);
        [discriminate | unfold wp; cbn [print calls]; now rewrite Hw0 |].
      destruct (attempt_loop_failed encodes service page_num text 1 [2] w1)
        as (w2 & E2 & C2 & K2 & _ & P2);
        [discriminate
        | rewrite C1; unfold wp; cbn [print calls];
          rewrite length_app, Hw0; exact Hf1 |].
      rewrite E1, E2, attempt_loop_service_error
        by (rewrite C2, C1; unfold wp; cbn [print calls];
            rewrite !length_app, Hw0, <- Nat.add_assoc; exact Herr).
      change (2 =? max_retries - 1) with true. cbv iota.
      eexists. split; [reflexivity|].
      destruct (service_error_fields (page_num + 1) w2) as (S3 & P3 & C3 & K3).
      rewrite S3, P3, C3, K3, P2, P1, K2, K1, C2, C1.
      unfold wp. rewrite pages_processed_page. cbn [print calls knowledge].
      rewrite <- !app_assoc. repeat split. }
    split; [apply Hloop; reflexivity|].
    intros Hpos. unfold process_pdf.
    assert (Hlt : page_num < Z.of_nat (length pages)).
    { unfold py_index in Hidx.
      destruct (Z.ltb_spec page_num 0); [lia|].
      destruct (Z.ltb_spec page_num 0); [lia|]. cbn [orb] in Hidx.
      destruct (Z.leb_spec (Z.of_nat (length pages)) page_num); [discriminate | lia]. }
    rewrite Z.add_simpl_r, range_cons by assumption.
    destruct (Hloop (Z.of_nat (length pages))
                (range (page_num + 1) (Z.of_nat (length pages)))
                (init_knowledge_base
                   (print (LogRange (page_num + 1) (Z.of_nat (length pages))
                             (Z.of_nat (length pages))) w)))
      as (w' & E & Hs & Hp & Hc & _).
    { unfold init_knowledge_base, print. cbn [knowledge].
      now destruct (knowledge w). }
    rewrite E. exists w'. rewrite Z.add_simpl_r in Hs.
    split; [reflexivity|]. split; [exact Hs|].
    rewrite Hp, Hc. split.
    + f_equal. unfold init_knowledge_base, print. cbn [knowledge].
      destruct (knowledge w); unfold pages_processed; cbn [stdout];
        rewrite omap_app; apply app_nil_r.
    + f_equal. unfold init_knowledge_base, print. cbn [knowledge].
      now destruct (knowledge w).
Qed.

Lemma C3_service_error_on_final_attempt_witness :
  exists w',
    process_pdf [repeat (ord "a") 50; repeat (ord "b") 50]
      utf8 (fun n _ _ => match n with 0%nat => RateLimited | _ => ServiceError end)
      (Some 1) None world0
    = (Raise APIError, w')
    /\ state_file w' = Some 0
    /\ pages_processed w' = [1].
Proof.
  destruct (C3_service_error_on_final_attempt
              [repeat (ord "a") 50; repeat (ord "b") 50]
              utf8 (fun n _ _ => match n with 0%nat => RateLimited | _ => ServiceError end)
              2 0 [1] (repeat (ord "a") 50) world0) as [_ H].
  - reflexivity.
  - vm_compute. discriminate.
  - destruct H as [_ H]; [reflexivity | reflexivity | reflexivity |].
    destruct H as (w' & E & Hs & Hp & _); [lia|].
    exists w'. auto.
Defined.

(** ** Where a run starts *)

Section Resume.

Variable pages : list str.
Variable encodes : char -> bool.
Variable service : nat -> str -> Z -> response.

Lemma extends_refl w : extends w w.
Proof. exists []. now rewrite app_nil_r. Qed.

Lemma extends_trans a b c : extends a b -> extends b c -> extends a c.
Proof.
  intros [l1 H1] [l2 H2]. exists (l1 ++ l2). now rewrite H2, H1, app_assoc.
Qed.

Lemma extends_print e w : extends w (print e w).
Proof. now exists [e]. Qed.

Lemma extends_same w w' : stdout w' = stdout w -> extends w w'.
Proof. intros H. exists []. now rewrite app_nil_r. Qed.

(** The retry loop only adds lines to the console. *)
Lemma attempt_loop_extends page_num text (attempts : list Z) : forall w,
  extends w (snd (attempt_loop encodes service page_num text attempts w)).
Proof.
  induction attempts as [|a attempts IH]; intros w; [apply extends_refl|].
  cbn [attempt_loop]. unfold call_claude.
  destruct (service (length (calls w)) text (page_num + 1)) as [payload| | |e].
  - destruct (validate_prolog_syntax payload) as [[|]|e].
    + unfold append_to_knowledge_base.
      destruct (encodable encodes _); cbn [snd].
      * now exists [LogOk (page_num + 1)].
      * now apply extends_same.
    + unfold save_raw_response.
      destruct (encodable encodes _); cbn [snd];
        now exists [LogInvalid (page_num + 1)].
    + now apply extends_same.
  - eapply extends_trans; [|apply IH]. now exists [LogRateLimit (2 ^ a)].
  - destruct (a =? max_retries - 1).
    + now exists [LogError (page_num + 1)].
    + eapply extends_trans; [|apply IH]. now exists [LogError (page_num + 1)].
  - now apply extends_same.
Qed.

(** The page loop only adds lines to the console. *)
Lemma page_loop_extends total_pages (page_nums : list Z) : forall w,
  extends w (snd (page_loop pages encodes service total_pages page_nums w)).
Proof.
  induction page_nums as [|pn page_nums IH]; intros w; [apply extends_refl|].
  cbn [page_loop].
  destruct (py_index pages pn) as [text|e]; [|apply extends_print].
  destruct (bool_decide (text = []) || (Z.of_nat (length text) <? 50)).
  - eapply extends_trans; [|apply IH].
    exists [LogPage (pn + 1) total_pages; LogSkip (pn + 1)].
    unfold save_state, log_skip, print. cbn [stdout]. now rewrite <- app_assoc.
  - pose proof (attempt_loop_extends pn text (range 0 max_retries)
                  (print (LogPage (pn + 1) total_pages) w)) as Ha.
    destruct (attempt_loop encodes service pn text (range 0 max_retries) _) as [[[]|e] w1];
      cbn [snd] in *.
    + eapply extends_trans; [apply extends_print|].
      eapply extends_trans; [exact Ha|].
      eapply extends_trans; [|apply IH]. now apply extends_same.
    + eapply extends_trans; [apply extends_print | exact Ha].
Qed.

(** The first thing the page loop does is to start its first page. *)
Lemma page_loop_starts total_pages pn (page_nums' : list Z) w :
  extends (print (LogPage (pn + 1) total_pages) w)
          (snd (page_loop pages encodes service total_pages (pn :: page_nums') w)).
Proof.
  cbn [page_loop].
  destruct (py_index pages pn) as [text|e]; [|apply extends_refl].
  destruct (bool_decide (text = []) || (Z.of_nat (length text) <? 50)).
  - eapply extends_trans; [|apply page_loop_extends]. now exists [LogSkip (pn + 1)].
  - pose proof (attempt_loop_extends pn text (range 0 max_retries)
                  (print (LogPage (pn + 1) total_pages) w)) as Ha.
    destruct (attempt_loop encodes service pn text (range 0 max_retries) _) as [[[]|e] w1];
      cbn [snd] in *; [|exact Ha].
    eapply extends_trans; [exact Ha|].
    eapply extends_trans; [|apply page_loop_extends]. now apply extends_same.
Qed.

Lemma pages_processed_extends w w' p t :
  extends (print (LogPage p t) w) w' ->
  exists l, pages_processed w' = pages_processed w ++ p :: l.
Proof.
  intros [l H]. unfold pages_processed. rewrite H. unfold print. cbn [stdout].
  rewrite !omap_app, <- app_assoc. cbn [omap app]. eauto.
Qed.

End Resume.

(** C1: the run does not resume at the page after the recorded one.
    When [process_pdf] is called without a start page and the progress
    state holds the page number [p], not beyond the last page, the first
    page the run processes is page [p] itself, whatever [p] is: the page
    that [save_state] recorded as done is processed again, and after the
    roll-back to [0] of a service error on page 1 the run begins with a
    page 0. *)
Theorem C1_resumes_at_persisted_page
  (pages : list str) (encodes : char -> bool) (service : nat -> str -> Z -> response)
  (max_pages : option Z) (w : world) (p : Z) :
  state_file w = Some p ->
  p <= Z.of_nat (length pages) ->
  match max_pages with Some m => 0 <= m | None => True end ->
  exists l,
    pages_processed (snd (process_pdf pages encodes service None max_pages w))
    = pages_processed w ++ p :: l.
Proof.
  intros Hst Hp Hm. unfold process_pdf, load_state. rewrite Hst.
  set (end_page := match max_pages with
                   | Some m => if m =? 0 then Z.of_nat (length pages)
                               else Z.min (p + m - 1) (Z.of_nat (length pages))
                   | None => Z.of_nat (length pages)
                   end).
  assert (Hend : p - 1 < end_page).
  { unfold end_page. destruct max_pages as [m|]; [|lia].
    destruct (Z.eqb_spec m 0); lia. }
  rewrite range_cons by exact Hend.
  set (w1 := if 1 <? p then print (LogResuming p) w else w).
  set (w2 := init_knowledge_base (print (LogRange p end_page (Z.of_nat (length pages))) w1)).
  assert (Hw2 : pages_processed w2 = pages_processed w).
  { unfold w2, w1, init_knowledge_base, pages_processed, print. cbn [knowledge].
    destruct (knowledge (if 1 <? p then _ else w)); destruct (1 <? p);
      cbn [stdout]; rewrite ?omap_app; cbn [omap]; now rewrite ?app_nil_r. }
  pose proof (page_loop_starts pages encodes service (Z.of_nat (length pages)) (p - 1)
                (range (p - 1 + 1) end_page) w2) as Hx.
  replace (p - 1 + 1) with p in Hx |- * by lia.
  destruct (page_loop pages encodes service (Z.of_nat (length pages))
              (p - 1 :: range p end_page) w2) as [[[]|e] w3]; cbn [snd] in *.
  - destruct (pages_processed_extends _ _ _ _
                (extends_trans _ _ _ Hx (extends_print LogComplete w3))) as [l Hl].
    exists l. now rewrite Hl, Hw2.
  - destruct (pages_processed_extends _ _ _ _ Hx) as [l Hl].
    exists l. now rewrite Hl, Hw2.
Qed.

(** With the progress state at page 2 of a PDF of three pages, the run
    starts with page 2, not with page 3; the facts of page 2, already in
    the knowledge base, are appended a second time; and with the
    progress state at 0 the run starts with a page 0. *)
Lemma C1_resumes_at_persisted_page_witness :
  (exists l,
     pages_processed
       (snd (process_pdf [[]; repeat (ord "a") 50; []] utf8 (fun _ _ _ => RateLimited)
               None None (World (Some 2) None ∅ [] [] [])))
     = 2 :: l)
  /\ head (pages_processed
             (snd (process_pdf [[]; []; []] utf8 (fun _ _ _ => ServiceError) None None
                     (World (Some 2) None ∅ [] [] []))))
     <> Some (2 + 1)
  /\ knowledge
       (snd (process_pdf [[]; repeat (ord "a") 50; []] utf8
               (fun _ _ _ => Completed (lit "concept(a, 2, b)."))
               None None
               (World (Some 2) (Some (page_marker 2 ++ lit "concept(a, 2, b)." ++ [LF]))
                  ∅ [] [] [])))
     = Some ((page_marker 2 ++ lit "concept(a, 2, b)." ++ [LF])
             ++ (page_marker 2 ++ lit "concept(a, 2, b)." ++ [LF]))
  /\ pages_processed
       (snd (process_pdf [[]; []; []] utf8 (fun _ _ _ => ServiceError) None None
               (World (Some 0) None ∅ [] [] [])))
     = [0; 1; 2; 3].
Proof.
  split; [|split; [|split; [|vm_compute; reflexivity]]].
  - destruct (C1_resumes_at_persisted_page
                [[]; repeat (ord "a") 50; []] utf8 (fun _ _ _ => RateLimited)
                None (World (Some 2) None ∅ [] [] []) 2) as [l Hl].
    + reflexivity.
    + vm_compute. discriminate.
    + exact I.
    + exists l. exact Hl.
  - vm_compute. discriminate.
  - vm_compute. reflexivity.
Defined.

(** * Further properties of the validator *)

Section FactDecision.

Lemma rstrip_app_spaces (a ws : str) :
  forallb is_space ws = true -> rstrip (a ++ ws) = rstrip a.
Proof.
  intros Hws. induction a as [|c a IH]; cbn [app rstrip].
  - now apply rstrip_all_space.
  - now rewrite IH.
Qed.

Lemma lstrip_app_all_space (ws x : str) :
  forallb is_space ws = true -> lstrip (ws ++ x) = lstrip x.
Proof.
  induction ws as [|c ws IH]; [reflexivity|].
  cbn [forallb app lstrip]. intros H. apply andb_prop in H as [Hc Hws].
  rewrite Hc. auto.
Qed.

Lemma strip_padding (ws1 t ws2 : str) :
  forallb is_space ws1 = true -> forallb is_space ws2 = true ->
  strip (ws1 ++ t ++ ws2) = strip t.
Proof.
  intros H1 H2. rewrite strip_lstrip_rstrip, app_assoc, rstrip_app_spaces by assumption.
  rewrite <- strip_lstrip_rstrip. unfold strip. now rewrite lstrip_app_all_space.
Qed.

Lemma existsb_str_eqb (g : str) (l : list str) :
  existsb (str_eqb g) l = true <-> In g l.
Proof.
  rewrite existsb_exists. unfold str_eqb. split.
  - intros [x [Hin Hx]]. apply bool_decide_eq_true in Hx. now subst.
  - intros Hin. exists g. split; [assumption | now apply bool_decide_eq_true].
Qed.

(** A line the pattern matches ends, trailing white space apart, with a
    period. *)
Lemma fact_shape_endswith_dot (l g1 : str) :
  fact_shape l g1 -> endswith DOT (rstrip l) = true.
Proof.
  intros (ws1 & args & ws2 & ws3 & -> & _ & _ & _ & _ & H3).
  repeat rewrite app_assoc. rewrite rstrip_app_spaces by assumption.
  rewrite rstrip_snoc_nonspace by reflexivity. apply endswith_snoc.
Qed.

Lemma fact_shape_not_skipped (l g1 : str) : fact_shape l g1 -> skipped l = false.
Proof.
  intros (ws1 & args & ws2 & ws3 & -> & Hid & _).
  destruct g1 as [|c tl]; [discriminate|]. cbn [is_ident] in Hid.
  apply andb_prop in Hid as [Hc _]. cbn [app skipped startswith].
  apply N.eqb_neq. intros ->. discriminate.
Qed.

(** The group 1 of a matching line is determined by the line. *)
Lemma fact_shape_unique (l g1 g1' : str) :
  fact_shape l g1 -> fact_shape l g1' -> g1 = g1'.
Proof.
  intros H H'. apply FACT_PATTERN_match_shape in H as [g2 H], H' as [g2' H'].
  congruence.
Qed.

(** [validate_fact] in terms of the three checks that decide it. *)
Lemma validate_fact_cases (line : str) :
  validate_fact line =
  if skipped (strip line) then Ok (true, [])
  else if negb (check_balanced_parens (strip line)) then
    Ok (false, lit "Unbalanced parentheses")
  else match FACT_PATTERN_match (strip line) with
       | None =>
           Ok (false, lit "Invalid fact syntax: " ++ firstn 50 (strip line) ++ lit "...")
       | Some (g1, _) =>
           if existsb (str_eqb g1) VALID_PREDICATES then Ok (true, [])
           else Ok (false, lit "Unknown predicate: " ++ g1)
       end.
Proof.
  unfold validate_fact.
  destruct (skipped (strip line)); [reflexivity|].
  destruct (check_balanced_parens (strip line)); [|reflexivity]. cbn [negb].
  destruct (FACT_PATTERN_match (strip line)) as [[g1 g2]|] eqn:Hm; [|reflexivity].
  unfold mbind, result_bind, group1.
  destruct (existsb (str_eqb g1) VALID_PREDICATES); [|reflexivity]. cbn [negb].
  assert (Hdot : endswith DOT (rstrip (strip line)) = true).
  { apply (fact_shape_endswith_dot _ g1), FACT_PATTERN_match_shape. eauto. }
  now rewrite Hdot.
Qed.

End FactDecision.

(** X1: [validate_fact] accepts a line exactly when the line, its
    surrounding white space removed, is blank or a comment, or has
    balanced parentheses and the shape of the pattern with one of the
    four predicate names, in lower case, as its identifier. *)
Theorem X1_validate_fact_accepts_iff (line : str) :
  validate_fact line = Ok (true, []) <->
  skipped (strip line) = true
  \/ (check_balanced_parens (strip line) = true
      /\ exists g1, In g1 VALID_PREDICATES /\ fact_shape (strip line) g1).
Proof.
  rewrite validate_fact_cases. split.
  - destruct (skipped (strip line)); [auto|]. intros H. right.
    destruct (check_balanced_parens (strip line)); [|discriminate]. cbn [negb] in H.
    destruct (FACT_PATTERN_match (strip line)) as [[g1 g2]|] eqn:Hm; [|discriminate].
    destruct (existsb (str_eqb g1) VALID_PREDICATES) eqn:Hp; [|discriminate].
    split; [reflexivity|]. exists g1. split.
    + now apply existsb_str_eqb.
    + apply FACT_PATTERN_match_shape. eauto.
  - intros [Hs | [Hb [g1 [Hin Hshape]]]].
    + now rewrite Hs.
    + rewrite (fact_shape_not_skipped _ _ Hshape), Hb. cbn [negb].
      apply FACT_PATTERN_match_shape in Hshape as [g2 Hm]. rewrite Hm.
      apply existsb_str_eqb in Hin. now rewrite Hin.
Qed.

Lemma X1_validate_fact_accepts_iff_witness :
  validate_fact (lit "  relates (a, b, requires) .  ") = Ok (true, []).
Proof.
  apply X1_validate_fact_accepts_iff. right. split; [reflexivity|].
  exists (lit "relates"). split; [vm_compute; auto|].
  exists (lit " "), (lit "a, b, requires"), (lit " "), [].
  vm_compute. repeat split; reflexivity.
Defined.

(** X2: the diagnostic of the terminator check is never given: a line
    that reaches that check has matched the pattern and so ends with a
    period.  A rejected line gets one of the three other diagnostics. *)
Theorem X2_terminator_diagnostic_never_given (line : str) (v : bool) (msg : str) :
  validate_fact line = Ok (v, msg) ->
  msg <> lit "Fact must end with period"
  /\ (v = false ->
      msg = lit "Unbalanced parentheses"
      \/ msg = lit "Invalid fact syntax: " ++ firstn 50 (strip line) ++ lit "..."
      \/ exists g1, msg = lit "Unknown predicate: " ++ g1).
Proof.
  rewrite validate_fact_cases.
  destruct (skipped (strip line)); [intros [= <- <-]; split; discriminate|].
  destruct (check_balanced_parens (strip line)); cbn [negb];
    [|intros [= <- <-]; split; [intros H; vm_compute in H; discriminate | auto]].
  destruct (FACT_PATTERN_match (strip line)) as [[g1 g2]|].
  - destruct (existsb (str_eqb g1) VALID_PREDICATES); intros [= <- <-].
    + split; discriminate.
    + split; [|eauto]. intros H. apply (f_equal (hd 0%N)) in H. discriminate.
  - intros [= <- <-]. split; [|auto].
    intros H. apply (f_equal (hd 0%N)) in H. discriminate.
Qed.

Lemma X2_terminator_diagnostic_never_given_witness :
  lit "Invalid fact syntax: concept(a, 1)..." <> lit "Fact must end with period".
Proof.
  apply (X2_terminator_diagnostic_never_given (lit "concept(a, 1)") false).
  vm_compute. reflexivity.
Defined.

(** X3: a line of the shape of the pattern whose identifier is not one of
    the four predicate names as they are written, in lower case, is
    rejected; when its parentheses are balanced the diagnostic names the
    identifier.  The pattern ignores case, the predicate check does
    not. *)
Theorem X3_unknown_predicate_rejected (line g1 : str) :
  fact_shape (strip line) g1 ->
  ~ In g1 VALID_PREDICATES ->
  (exists msg, validate_fact line = Ok (false, msg))
  /\ (check_balanced_parens (strip line) = true ->
      validate_fact line = Ok (false, lit "Unknown predicate: " ++ g1)).
Proof.
  intros Hshape Hnot. rewrite validate_fact_cases.
  rewrite (fact_shape_not_skipped _ _ Hshape).
  apply FACT_PATTERN_match_shape in Hshape as [g2 Hm]. rewrite Hm.
  assert (Hp : existsb (str_eqb g1) VALID_PREDICATES = false).
  { apply not_true_is_false. intros H. now apply existsb_str_eqb in H. }
  rewrite Hp. split.
  - destruct (check_balanced_parens (strip line)); cbn [negb]; eauto.
  - intros ->. reflexivity.
Qed.

Lemma X3_unknown_predicate_rejected_witness :
  validate_fact (lit "Concept(a, 1).") = Ok (false, lit "Unknown predicate: Concept").
Proof.
  apply (X3_unknown_predicate_rejected (lit "Concept(a, 1).") (lit "Concept")).
  - exists [], (lit "a, 1"), [], []. vm_compute. repeat split; reflexivity.
  - vm_compute. intros [H | [H | [H | [H | []]]]]; discriminate.
  - reflexivity.
Defined.

(** X4: a line that is neither blank nor a comment and does not end with
    a period is rejected, and so is every payload that holds it. *)
Theorem X4_missing_period_rejected (text line : str) :
  In line (split_lines text) ->
  skipped (strip line) = false ->
  endswith DOT (strip line) = false ->
  (exists msg, validate_fact line = Ok (false, msg))
  /\ validate_prolog_syntax text = Ok false.
Proof.
  intros Hin Hskip Hdot.
  assert (Hv : exists msg, validate_fact line = Ok (false, msg)).
  { rewrite validate_fact_cases, Hskip.
    destruct (check_balanced_parens (strip line)); cbn [negb]; [|eauto].
    destruct (FACT_PATTERN_match (strip line)) as [[g1 g2]|] eqn:Hm; [|eauto].
    assert (Hd : endswith DOT (rstrip (strip line)) = true).
    { apply (fact_shape_endswith_dot _ g1), FACT_PATTERN_match_shape. eauto. }
    unfold strip in Hd at 1. rewrite rstrip_idem in Hd. fold (strip line) in Hd.
    congruence. }
  split; [exact Hv|].
  rewrite validate_prolog_syntax_spec. f_equal.
  apply forallb_false_exists. exists line. split; [assumption|].
  destruct Hv as [msg Hm]. unfold fact_verdict. now rewrite Hm.
Qed.

Lemma X4_missing_period_rejected_witness :
  validate_prolog_syntax
    (lit "% page 2" ++ [LF] ++ lit "concept(test, 1, missing_period)") = Ok false.
Proof.
  refine (proj2 (X4_missing_period_rejected _
                   (lit "concept(test, 1, missing_period)") _ _ _)).
  - vm_compute. auto.
  - reflexivity.
  - reflexivity.
Defined.

Section PayloadComposition.

(** Cutting at the newlines distributes over a join with a newline. *)
Lemma split_lines_join (a b : str) :
  split_lines (a ++ LF :: b) = split_lines a ++ split_lines b.
Proof.
  induction a as [|c a IH]; [reflexivity|].
  cbn [app split_lines]. rewrite IH.
  destruct (c =? LF)%N; [reflexivity|].
  destruct (split_lines a) as [|l ls] eqn:E; [now apply split_lines_nonempty in E|].
  reflexivity.
Qed.

Lemma validate_join (a b : str) :
  validate_prolog_syntax (a ++ LF :: b)
  = Ok (forallb fact_verdict (split_lines a) && forallb fact_verdict (split_lines b)).
Proof.
  now rewrite validate_prolog_syntax_spec, split_lines_join, forallb_app.
Qed.

End PayloadComposition.

(** X5: validation is line by line: two payloads joined by a newline are
    valid together exactly when each of them is valid. *)
Theorem X5_validation_of_joined_payloads (a b : str) :
  validate_prolog_syntax (a ++ [LF] ++ b) = Ok true <->
  validate_prolog_syntax a = Ok true /\ validate_prolog_syntax b = Ok true.
Proof.
  cbn [app]. rewrite validate_join, !validate_prolog_syntax_spec.
  split.
  - intros [= H]. apply andb_prop in H as [-> ->]. auto.
  - intros [[= ->] [= ->]]. reflexivity.
Qed.

Lemma X5_validation_of_joined_payloads_witness :
  validate_prolog_syntax (lit "concept(a, 1, b).") = Ok true
  /\ validate_prolog_syntax (lit "relates(a, b, extends).") = Ok true.
Proof.
  apply X5_validation_of_joined_payloads. vm_compute. reflexivity.
Defined.

(** X6: white space around a payload, newlines included, does not change
    what the validator answers, and white space around a line does not
    change what [validate_fact] answers. *)
Theorem X6_padding_does_not_matter (ws1 text ws2 : str) :
  forallb is_space ws1 = true ->
  forallb is_space ws2 = true ->
  validate_prolog_syntax (ws1 ++ text ++ ws2) = validate_prolog_syntax text
  /\ validate_fact (ws1 ++ text ++ ws2) = validate_fact text.
Proof.
  intros H1 H2. split.
  - unfold validate_prolog_syntax. now rewrite strip_padding.
  - unfold validate_fact. now rewrite strip_padding.
Qed.

Lemma X6_padding_does_not_matter_witness :
  validate_prolog_syntax ([LF; 32%N] ++ lit "formula(a, 1, b)." ++ [32%N; LF; LF])
  = validate_prolog_syntax (lit "formula(a, 1, b).").
Proof.
  apply X6_padding_does_not_matter; reflexivity.
Defined.

(** ** The file-level validator *)

Section FileValidator.

Lemma prefix_of_directive_no_match (l : str) :
  prefix_of DIRECTIVE l = true -> FACT_PATTERN_match l = None.
Proof.
  destruct l as [|c l]; [discriminate|]. cbn [DIRECTIVE prefix_of].
  change (lit ":-") with [58%N; 45%N]. cbn [prefix_of].
  intros H. apply andb_prop in H as [Hc _]. apply N.eqb_eq in Hc. subst c.
  reflexivity.
Qed.

Lemma prefix_of_directive_not_skipped (l : str) :
  prefix_of DIRECTIVE l = true -> skipped l = false.
Proof.
  destruct l as [|c l]; [discriminate|]. change DIRECTIVE with [58%N; 45%N].
  cbn [prefix_of]. intros H. apply andb_prop in H as [Hc _].
  apply N.eqb_eq in Hc. subst c. reflexivity.
Qed.

Lemma file_line_ok_rstrip (l l' : str) :
  rstrip l = rstrip l' -> file_line_ok l = file_line_ok l'.
Proof.
  intros H. unfold file_line_ok.
  rewrite (fact_verdict_rstrip l l' H), !strip_lstrip_rstrip, H. reflexivity.
Qed.

Lemma file_line_ok_blank : file_line_ok [] = true.
Proof. reflexivity. Qed.

Lemma file_lines_nil (s : str) : file_lines s = [] -> s = [].
Proof.
  destruct s as [|c s]; [reflexivity|]. cbn [file_lines].
  destruct (c =? LF)%N; [discriminate|]. destruct (file_lines s); discriminate.
Qed.

(** The lines of the file iteration and the lines cut at the newlines
    differ by the newlines kept and by a last empty line only. *)
Lemma file_lines_split_lines (Q : str -> bool) :
  (forall l l', rstrip l = rstrip l' -> Q l = Q l') ->
  Q [] = true ->
  forall s, forallb Q (file_lines s) = forallb Q (split_lines s).
Proof.
  intros HQ Hnil.
  assert (Hcons : forall s, s <> [] ->
    exists l ls l' ls',
      file_lines s = l :: ls /\ split_lines s = l' :: ls'
      /\ rstrip l = rstrip l' /\ forallb Q ls = forallb Q ls').
  { induction s as [|c s IH]; [congruence|]. intros _.
    cbn [file_lines split_lines]. destruct (c =? LF)%N eqn:Ec.
    - apply N.eqb_eq in Ec. subst c.
      exists [LF], (file_lines s), [], (split_lines s). repeat split.
      destruct s as [|d s]; [cbn; now rewrite Hnil|].
      destruct IH as (l & ls & l' & ls' & E1 & E2 & Hr & Ht); [discriminate|].
      rewrite E1, E2. cbn [forallb]. now rewrite Ht, (HQ l l' Hr).
    - destruct s as [|d s]; [exists [c], [], [c], []; auto|].
      destruct IH as (l & ls & l' & ls' & E1 & E2 & Hr & Ht); [discriminate|].
      rewrite E1, E2. exists (c :: l), ls, (c :: l'), ls'. repeat split; [|assumption].
      cbn [rstrip]. now rewrite Hr. }
  intros s. destruct s as [|c s]; [cbn; now rewrite Hnil|].
  destruct (Hcons (c :: s)) as (l & ls & l' & ls' & E1 & E2 & Hr & Ht); [discriminate|].
  rewrite E1, E2. cbn [forallb]. now rewrite Ht, (HQ l l' Hr).
Qed.

(** What the loop over the lines of the file returns: the errors so far,
    and one more for each line that is not in order. *)
Lemma validate_file_loop_spec (lines : list str) : forall line_num errors,
  exists more,
    validate_file_loop lines line_num errors = Ok (errors ++ more)
    /\ length more = length (List.filter (fun l => negb (file_line_ok l)) lines)
    /\ (more = [] <-> forallb file_line_ok lines = true).
Proof.
  induction lines as [|l lines IH]; intros n errors.
  - exists []. rewrite app_nil_r. repeat split; reflexivity.
  - cbn [validate_file_loop forallb List.filter].
    destruct (skipped (strip l) || prefix_of DIRECTIVE (strip l)) eqn:Hs.
    + assert (Hok : file_line_ok l = true) by (unfold file_line_ok; now rewrite Hs).
      rewrite Hok. cbn [negb andb]. exact (IH (n + 1) errors).
    + rewrite validate_fact_strip.
      destruct (validate_fact_total l) as [msg [Hv _]]. rewrite Hv.
      unfold mbind, result_bind.
      assert (Hok : file_line_ok l = fact_verdict l)
        by (unfold file_line_ok; now rewrite Hs).
      rewrite Hok. destruct (fact_verdict l); cbn [negb andb].
      * exact (IH (n + 1) errors).
      * destruct (IH (n + 1) (errors ++ [lit "Line " ++ str_of_int n ++ lit ": " ++ msg]))
          as (more & E & L & _).
        exists ((lit "Line " ++ str_of_int n ++ lit ": " ++ msg) :: more).
        rewrite E, <- app_assoc. cbn [app length]. rewrite L.
        repeat split; discriminate.
Qed.

Lemma validate_file_verdict (content : str) :
  exists errors,
    validate_file content
    = Ok (forallb file_line_ok (split_lines content), errors).
Proof.
  unfold validate_file.
  destruct (validate_file_loop_spec (file_lines content) 1 []) as (more & E & _ & Hiff).
  rewrite E. cbn [app]. unfold mbind, result_bind. exists more.
  rewrite (file_lines_split_lines file_line_ok file_line_ok_rstrip file_line_ok_blank)
    in Hiff.
  f_equal. f_equal. destruct more.
  - symmetry. now apply Hiff.
  - symmetry. apply not_true_is_false. intros H. apply Hiff in H. discriminate.
Qed.

Lemma file_line_ok_no_directive (ls : list str) :
  (forall line, In line ls -> prefix_of DIRECTIVE (strip line) = false) ->
  forallb file_line_ok ls = forallb fact_verdict ls.
Proof.
  induction ls as [|l ls IH]; [reflexivity|]. intros Hno.
  cbn [forallb]. rewrite IH by (intros x Hx; apply Hno; now right).
  f_equal. unfold file_line_ok. rewrite (Hno l) by now left.
  destruct (skipped (strip l)) eqn:Hs; [|reflexivity].
  now rewrite fact_verdict_skipped.
Qed.

End FileValidator.

(** X7: [validate_file] raises nothing on the text of a file and answers
    [True] exactly when every line, as cut at the newlines, is blank, a
    comment, a directive, or accepted by [validate_fact]; it gives one
    error for each other line. *)
Theorem X7_validate_file_line_by_line (content : str) :
  exists errors,
    validate_file content
    = Ok (forallb file_line_ok (split_lines content), errors)
    /\ length errors
       = length (List.filter (fun l => negb (file_line_ok l)) (file_lines content))
    /\ (errors = [] <-> forallb file_line_ok (split_lines content) = true).
Proof.
  unfold validate_file.
  destruct (validate_file_loop_spec (file_lines content) 1 []) as (more & E & L & Hiff).
  rewrite E. cbn [app]. unfold mbind, result_bind. exists more.
  rewrite (file_lines_split_lines file_line_ok file_line_ok_rstrip file_line_ok_blank)
    in Hiff.
  split; [|split; assumption].
  f_equal. f_equal. destruct more.
  - symmetry. now apply Hiff.
  - symmetry. apply not_true_is_false. intros H. apply Hiff in H. discriminate.
Qed.

Lemma X7_validate_file_line_by_line_witness :
  exists errors,
    validate_file (lit ":- dynamic concept/3." ++ [LF] ++ lit "concept(a, 1, b)." ++ [LF])
    = Ok (true, errors)
    /\ errors = [].
Proof.
  destruct (X7_validate_file_line_by_line
              (lit ":- dynamic concept/3." ++ [LF] ++ lit "concept(a, 1, b)." ++ [LF]))
    as (errors & E & _ & Hiff).
  exists errors. split; [exact E|]. apply Hiff. reflexivity.
Defined.

(** X8: the two validators differ on directives only.  On a text without
    a directive line [validate_file] and [validate_prolog_syntax] give the
    same answer; a payload with a directive line is rejected by
    [validate_prolog_syntax], whatever its other lines are. *)
Theorem X8_file_and_payload_validators (text : str) :
  ((forall line, In line (split_lines text) ->
      prefix_of DIRECTIVE (strip line) = false) ->
   exists errors,
     validate_file text = Ok (forallb fact_verdict (split_lines text), errors)
     /\ validate_prolog_syntax text = Ok (forallb fact_verdict (split_lines text)))
  /\ ((exists line, In line (split_lines text)
                    /\ prefix_of DIRECTIVE (strip line) = true) ->
      validate_prolog_syntax text = Ok false).
Proof.
  split.
  - intros Hno. destruct (validate_file_verdict text) as (errors & E).
    exists errors. rewrite validate_prolog_syntax_spec. split; [|reflexivity].
    rewrite E. now rewrite file_line_ok_no_directive.
  - intros (line & Hin & Hd). rewrite validate_prolog_syntax_spec. f_equal.
    apply forallb_false_exists. exists line. split; [assumption|].
    unfold fact_verdict. rewrite validate_fact_cases.
    rewrite (prefix_of_directive_not_skipped _ Hd), (prefix_of_directive_no_match _ Hd).
    now destruct (check_balanced_parens (strip line)).
Qed.

Lemma X8_file_and_payload_validators_witness :
  validate_prolog_syntax (lit ":- dynamic concept/3." ++ [LF] ++ lit "concept(a, 1, b).")
  = Ok false.
Proof.
  apply X8_file_and_payload_validators.
  exists (lit ":- dynamic concept/3."). split; [vm_compute; auto | reflexivity].
Defined.

(** ** The string parser *)

Section StringParser.

Lemma escape_body_parse (s : str) : forall rest i res,
  startswith DQUOTE rest = false ->
  parse_loop (escape_body s ++ DQUOTE :: rest) i res
  = Ok (res ++ s, (i + length (escape_body s) + 1)%nat).
Proof.
  induction s as [|c s IH]; intros rest i res Hrest.
  - cbn [escape_body app parse_loop length]. rewrite N.eqb_refl.
    rewrite app_nil_r, Nat.add_0_r.
    destruct rest as [|d rest]; [reflexivity|].
    cbn [startswith] in Hrest. now rewrite Hrest.
  - cbn [escape_body]. destruct (c =? DQUOTE)%N eqn:Eq.
    + apply N.eqb_eq in Eq. subst c. cbn [app parse_loop]. rewrite N.eqb_refl.
      rewrite IH by assumption. rewrite <- app_assoc. cbn [app length].
      f_equal. f_equal. lia.
    + destruct (c =? BACKSLASH)%N eqn:Eb.
      * apply N.eqb_eq in Eb. subst c. cbn [app parse_loop].
        change (BACKSLASH =? DQUOTE)%N with false. rewrite N.eqb_refl. cbv iota.
        rewrite IH by assumption. rewrite <- app_assoc. cbn [app length].
        f_equal. f_equal. lia.
      * cbn [app parse_loop]. rewrite Eq.
        destruct (escape_body s ++ DQUOTE :: rest) as [|d t] eqn:E.
        { destruct (escape_body s); discriminate. }
        rewrite Eb, <- E, IH by assumption. rewrite <- app_assoc. cbn [app length].
        f_equal. f_equal. lia.
Qed.

(** What a successful run of the loop says of the text it ran over: it
    stopped on a quote that no quote follows, [k] characters further; it
    collected at most [k] characters; and the scanner of the parenthesis
    check, entering the same [k + 1] characters inside a string, leaves
    them outside of it with its counter as it was. *)
Lemma parse_loop_ok (m : nat) : forall (rest : str) i res res' j,
  (length rest <= m)%nat ->
  parse_loop rest i res = Ok (res', j) ->
  exists k,
    j = (i + k + 1)%nat
    /\ (k < length rest)%nat
    /\ nth_error rest k = Some DQUOTE
    /\ nth_error rest (S k) <> Some DQUOTE
    /\ (exists t, res' = res ++ t /\ (length t <= k)%nat)
    /\ forall n, scan_parens (firstn (S k) rest) (Scanner n true false)
                 = Some (Scanner n false false).
Proof.
  induction m as [|m IH]; intros rest i res res' j Hlen H.
  - destruct rest; [discriminate | cbn [length] in Hlen; lia].
  - destruct rest as [|c r]; [discriminate|].
    cbn [length] in Hlen. cbn [parse_loop] in H.
    destruct (c =? DQUOTE)%N eqn:Ec.
    + apply N.eqb_eq in Ec. subst c.
      destruct r as [|d r'].
      * injection H as <- <-. exists 0%nat. cbn [length nth_error firstn].
        repeat split; try lia; try discriminate.
        exists []. now rewrite app_nil_r.
      * destruct (d =? DQUOTE)%N eqn:Ed.
        -- apply N.eqb_eq in Ed. subst d. cbn [length] in Hlen.
           apply IH in H as (k & -> & Hk & Hn & Hn' & (t & -> & Ht) & Hscan); [|lia].
           exists (S (S k)). cbn [length nth_error].
           repeat split; try lia; try assumption.
           exists (DQUOTE :: t). rewrite <- app_assoc. cbn [app length].
           split; [reflexivity | lia].
        -- injection H as <- <-. exists 0%nat. cbn [length nth_error firstn].
           repeat split; try lia.
           ++ intros [= E]. subst d. now rewrite N.eqb_refl in Ed.
           ++ exists []. now rewrite app_nil_r.
    + destruct r as [|d r']; [discriminate|].
      destruct (c =? BACKSLASH)%N eqn:Eb.
      * cbn [length] in Hlen.
        apply IH in H as (k & -> & Hk & Hn & Hn' & (t & -> & Ht) & Hscan); [|lia].
        exists (S (S k)). cbn [length nth_error].
        repeat split; try lia; try assumption.
        -- exists (d :: t). rewrite <- app_assoc. cbn [app length].
           split; [reflexivity | lia].
        -- intros n. cbn [firstn scan_parens escape_next in_string count].
           rewrite Eb. apply Hscan.
      * apply IH in H as (k & -> & Hk & Hn & Hn' & (t & -> & Ht) & Hscan); [|lia].
        exists (S k). cbn [length nth_error] in *.
        repeat split; try lia; try assumption.
        -- exists (c :: t). rewrite <- app_assoc. cbn [app length].
           split; [reflexivity | lia].
        -- intros n. cbn [firstn scan_parens escape_next in_string count].
           rewrite Eb, Ec. cbn [andb]. apply Hscan.
Qed.

End StringParser.

(** X9: the parser undoes the escaping of a literal: on a quote, the text
    [s] with each quote doubled and each backslash escaped, a closing
    quote, and any text that does not begin with a quote, it returns [s]
    and the position after the closing quote. *)
Theorem X9_parse_decodes_escaped_body (s rest : str) :
  startswith DQUOTE rest = false ->
  parse_prolog_string ([DQUOTE] ++ escape_body s ++ [DQUOTE] ++ rest)
  = Ok (s, (length (escape_body s) + 2)%nat).
Proof.
  intros Hrest. unfold parse_prolog_string. cbn [app startswith tl].
  rewrite N.eqb_refl. cbn [negb].
  rewrite escape_body_parse by assumption. cbn [app]. f_equal. f_equal. lia.
Qed.

Lemma X9_parse_decodes_escaped_body_witness :
  parse_prolog_string
    ([DQUOTE] ++ escape_body (lit "a\b" ++ [DQUOTE] ++ lit "c") ++ [DQUOTE] ++ lit ").")
  = Ok (lit "a\b" ++ [DQUOTE] ++ lit "c", 9%nat).
Proof.
  apply (X9_parse_decodes_escaped_body (lit "a\b" ++ [DQUOTE] ++ lit "c") (lit ").")).
  reflexivity.
Defined.

(** X10: when the parser returns, the text begins with a quote, the
    position returned is within the text and just after a quote that no
    quote follows, and the string returned is no longer than the
    characters between the two quotes. *)
Theorem X10_parse_end_position (s res : str) (i : nat) :
  parse_prolog_string s = Ok (res, i) ->
  startswith DQUOTE s = true
  /\ (2 <= i <= length s)%nat
  /\ nth_error s (i - 1) = Some DQUOTE
  /\ nth_error s i <> Some DQUOTE
  /\ (length res <= i - 2)%nat.
Proof.
  unfold parse_prolog_string. destruct (startswith DQUOTE s) eqn:Hs; [|discriminate].
  cbn [negb]. destruct s as [|c body]; [discriminate|]. cbn [tl].
  intros H. apply (parse_loop_ok (length body)) in H
    as (k & -> & Hk & Hn & Hn' & (t & -> & Ht) & _); [|lia].
  cbn [length app]. replace (1 + k + 1 - 1)%nat with (S k) by lia.
  replace (1 + k + 1)%nat with (S (S k)) by lia. cbn [nth_error].
  repeat split; try lia; assumption.
Qed.

Lemma X10_parse_end_position_witness :
  nth_error ([DQUOTE] ++ lit "ab" ++ [DQUOTE] ++ lit ", x") (4 - 1) = Some DQUOTE.
Proof.
  apply (X10_parse_end_position _ (lit "ab") 4). reflexivity.
Defined.

(** X11: the parser and the scanner of the parenthesis check agree on
    where a literal ends: over the characters the parser consumed, the
    scanner goes from outside a string back to outside a string and
    counts nothing, so a literal at the head of a text does not change
    whether the text is balanced. *)
Theorem X11_parser_and_scanner_agree (s res : str) (i : nat) :
  parse_prolog_string s = Ok (res, i) ->
  (forall n, scan_parens (firstn i s) (Scanner n false false)
             = Some (Scanner n false false))
  /\ quote_state (firstn i s) = (false, false)
  /\ depth (firstn i s) = 0
  /\ forall post, check_balanced_parens (firstn i s ++ post)
                  = check_balanced_parens post.
Proof.
  unfold parse_prolog_string. destruct (startswith DQUOTE s) eqn:Hs; [|discriminate].
  cbn [negb]. destruct s as [|c body]; [discriminate|]. cbn [tl startswith] in *.
  apply N.eqb_eq in Hs. subst c.
  intros H. apply (parse_loop_ok (length body)) in H
    as (k & -> & _ & _ & _ & _ & Hscan); [|lia].
  assert (Hall : forall n, scan_parens (firstn (1 + k + 1) (DQUOTE :: body))
                             (Scanner n false false) = Some (Scanner n false false)).
  { intros n. replace (1 + k + 1)%nat with (S (S k)) by lia.
    cbn [firstn scan_parens escape_next in_string count].
    change (DQUOTE =? BACKSLASH)%N with false. rewrite N.eqb_refl.
    cbn [andb negb]. apply Hscan. }
  split; [exact Hall|].
  pose proof (scan_parens_depth (firstn (1 + k + 1) (DQUOTE :: body)) scanner0) as Hd.
  cbn [count scanner0] in Hd. specialize (Hd ltac:(lia)).
  change scanner0 with (Scanner 0 false false) in Hd. rewrite Hall in Hd.
  destruct Hd as (_ & Hc & Hf). unfold flags in Hf, Hc.
  cbn [count in_string escape_next] in Hc, Hf.
  split; [symmetry; exact Hf|]. split; [unfold depth, outside; lia|].
  intros post. unfold check_balanced_parens.
  rewrite scan_parens_app. change scanner0 with (Scanner 0 false false).
  now rewrite Hall.
Qed.

Lemma X11_parser_and_scanner_agree_witness :
  check_balanced_parens
    (firstn 6 ([DQUOTE] ++ lit "b(c)" ++ [DQUOTE] ++ lit ")") ++ lit ")")
  = check_balanced_parens (lit ")").
Proof.
  apply (X11_parser_and_scanner_agree _ (lit "b(c)") 6). reflexivity.
Defined.

(** X12: the parser fails in two ways only, both with [ValueError]: on a
    text that does not begin with a quote, and on a text whose literal is
    never closed.  It returns on every other text. *)
Theorem X12_parse_failures (s : str) :
  (forall e, parse_prolog_string s = Raise e ->
     (startswith DQUOTE s = false /\ e = ValueError MSG_START)
     \/ (exists body, s = DQUOTE :: body /\ open_body body
                      /\ e = ValueError MSG_UNTERMINATED))
  /\ ((exists r, parse_prolog_string s = Ok r) <->
      exists body, s = DQUOTE :: body /\ ~ open_body body).
Proof.
  unfold parse_prolog_string. destruct (startswith DQUOTE s) eqn:Hs; cbn [negb].
  - destruct s as [|c body]; [discriminate|]. cbn [startswith tl] in *.
    apply N.eqb_eq in Hs. subst c. split.
    + intros e H. right.
      apply (parse_loop_raise (length body)) in H as [-> Ho]; [|lia]. eauto.
    + split.
      * intros [r H]. exists body. split; [reflexivity|].
        intros Ho. now rewrite (open_body_parse body Ho) in H.
      * intros (body' & [= <-] & Hno).
        destruct (parse_loop body 1 []) as [r|e] eqn:E; [eauto|].
        apply (parse_loop_raise (length body)) in E as [_ Ho]; [|lia].
        contradiction.
  - split.
    + intros e [= <-]. auto.
    + split; [intros [r H]; discriminate|].
      intros (body & -> & _). cbn [startswith] in Hs.
      now rewrite N.eqb_refl in Hs.
Qed.

Lemma X12_parse_failures_witness :
  exists r, parse_prolog_string ([DQUOTE] ++ lit "a" ++ [DQUOTE]) = Ok r.
Proof.
  apply X12_parse_failures. exists (lit "a" ++ [DQUOTE]). split; [reflexivity|].
  intros H. inversion H as [|c s Hq Hb Hs| | |]; subst.
  inversion Hs as [|c s Hq' _ _| | |]; subst. now apply Hq'.
Defined.

(** * Further properties of the extraction loop *)

(** ** A run as a sequence of effects *)

Section RunSteps.

Variable pages : list str.
Variable encodes : char -> bool.
Variable service : nat -> str -> Z -> response.

Lemma in_range_iff x lo hi : In x (range lo hi) <-> lo <= x < hi.
Proof.
  unfold range. rewrite in_map_iff. split.
  - intros [k [<- Hk]]. apply in_seq in Hk. lia.
  - intros H. exists (Z.to_nat (x - lo)). split; [lia|]. apply in_seq. lia.
Qed.

(** The retry loop is a sequence of attempts. *)
Lemma attempt_loop_steps page_num text (attempts : list Z) : forall w,
  (forall a, In a attempts -> In a (range 0 max_retries)) ->
  rtc (attempt_step (page_num + 1)) w
      (snd (attempt_loop encodes service page_num text attempts w)).
Proof.
  induction attempts as [|a attempts IH]; intros w Ha; [apply rtc_refl|].
  assert (Ha' : forall b, In b attempts -> In b (range 0 max_retries))
    by (intros b Hb; apply Ha; now right).
  destruct (service (length (calls w)) text (page_num + 1)) as [payload| | |e] eqn:E.
  - rewrite (attempt_loop_completed encodes service page_num text _ _ _ payload E).
    destruct (forallb fact_verdict (split_lines payload)) eqn:Hv;
      destruct (encodable encodes payload); cbn [snd]; apply rtc_once.
    + apply (step_accepted _ w payload). now rewrite validate_prolog_syntax_spec, Hv.
    + apply step_unwritten_accept.
    + apply (step_rejected _ w payload). now rewrite validate_prolog_syntax_spec, Hv.
    + apply (step_unwritten_reject _ w payload).
      now rewrite validate_prolog_syntax_spec, Hv.
  - rewrite attempt_loop_rate_limited by exact E.
    eapply rtc_l; [|apply IH, Ha']. apply step_rate_limited, Ha. now left.
  - rewrite attempt_loop_service_error by exact E.
    destruct (a =? max_retries - 1); cbn [snd].
    + apply rtc_once, step_service_error.
    + eapply rtc_l; [|apply IH, Ha']. apply step_service_error.
  - rewrite (attempt_loop_crashed encodes service page_num text _ _ _ e E).
    cbn [snd]. apply rtc_once, step_crashed.
Qed.

Lemma attempt_steps_page_steps lo hi total p w w' :
  lo <= p <= hi ->
  rtc (attempt_step p) w w' -> rtc (page_step lo hi total) w w'.
Proof.
  intros Hp. apply rtc_subrel. intros x y Hxy. now apply (step_attempt _ _ _ x y p).
Qed.

(** The page loop is a sequence of page effects. *)
Lemma page_loop_steps lo hi total (page_nums : list Z) : forall w,
  (forall pn, In pn page_nums -> lo <= pn + 1 <= hi) ->
  rtc (page_step lo hi total) w (snd (page_loop pages encodes service total page_nums w)).
Proof.
  induction page_nums as [|pn page_nums IH]; intros w Hp; [apply rtc_refl|].
  assert (Hp' : forall q, In q page_nums -> lo <= q + 1 <= hi)
    by (intros q Hq; apply Hp; now right).
  assert (Hpn : lo <= pn + 1 <= hi) by (apply Hp; now left).
  cbn [page_loop].
  eapply rtc_l; [apply (step_start _ _ _ w (pn + 1) Hpn)|].
  destruct (py_index pages pn) as [text|e]; [|apply rtc_refl].
  destruct (bool_decide (text = []) || (Z.of_nat (length text) <? 50)).
  - eapply rtc_l; [apply (step_skip _ _ _ _ (pn + 1) Hpn)|]. apply IH, Hp'.
  - pose proof (attempt_loop_steps pn text (range 0 max_retries)
                  (print (LogPage (pn + 1) total) w) (fun a H => H)) as Ha.
    apply (attempt_steps_page_steps lo hi total) in Ha; [|exact Hpn].
    destruct (attempt_loop encodes service pn text (range 0 max_retries) _) as [[[]|e] w1];
      cbn [snd] in *; [|exact Ha].
    eapply rtc_trans; [exact Ha|].
    eapply rtc_l; [apply step_delay|]. apply IH, Hp'.
Qed.

(** A run of [process_pdf]: the knowledge base is made if it is missing,
    then come the effects of the page loop for the pages of the run; the
    rest is written on the console. *)
Lemma process_pdf_steps start_page max_pages w :
  exists w0 w1,
    (state_file w0 = state_file w /\ knowledge w0 = Some (knowledge_base w)
     /\ raw w0 = raw w /\ slept w0 = slept w /\ calls w0 = calls w)
    /\ rtc (page_step (first_page start_page w)
                      (last_page pages start_page max_pages w)
                      (Z.of_nat (length pages))) w0 w1
    /\ same_files w1 (snd (process_pdf pages encodes service start_page max_pages w)).
Proof.
  unfold process_pdf, last_page, first_page, knowledge_base.
  set (total := Z.of_nat (length pages)).
  destruct start_page as [sp|].
  - set (hi := match max_pages with
               | Some m => if m =? 0 then total else Z.min (sp + m - 1) total
               | None => total
               end).
    set (w0 := init_knowledge_base (print (LogRange sp hi total) w)).
    pose proof (page_loop_steps sp hi total (range (sp - 1) hi) w0) as Hs.
    exists w0, (snd (page_loop pages encodes service total (range (sp - 1) hi) w0)).
    split; [|split].
    + unfold w0, init_knowledge_base, print. cbn [knowledge].
      destruct (knowledge w); repeat split.
    + apply Hs. intros pn Hpn. apply in_range_iff in Hpn. lia.
    + destruct (page_loop pages encodes service total (range (sp - 1) hi) w0) as [[[]|e] w1];
        repeat split.
  - set (sp := load_state w).
    set (hi := match max_pages with
               | Some m => if m =? 0 then total else Z.min (sp + m - 1) total
               | None => total
               end).
    set (w0 := init_knowledge_base
                 (print (LogRange sp hi total)
                    (if 1 <? sp then print (LogResuming sp) w else w))).
    pose proof (page_loop_steps sp hi total (range (sp - 1) hi) w0) as Hs.
    exists w0, (snd (page_loop pages encodes service total (range (sp - 1) hi) w0)).
    split; [|split].
    + unfold w0, init_knowledge_base, print. cbn [knowledge].
      destruct (1 <? sp); cbn [knowledge]; destruct (knowledge w); repeat split.
    + apply Hs. intros pn Hpn. apply in_range_iff in Hpn. lia.
    + destruct (page_loop pages encodes service total (range (sp - 1) hi) w0) as [[[]|e] w1];
        repeat split.
Qed.

(** The same, with the page loop in sight. *)
Lemma process_pdf_page_loop start_page max_pages w :
  exists w0,
    (state_file w0 = state_file w /\ knowledge w0 = Some (knowledge_base w)
     /\ raw w0 = raw w /\ slept w0 = slept w /\ calls w0 = calls w
     /\ pages_processed w0 = pages_processed w)
    /\ same_files
         (snd (page_loop pages encodes service (Z.of_nat (length pages))
                 (range (first_page start_page w - 1)
                        (last_page pages start_page max_pages w)) w0))
         (snd (process_pdf pages encodes service start_page max_pages w))
    /\ fst (process_pdf pages encodes service start_page max_pages w)
       = fst (page_loop pages encodes service (Z.of_nat (length pages))
                (range (first_page start_page w - 1)
                       (last_page pages start_page max_pages w)) w0)
    /\ pages_processed (snd (process_pdf pages encodes service start_page max_pages w))
       = pages_processed
           (snd (page_loop pages encodes service (Z.of_nat (length pages))
                   (range (first_page start_page w - 1)
                          (last_page pages start_page max_pages w)) w0)).
Proof.
  unfold process_pdf, last_page, first_page, knowledge_base.
  set (total := Z.of_nat (length pages)).
  destruct start_page as [sp|].
  - set (hi := match max_pages with
               | Some m => if m =? 0 then total else Z.min (sp + m - 1) total
               | None => total
               end).
    set (w0 := init_knowledge_base (print (LogRange sp hi total) w)).
    exists w0. split; [|split; [|split]].
    + unfold w0, init_knowledge_base, pages_processed, print. cbn [knowledge].
      destruct (knowledge w); cbn [stdout]; rewrite omap_app, app_nil_r;
        repeat split.
    + destruct (page_loop pages encodes service total (range (sp - 1) hi) w0) as [[[]|e] w1];
        repeat split.
    + now destruct (page_loop pages encodes service total (range (sp - 1) hi) w0) as [[[]|e] w1].
    + destruct (page_loop pages encodes service total (range (sp - 1) hi) w0) as [[[]|e] w1];
        [|reflexivity].
      cbn [snd]. unfold pages_processed, print. cbn [stdout].
      now rewrite omap_app, app_nil_r.
  - set (sp := load_state w).
    set (hi := match max_pages with
               | Some m => if m =? 0 then total else Z.min (sp + m - 1) total
               | None => total
               end).
    set (w0 := init_knowledge_base
                 (print (LogRange sp hi total)
                    (if 1 <? sp then print (LogResuming sp) w else w))).
    exists w0. split; [|split; [|split]].
    + unfold w0, init_knowledge_base, pages_processed, print. cbn [knowledge].
      destruct (1 <? sp); cbn [knowledge]; destruct (knowledge w); cbn [stdout];
        rewrite ?omap_app, ?app_nil_r; repeat split.
    + destruct (page_loop pages encodes service total (range (sp - 1) hi) w0) as [[[]|e] w1];
        repeat split.
    + now destruct (page_loop pages encodes service total (range (sp - 1) hi) w0) as [[[]|e] w1].
    + destruct (page_loop pages encodes service total (range (sp - 1) hi) w0) as [[[]|e] w1];
        [|reflexivity].
      cbn [snd]. unfold pages_processed, print. cbn [stdout].
      now rewrite omap_app, app_nil_r.
Qed.

End RunSteps.

(** ** The knowledge base along a run *)

Section KnowledgeBase.

Lemma str_of_int_without_LF (n : Z) : without LF (str_of_int n) = true.
Proof.
  unfold without.
  apply (forallb_impl (fun c => re_digit c || (c =? 45)%N));
    [|apply str_of_int_chars].
  intros c H. unfold re_digit, in_range, LF in *.
  repeat rewrite ?andb_true_iff, ?orb_true_iff, ?negb_true_iff,
    ?N.eqb_eq, ?N.eqb_neq, ?N.leb_le in *. lia.
Qed.

Lemma page_marker_line (p : Z) :
  page_marker p = LF :: (lit "% === Page " ++ str_of_int p ++ lit " ===") ++ [LF].
Proof. unfold page_marker. cbn [app]. now rewrite <- !app_assoc. Qed.

Lemma split_lines_marker (p : Z) (rest : str) :
  split_lines (page_marker p ++ rest)
  = [] :: (lit "% === Page " ++ str_of_int p ++ lit " ===") :: split_lines rest.
Proof.
  rewrite page_marker_line. cbn [app]. rewrite <- app_assoc. cbn [app].
  change (LF :: ?x) with ([] ++ LF :: x) at 1. rewrite split_lines_join.
  rewrite split_lines_join. cbn [split_lines app]. f_equal.
  rewrite split_lines_single; [reflexivity|].
  fold (without LF (lit "% === Page " ++ str_of_int p ++ lit " ===")).
  rewrite !without_app, str_of_int_without_LF. reflexivity.
Qed.

Lemma marker_line_accepted (p : Z) :
  fact_verdict (lit "% === Page " ++ str_of_int p ++ lit " ===") = true.
Proof. apply fact_verdict_skipped, comment_line_skipped. reflexivity. Qed.

Lemma endswith_app c (a b : str) : b <> [] -> endswith c (a ++ b) = endswith c b.
Proof.
  intros Hb. unfold endswith. rewrite last_app.
  destruct (last b) eqn:E; [reflexivity|]. now apply last_None in E.
Qed.

(** What [append_to_knowledge_base] adds for an accepted payload: whole
    lines, which the validator accepts. *)
Lemma appended_lines (p : Z) (payload : str) :
  forallb fact_verdict (split_lines payload) = true ->
  let facts := page_marker p ++ payload in
  let added := facts ++ (if endswith LF facts then [] else [LF]) in
  forallb fact_verdict (split_lines added) = true
  /\ startswith LF added = true /\ endswith LF added = true.
Proof.
  intros Hv. cbv zeta. split; [|split].
  - destruct (endswith LF (page_marker p ++ payload)).
    + rewrite app_nil_r, split_lines_marker. cbn [forallb]. rewrite Hv.
      now rewrite (fact_verdict_skipped []), marker_line_accepted.
    + rewrite <- app_assoc, split_lines_marker. cbn [forallb].
      change (payload ++ [LF]) with (payload ++ LF :: []).
      rewrite split_lines_join, forallb_app, Hv.
      now rewrite (fact_verdict_skipped []), marker_line_accepted.
  - rewrite page_marker_line. reflexivity.
  - destruct (endswith LF (page_marker p ++ payload)) eqn:E.
    + now rewrite app_nil_r.
    + apply endswith_snoc.
Qed.

Lemma kb_grows_refl w : kb_grows w w.
Proof.
  intros k Hk. exists []. rewrite app_nil_r. auto.
Qed.

Lemma kb_grows_same w w' : knowledge w' = knowledge w -> kb_grows w w'.
Proof.
  intros H k Hk. exists []. rewrite app_nil_r, H. auto.
Qed.

Lemma kb_grows_trans a b c : kb_grows a b -> kb_grows b c -> kb_grows a c.
Proof.
  intros Hab Hbc k Hk.
  destruct (Hab k Hk) as (add1 & K1 & V1 & S1).
  destruct (Hbc _ K1) as (add2 & K2 & V2 & S2).
  exists (add1 ++ add2). rewrite K2, <- app_assoc. split; [reflexivity|].
  destruct S2 as [-> | [Hs2 He2]]; [rewrite app_nil_r; auto|].
  destruct S1 as [-> | [Hs1 He1]]; [cbn [app]; auto|].
  destruct add2 as [|c2 r2]; [discriminate|]. cbn [startswith] in Hs2.
  apply N.eqb_eq in Hs2. subst c2. split; [|right; split].
  - rewrite split_lines_join, forallb_app, V1. cbn [andb].
    cbn [split_lines] in V2. change (LF =? LF)%N with true in V2.
    cbn [forallb] in V2. now apply andb_prop in V2 as [_ ->].
  - destruct add1; [discriminate | exact Hs1].
  - now rewrite endswith_app by discriminate.
Qed.

(** Each effect of the page loop adds whole valid lines to the knowledge
    base or leaves it as it is. *)
Lemma page_step_kb_grows lo hi total w w' :
  page_step lo hi total w w' -> kb_grows w w'.
Proof.
  intros [w1 p Hp | w1 p Hp | w1 w2 p Hp Ha | w1];
    try (now apply kb_grows_same).
  destruct Ha as [w1 a Ha | w1 | w1 payload Hv | w1 payload Hv
                  | w1 | w1 | w1 payload Hv];
    try (now apply kb_grows_same).
  - intros k Hk. rewrite validate_prolog_syntax_spec in Hv. injection Hv as Hv.
    destruct (appended_lines p payload Hv) as (V & S & E). cbv zeta in *.
    eexists. split; [|split; [exact V | right; split; [exact S | exact E]]].
    unfold accepted_attempt, print, save_state, append_text, record_call.
    cbn [knowledge]. now rewrite Hk.
  - intros k Hk. exists [].
    unfold unwritten_accept, open_append, record_call. cbn [knowledge].
    rewrite Hk, app_nil_r. auto.
Qed.

Lemma page_steps_kb_grows lo hi total w w' :
  rtc (page_step lo hi total) w w' -> kb_grows w w'.
Proof.
  induction 1 as [|x y z Hxy _ IH]; [apply kb_grows_refl|].
  eapply kb_grows_trans; [|exact IH]. eapply page_step_kb_grows, Hxy.
Qed.

(** The knowledge base after a run of [process_pdf]. *)
Lemma process_pdf_knowledge (pages : list str) (encodes : char -> bool) (service : nat -> str -> Z -> response)
  (start_page max_pages : option Z) (w : world) :
  exists added,
    knowledge (snd (process_pdf pages encodes service start_page max_pages w))
    = Some (knowledge_base w ++ added)
    /\ forallb fact_verdict (split_lines added) = true
    /\ (added = [] \/ (startswith LF added = true /\ endswith LF added = true)).
Proof.
  destruct (process_pdf_steps pages encodes service start_page max_pages w)
    as (w0 & w1 & (_ & K0 & _) & Hsteps & (_ & K1 & _)).
  apply page_steps_kb_grows in Hsteps.
  destruct (Hsteps _ K0) as (added & K & V & S).
  exists added. rewrite K1, K. auto.
Qed.

End KnowledgeBase.

(** X13: the knowledge base is only appended to, and only with what the
    validator accepts.  After any run of [process_pdf] the file holds
    what it held before, or the header when it was missing, followed by
    whole lines (the addition is empty, or begins and ends with a
    newline) that together are a valid payload. *)
Theorem X13_knowledge_base_append_only
  (pages : list str) (encodes : char -> bool) (service : nat -> str -> Z -> response)
  (start_page max_pages : option Z) (w : world) :
  exists added,
    knowledge (snd (process_pdf pages encodes service start_page max_pages w))
    = Some (knowledge_base w ++ added)
    /\ validate_prolog_syntax added = Ok true
    /\ (added = [] \/ (startswith LF added = true /\ endswith LF added = true)).
Proof.
  destruct (process_pdf_knowledge pages encodes service start_page max_pages w)
    as (added & K & V & S).
  exists added. rewrite validate_prolog_syntax_spec, V. auto.
Qed.

(** X14: the knowledge base of a run that had to make the file is never
    accepted by [validate_file]: the file begins with the header that
    [init_knowledge_base] writes, nothing is ever removed from it, and
    the header has lines, the relation type facts with their trailing
    comments, that [validate_fact] rejects, whatever text follows the
    header. *)
Theorem X14_fresh_knowledge_base_fails_validate_file
  (pages : list str) (encodes : char -> bool) (service : nat -> str -> Z -> response)
  (start_page max_pages : option Z) (w : world) :
  knowledge w = None ->
  exists added,
    knowledge (snd (process_pdf pages encodes service start_page max_pages w))
    = Some (KNOWLEDGE_HEADER ++ added)
    /\ forall rest, exists errors,
         validate_file (KNOWLEDGE_HEADER ++ rest) = Ok (false, errors)
         /\ errors <> [].
Proof.
  intros Hnone.
  destruct (process_pdf_knowledge pages encodes service start_page max_pages w)
    as (added & K & _ & _).
  unfold knowledge_base in K. rewrite Hnone in K.
  exists added. split; [exact K|]. intros rest.
  assert (Hbad : forallb file_line_ok (split_lines (KNOWLEDGE_HEADER ++ rest)) = false).
  { replace KNOWLEDGE_HEADER with (removelast KNOWLEDGE_HEADER ++ [LF])
      by (vm_compute; reflexivity).
    rewrite <- app_assoc. cbn [app]. rewrite split_lines_join, forallb_app.
    apply andb_false_iff. left. vm_compute. reflexivity. }
  unfold validate_file.
  destruct (validate_file_loop_spec (file_lines (KNOWLEDGE_HEADER ++ rest)) 1 [])
    as (more & E & _ & Hiff).
  rewrite (file_lines_split_lines file_line_ok file_line_ok_rstrip file_line_ok_blank)
    in Hiff.
  exists more. rewrite E. cbn [app]. unfold mbind, result_bind.
  destruct more as [|e more]; [|split; [reflexivity | discriminate]].
  rewrite (proj1 Hiff eq_refl) in Hbad. discriminate.
Qed.

Lemma X14_fresh_knowledge_base_fails_validate_file_witness :
  exists added,
    knowledge (snd (process_pdf [repeat (ord "a") 50]
                      utf8 (fun _ _ _ => Completed (lit "concept(a, 1, b)."))
                      None None world0))
    = Some (KNOWLEDGE_HEADER ++ added)
    /\ forall rest, exists errors,
         validate_file (KNOWLEDGE_HEADER ++ rest) = Ok (false, errors)
         /\ errors <> [].
Proof.
  apply X14_fresh_knowledge_base_fails_validate_file. reflexivity.
Defined.

(** ** What a run costs *)

Section Budget.

Variable pages : list str.
Variable encodes : char -> bool.
Variable service : nat -> str -> Z -> response.

Lemma backoff_sum_nonneg_backoff a : 0 <= 2 ^ a.
Proof. apply Z.pow_nonneg. lia. Qed.

(** The retry loop calls the service once for each attempt it makes, and
    sleeps the back-off of the attempts that were rate limited. *)
Lemma attempt_loop_budget page_num text (attempts : list Z) : forall w,
  exists k new,
    calls (snd (attempt_loop encodes service page_num text attempts w))
    = calls w ++ repeat (page_num + 1) k
    /\ (k <= length attempts)%nat
    /\ slept (snd (attempt_loop encodes service page_num text attempts w)) = slept w ++ new
    /\ 0 <= backoff_sum new <= backoff_ceiling attempts
    /\ Forall (fun e => exists a, In a attempts /\ e = Backoff (2 ^ a)) new.
Proof.
  induction attempts as [|a attempts IH]; intros w.
  - exists 0%nat, []. cbn. rewrite !app_nil_r. repeat split; try lia. constructor.
  - pose proof (backoff_sum_nonneg_backoff a) as Hpow.
    assert (Hceil0 : 0 <= backoff_ceiling attempts).
    { clear. induction attempts as [|b l IHl]; cbn; [lia|].
      pose proof (backoff_sum_nonneg_backoff b). fold (backoff_ceiling l). lia. }
    destruct (service (length (calls w)) text (page_num + 1)) as [payload| | |e] eqn:E;
      [| | |rewrite (attempt_loop_crashed encodes service page_num text _ _ _ e E);
            exists 1%nat, []; cbn [backoff_ceiling fold_right length];
            fold (backoff_ceiling attempts);
            cbn; rewrite ?app_nil_r; repeat split; try lia; constructor].
    + rewrite (attempt_loop_completed encodes service page_num text _ _ _ payload E).
      exists 1%nat, []. cbn [backoff_ceiling fold_right length].
      fold (backoff_ceiling attempts).
      destruct (forallb fact_verdict (split_lines payload));
        destruct (encodable encodes payload);
        cbn; rewrite ?app_nil_r; repeat split; try lia; constructor.
    + rewrite attempt_loop_rate_limited by exact E.
      destruct (IH (rate_limited_attempt (page_num + 1) w a))
        as (k & new & Hc & Hk & Hs & Hb & Hf).
      exists (S k), (Backoff (2 ^ a) :: new). rewrite Hc, Hs.
      unfold rate_limited_attempt, sleep, print, record_call. cbn [calls slept].
      rewrite <- !app_assoc. cbn [app repeat length backoff_ceiling fold_right].
      fold (backoff_ceiling attempts).
      change (backoff_sum (Backoff (2 ^ a) :: new)) with (2 ^ a + backoff_sum new).
      repeat split; try lia.
      constructor; [exists a; split; [now left | reflexivity]|].
      eapply Forall_impl; [exact Hf|].
      intros e (b & Hb' & ->). exists b. split; [now right | reflexivity].
    + rewrite attempt_loop_service_error by exact E.
      assert (Hceil : 0 <= backoff_ceiling attempts).
      { clear. induction attempts as [|b l IHl]; cbn; [lia|].
        pose proof (backoff_sum_nonneg_backoff b). fold (backoff_ceiling l). lia. }
      destruct (a =? max_retries - 1).
      * exists 1%nat, []. cbn [backoff_ceiling fold_right length].
        fold (backoff_ceiling attempts).
        cbn; rewrite ?app_nil_r; repeat split; try lia; constructor.
      * destruct (IH (service_error_attempt (page_num + 1) w))
          as (k & new & Hc & Hk & Hs & Hb & Hf).
        exists (S k), new. rewrite Hc, Hs.
        unfold service_error_attempt, save_state, log_error, print, record_call.
        cbn [calls slept]. rewrite <- !app_assoc.
        cbn [app repeat length backoff_ceiling fold_right].
        fold (backoff_ceiling attempts).
        repeat split; try lia.
        eapply Forall_impl; [exact Hf|].
        intros e (b & Hb' & ->). exists b. split; [now right | reflexivity].
Qed.

Lemma range_empty lo hi : hi <= lo -> range lo hi = [].
Proof. intros H. unfold range. now replace (Z.to_nat (hi - lo)) with 0%nat by lia. Qed.

Lemma attempt_sleeps_known (new : list sleep_event) :
  Forall (fun e => exists a, In a (range 0 max_retries) /\ e = Backoff (2 ^ a)) new ->
  Forall known_sleep new.
Proof.
  intros H. eapply Forall_impl; [exact H|].
  intros e (a & Ha & ->). unfold known_sleep.
  cbn in Ha. destruct Ha as [<- | [<- | [<- | []]]]; auto.
Qed.

(** The page loop over the pages after [lo], up to [hi]: the service is
    called for these pages only and at most three times for each, and
    the back-off is at most seven seconds for each. *)
Lemma page_loop_budget total (n : nat) : forall lo hi w,
  Z.to_nat (hi - lo) = n ->
  exists new_calls new_sleeps,
    calls (snd (page_loop pages encodes service total (range lo hi) w)) = calls w ++ new_calls
    /\ slept (snd (page_loop pages encodes service total (range lo hi) w))
       = slept w ++ new_sleeps
    /\ (forall p, In p new_calls -> lo + 1 <= p <= hi)
    /\ (forall p, (count_occ Z.eq_dec new_calls p <= 3)%nat)
    /\ 0 <= backoff_sum new_sleeps <= 7 * Z.of_nat n
    /\ Forall known_sleep new_sleeps.
Proof.
  induction n as [|n IH]; intros lo hi w Hn.
  - rewrite range_empty by lia. exists [], []. cbn. rewrite !app_nil_r.
    repeat split; try lia; try constructor.
  - rewrite range_cons by lia. cbn [page_loop].
    set (w0 := print (LogPage (lo + 1) total) w).
    assert (Hnil : exists new_calls new_sleeps,
               calls w0 = calls w ++ new_calls /\ slept w0 = slept w ++ new_sleeps
               /\ (forall p, In p new_calls -> lo + 1 <= p <= hi)
               /\ (forall p, (count_occ Z.eq_dec new_calls p <= 3)%nat)
               /\ 0 <= backoff_sum new_sleeps <= 7 * Z.of_nat (S n)
               /\ Forall known_sleep new_sleeps).
    { exists [], []. cbn. rewrite !app_nil_r.
      repeat split; try lia; try constructor. }
    destruct (py_index pages lo) as [text|e]; [|exact Hnil]. clear Hnil.
    destruct (bool_decide (text = []) || (Z.of_nat (length text) <? 50)).
    + destruct (IH (lo + 1) hi (save_state (lo + 1) (log_skip (lo + 1) w0)))
        as (nc & ns & Hc & Hs & Hin & Hcount & Hb & Hk); [lia|].
      exists nc, ns. rewrite Hc, Hs.
      split; [reflexivity|]. split; [reflexivity|].
      split; [intros p Hp; apply Hin in Hp; lia|].
      split; [assumption|]. split; [lia | assumption].
    + destruct (attempt_loop_budget lo text (range 0 max_retries) w0)
        as (k & ns1 & Hc1 & Hk1 & Hs1 & Hb1 & Hf1).
      apply attempt_sleeps_known in Hf1.
      change (backoff_ceiling (range 0 max_retries)) with 7 in Hb1.
      change (length (range 0 max_retries)) with 3%nat in Hk1.
      destruct (attempt_loop encodes service lo text (range 0 max_retries) w0)
        as [[[]|e] w1]; cbn [snd] in *.
      * destruct (IH (lo + 1) hi (sleep BaseDelay w1))
          as (nc & ns & Hc & Hs & Hin & Hcount & Hb & Hk); [lia|].
        exists (repeat (lo + 1) k ++ nc), (ns1 ++ BaseDelay :: ns).
        rewrite Hc, Hs. unfold sleep. cbn [calls slept]. rewrite Hc1, Hs1.
        unfold w0, print. cbn [calls slept]. rewrite <- !app_assoc. cbn [app].
        split; [reflexivity|]. split; [reflexivity|]. split; [|split; [|split]].
        -- intros p Hp. apply in_app_or in Hp as [Hp | Hp].
           ++ apply repeat_spec in Hp. lia.
           ++ apply Hin in Hp. lia.
        -- intros p. rewrite count_occ_app. destruct (Z.eq_dec p (lo + 1)) as [->|Hne].
           ++ rewrite count_occ_repeat_eq by reflexivity.
              rewrite (proj1 (count_occ_not_In Z.eq_dec nc (lo + 1))); [lia|].
              intros Hp. apply Hin in Hp. lia.
           ++ rewrite count_occ_repeat_neq by assumption. apply Hcount.
        -- rewrite backoff_sum_app.
           change (backoff_sum (BaseDelay :: ns)) with (backoff_sum ns). lia.
        -- apply Forall_app. split; [assumption|].
           constructor; [now left | assumption].
      * exists (repeat (lo + 1) k), ns1. rewrite Hc1, Hs1.
        unfold w0, print. cbn [calls slept].
        split; [reflexivity|]. split; [reflexivity|].
        split; [intros p Hp; apply repeat_spec in Hp; lia|].
        split; [|split; [lia | assumption]].
        intros p. destruct (Z.eq_dec p (lo + 1)) as [->|Hne].
        -- rewrite count_occ_repeat_eq by reflexivity. lia.
        -- rewrite count_occ_repeat_neq by assumption. lia.
Qed.

End Budget.

(** X15: a run calls the generation service for the pages of the run
    only, from its first page to its last, and for no page more than
    three times. *)
Theorem X15_service_call_budget
  (pages : list str) (encodes : char -> bool) (service : nat -> str -> Z -> response)
  (start_page max_pages : option Z) (w : world) :
  exists new_calls,
    calls (snd (process_pdf pages encodes service start_page max_pages w))
    = calls w ++ new_calls
    /\ (forall p, In p new_calls ->
          first_page start_page w <= p <= last_page pages start_page max_pages w)
    /\ (forall p, (count_occ Z.eq_dec new_calls p <= Z.to_nat max_retries)%nat).
Proof.
  set (lo := first_page start_page w).
  set (hi := last_page pages start_page max_pages w).
  destruct (process_pdf_page_loop pages encodes service start_page max_pages w)
    as (w0 & (_ & _ & _ & _ & Hw0 & _) & (_ & _ & _ & _ & Hsame) & _).
  fold lo hi in Hsame. rewrite Hsame.
  destruct (page_loop_budget pages encodes service (Z.of_nat (length pages))
              (Z.to_nat (hi - (lo - 1))) (lo - 1) hi w0 eq_refl)
    as (nc & ns & Hc & _ & Hin & Hcount & _).
  exists nc. rewrite Hc, Hw0. split; [reflexivity|]. split.
  - intros p Hp. apply Hin in Hp. lia.
  - exact Hcount.
Qed.

(** X16: a run sleeps the fixed delay and back-offs of one, two and four
    seconds only, and its back-off is at most seven seconds for each page
    of the run. *)
Theorem X16_backoff_budget
  (pages : list str) (encodes : char -> bool) (service : nat -> str -> Z -> response)
  (start_page max_pages : option Z) (w : world) :
  exists new_sleeps,
    slept (snd (process_pdf pages encodes service start_page max_pages w))
    = slept w ++ new_sleeps
    /\ Forall known_sleep new_sleeps
    /\ 0 <= backoff_sum new_sleeps
       <= 7 * Z.max 0 (last_page pages start_page max_pages w
                       - first_page start_page w + 1).
Proof.
  set (lo := first_page start_page w).
  set (hi := last_page pages start_page max_pages w).
  destruct (process_pdf_page_loop pages encodes service start_page max_pages w)
    as (w0 & (_ & _ & _ & Hw0 & _) & (_ & _ & _ & Hsame & _) & _).
  fold lo hi in Hsame. rewrite Hsame.
  destruct (page_loop_budget pages encodes service (Z.of_nat (length pages))
              (Z.to_nat (hi - (lo - 1))) (lo - 1) hi w0 eq_refl)
    as (nc & ns & _ & Hs & _ & _ & Hb & Hk).
  exists ns. rewrite Hs, Hw0. split; [reflexivity|]. split; [assumption | lia].
Qed.

(** ** The progress state and the raw response files along a run *)

Section FilesAlongRun.

Lemma page_steps_state_within lo hi total w w' :
  rtc (page_step lo hi total) w w' -> state_within lo hi w w'.
Proof.
  induction 1 as [|x y z Hxy _ IH]; [now left|].
  assert (Hstep : state_within lo hi x y).
  { destruct Hxy as [w1 p Hp | w1 p Hp | w1 w2 p Hp Ha | w1];
      [now left | right; exists p; split; [reflexivity | lia] | | now left].
    destruct Ha as [w1 a Ha | w1 | w1 payload Hv | w1 payload Hv
                    | w1 | w1 | w1 payload Hv];
      [now left | right; exists (p - 1); split; [reflexivity | lia]
      | right; exists p; split; [reflexivity | lia]
      | right; exists p; split; [reflexivity | lia]
      | now left | now left | now left]. }
  destruct IH as [Hz | (n & Hz & Hn)]; [|right; eauto].
  destruct Hstep as [Hy | (n & Hy & Hn)]; [left; congruence|].
  right. exists n. split; [congruence | assumption].
Qed.

Variable pages : list str.
Variable encodes : char -> bool.
Variable service : nat -> str -> Z -> response.

(** The retry loop writes one raw response file at most, the one of its
    page: with a rejected payload, or with nothing when the write fails. *)
Lemma attempt_loop_raw page_num text (attempts : list Z) : forall w,
  raw (snd (attempt_loop encodes service page_num text attempts w)) = raw w
  \/ (exists payload,
        validate_prolog_syntax payload = Ok false
        /\ encodable encodes payload = true
        /\ raw (snd (attempt_loop encodes service page_num text attempts w))
           = <[page_num + 1 := payload]> (raw w))
  \/ (fst (attempt_loop encodes service page_num text attempts w)
      = Raise UnicodeEncodeError
      /\ raw (snd (attempt_loop encodes service page_num text attempts w))
         = <[page_num + 1 := []]> (raw w)).
Proof.
  induction attempts as [|a attempts IH]; intros w; [now left|].
  destruct (service (length (calls w)) text (page_num + 1)) as [payload| | |e] eqn:E.
  - rewrite (attempt_loop_completed encodes service page_num text _ _ _ payload E).
    destruct (forallb fact_verdict (split_lines payload)) eqn:Hv;
      destruct (encodable encodes payload) eqn:Enc; cbn [fst snd].
    + now left.
    + now left.
    + right. left. exists payload.
      rewrite validate_prolog_syntax_spec, Hv. auto.
    + right. right. auto.
  - rewrite attempt_loop_rate_limited by exact E.
    exact (IH (rate_limited_attempt (page_num + 1) w a)).
  - rewrite attempt_loop_service_error by exact E.
    destruct (a =? max_retries - 1); [now left|].
    exact (IH (service_error_attempt (page_num + 1) w)).
  - rewrite (attempt_loop_crashed encodes service page_num text _ _ _ e E). now left.
Qed.

(** The raw response files after the page loop over the pages after
    [lo], up to [hi]. *)
Lemma page_loop_raw total (n : nat) : forall lo hi w q pl,
  Z.to_nat (hi - lo) = n ->
  raw (snd (page_loop pages encodes service total (range lo hi) w)) !! q = Some pl ->
  raw w !! q = Some pl
  \/ (lo + 1 <= q <= hi
      /\ validate_prolog_syntax pl = Ok false /\ encodable encodes pl = true)
  \/ (lo + 1 <= q <= hi /\ pl = []
      /\ fst (page_loop pages encodes service total (range lo hi) w)
         = Raise UnicodeEncodeError).
Proof.
  induction n as [|n IH]; intros lo hi w q pl Hn.
  - rewrite range_empty by lia. cbn [page_loop snd]. now left.
  - rewrite range_cons by lia. cbn [page_loop].
    set (w0 := print (LogPage (lo + 1) total) w).
    destruct (py_index pages lo) as [text|e]; [|now left].
    destruct (bool_decide (text = []) || (Z.of_nat (length text) <? 50)).
    + intros H. apply IH in H; [|lia].
      destruct H as [H | [(Hq & H) | (Hq & H)]];
        [now left | right; left; split; [lia | exact H]
        | right; right; split; [lia | exact H]].
    + pose proof (attempt_loop_raw lo text (range 0 max_retries) w0) as Ha.
      destruct (attempt_loop encodes service lo text (range 0 max_retries) w0)
        as [[[]|e] w1]; cbn [fst snd] in Ha |- *.
      * intros H. apply IH in H; [|lia].
        destruct H as [H | [(Hq & H) | (Hq & H)]];
          [| right; left; split; [lia | exact H]
           | right; right; split; [lia | exact H]].
        change (raw (sleep BaseDelay w1)) with (raw w1) in H.
        destruct Ha as [Ha | [(payload & Hv & Henc & Ha) | (Ha & _)]];
          [rewrite Ha in H; now left | | discriminate Ha].
        rewrite Ha in H. change (raw w0) with (raw w) in H.
        destruct (decide (lo + 1 = q)) as [<-|Hne].
        -- rewrite lookup_insert_eq in H. injection H as <-.
           right. left. split; [lia | auto].
        -- rewrite lookup_insert_ne in H by assumption. now left.
      * intros H.
        destruct Ha as [Ha | [(payload & Hv & Henc & Ha) | (He & Ha)]];
          rewrite Ha in H; change (raw w0) with (raw w) in H.
        -- now left.
        -- destruct (decide (lo + 1 = q)) as [<-|Hne].
           ++ rewrite lookup_insert_eq in H. injection H as <-.
              right. left. split; [lia | auto].
           ++ rewrite lookup_insert_ne in H by assumption. now left.
        -- destruct (decide (lo + 1 = q)) as [<-|Hne].
           ++ rewrite lookup_insert_eq in H. injection H as <-.
              right. right. split; [lia|]. split; [reflexivity | exact He].
           ++ rewrite lookup_insert_ne in H by assumption. now left.
Qed.

End FilesAlongRun.

(** X17: after a run the progress state is what it was before, or the
    number of a page between the page before the first page of the run
    and its last page: it never points past the pages the run went
    through. *)
Theorem X17_progress_state_within_run
  (pages : list str) (encodes : char -> bool) (service : nat -> str -> Z -> response)
  (start_page max_pages : option Z) (w : world) :
  state_file (snd (process_pdf pages encodes service start_page max_pages w)) = state_file w
  \/ exists n,
       state_file (snd (process_pdf pages encodes service start_page max_pages w)) = Some n
       /\ first_page start_page w - 1 <= n
          <= last_page pages start_page max_pages w.
Proof.
  destruct (process_pdf_steps pages encodes service start_page max_pages w)
    as (w0 & w1 & (S0 & _) & Hsteps & (S1 & _)).
  apply page_steps_state_within in Hsteps. rewrite S1.
  destruct Hsteps as [H | (n & H & Hn)]; [left; congruence | right; eauto].
Qed.

(** X18: the raw response files hold rejected payloads: a file that a
    run leaves behind is as it was before the run, or holds a payload
    that failed validation, for a page of the run, or is the empty file
    of the page at which the run ended with the exception of a write
    that could not encode the rejected payload. *)
Theorem X18_raw_files_hold_rejected_payloads
  (pages : list str) (encodes : char -> bool) (service : nat -> str -> Z -> response)
  (start_page max_pages : option Z) (w : world) (p : Z) (payload : str) :
  raw (snd (process_pdf pages encodes service start_page max_pages w)) !! p
  = Some payload ->
  raw w !! p = Some payload
  \/ (first_page start_page w <= p <= last_page pages start_page max_pages w
      /\ validate_prolog_syntax payload = Ok false
      /\ encodable encodes payload = true)
  \/ (first_page start_page w <= p <= last_page pages start_page max_pages w
      /\ payload = []
      /\ fst (process_pdf pages encodes service start_page max_pages w)
         = Raise UnicodeEncodeError).
Proof.
  destruct (process_pdf_page_loop pages encodes service start_page max_pages w)
    as (w0 & (_ & _ & R0 & _) & (_ & _ & R1 & _) & Hfst & _).
  rewrite R1, Hfst. intros H.
  apply (page_loop_raw pages encodes service _ _ _ _ _ _ _ eq_refl) in H.
  rewrite R0 in H.
  destruct H as [H | [(Hq & H) | (Hq & H)]];
    [now left | right; left; split; [lia | exact H]
    | right; right; split; [lia | exact H]].
Qed.

Lemma X18_raw_files_hold_rejected_payloads_witness :
  validate_prolog_syntax (lit "concept(a, 1") = Ok false.
Proof.
  destruct (X18_raw_files_hold_rejected_payloads
              [repeat (ord "a") 50] utf8 (fun _ _ _ => Completed (lit "concept(a, 1"))
              None None world0 1 (lit "concept(a, 1"))
    as [H | [(_ & H & _) | (_ & H & _)]].
  - vm_compute. reflexivity.
  - vm_compute in H. discriminate.
  - exact H.
  - discriminate H.
Defined.

(** ** How a run goes through the pages and how it ends *)

Section Outcome.

Variable pages : list str.
Variable encodes : char -> bool.
Variable service : nat -> str -> Z -> response.

Lemma py_index_in_range (i : Z) :
  0 <= i < Z.of_nat (length pages) ->
  exists text, py_index pages i = Ok text /\ In text pages.
Proof.
  intros Hi. unfold py_index.
  destruct (Z.ltb_spec i 0); [lia|]. destruct (Z.ltb_spec i 0); [lia|].
  destruct (Z.leb_spec (Z.of_nat (length pages)) i); [lia|]. cbn [orb].
  destruct (nth_error pages (Z.to_nat i)) as [text|] eqn:E.
  - exists text. split; [reflexivity|]. eapply nth_error_In, E.
  - apply nth_error_None in E. lia.
Qed.

Lemma attempt_steps_pages_processed p w w' :
  rtc (attempt_step p) w w' -> pages_processed w' = pages_processed w.
Proof.
  induction 1 as [|x y z Hxy _ IH]; [reflexivity|]. rewrite IH.
  destruct Hxy as [w1 a Ha | w1 | w1 payload Hv | w1 payload Hv
                   | w1 | w1 | w1 payload Hv];
    unfold pages_processed, rate_limited_attempt, service_error_attempt,
      accepted_attempt, rejected_attempt, unwritten_accept, unwritten_reject,
      open_append, sleep, save_state, write_raw,
      append_text, log_error, log_invalid_output, print, record_call;
    cbn [stdout]; first [reflexivity | rewrite ?omap_app; apply app_nil_r].
Qed.

(** The retry loop raises on a service error at the last attempt, the
    progress state then being the page before, on an exception of the
    call that is not handled, and on a payload that cannot be written. *)
Lemma attempt_loop_raise page_num text (attempts : list Z) : forall w e w',
  attempt_loop encodes service page_num text attempts w = (Raise e, w') ->
  last (calls w') = Some (page_num + 1)
  /\ ((service (pred (length (calls w'))) text (page_num + 1) = ServiceError
       /\ e = APIError /\ state_file w' = Some page_num)
      \/ service (pred (length (calls w'))) text (page_num + 1) = Crashed e
      \/ (exists payload,
            service (pred (length (calls w'))) text (page_num + 1)
            = Completed payload
            /\ encodable encodes payload = false
            /\ e = UnicodeEncodeError)).
Proof.
  induction attempts as [|a attempts IH]; intros w e w' H; [discriminate|].
  assert (Hlast : forall l : list Z,
            pred (length (l ++ [page_num + 1])) = length l)
    by (intros l; rewrite length_app; cbn [length]; lia).
  destruct (service (length (calls w)) text (page_num + 1)) as [payload| | |e0] eqn:E.
  - rewrite (attempt_loop_completed encodes service page_num text _ _ _ payload E) in H.
    destruct (forallb fact_verdict (split_lines payload));
      destruct (encodable encodes payload) eqn:Enc; try discriminate;
      injection H as <- <-;
      unfold unwritten_accept, unwritten_reject, open_append, write_raw,
        log_invalid_output, print, record_call; cbn [calls];
      rewrite last_snoc, Hlast; (split; [reflexivity|]);
      right; right; exists payload; auto.
  - rewrite attempt_loop_rate_limited in H by exact E. eapply IH, H.
  - rewrite attempt_loop_service_error in H by exact E.
    destruct (a =? max_retries - 1); [|eapply IH, H].
    injection H as <- <-.
    destruct (service_error_fields (page_num + 1) w) as (S3 & _ & C3 & _).
    rewrite S3, C3, last_snoc, Hlast. split; [reflexivity|]. left.
    repeat split; [exact E | f_equal; lia].
  - rewrite (attempt_loop_crashed encodes service page_num text _ _ _ e0 E) in H.
    injection H as <- <-. unfold record_call. cbn [calls].
    rewrite last_snoc, Hlast. split; [reflexivity|]. right. now left.
Qed.

(** The page loop over the pages after [lo], up to [hi], all of them
    pages of the PDF: the pages are started in order up to a page [stop],
    the last one when the loop ends normally; when it does not, that is
    by what the last call, made for page [stop], gave. *)
Lemma page_loop_outcome total (n : nat) : forall lo hi w,
  Z.to_nat (hi - lo) = n ->
  0 <= lo -> hi <= Z.of_nat (length pages) ->
  exists stop,
    lo <= stop <= Z.max lo hi
    /\ pages_processed (snd (page_loop pages encodes service total (range lo hi) w))
       = pages_processed w ++ range (lo + 1) (stop + 1)
    /\ (fst (page_loop pages encodes service total (range lo hi) w) = Ok () ->
        stop = Z.max lo hi)
    /\ (forall e, fst (page_loop pages encodes service total (range lo hi) w) = Raise e ->
        lo < stop
        /\ last (calls (snd (page_loop pages encodes service total (range lo hi) w)))
           = Some stop
        /\ failure_cause pages encodes service e stop
             (snd (page_loop pages encodes service total (range lo hi) w))).
Proof.
  induction n as [|n IH]; intros lo hi w Hn Hlo Hhi.
  - rewrite range_empty by lia. exists lo. cbn [page_loop fst snd].
    rewrite range_empty, app_nil_r by lia.
    repeat split; try lia; discriminate.
  - rewrite range_cons by lia. cbn [page_loop].
    set (w0 := print (LogPage (lo + 1) total) w).
    destruct (py_index_in_range lo) as (text & Hidx & _); [lia|]. rewrite Hidx.
    assert (Hshift : forall stop' w2,
      lo + 1 <= stop' ->
      pages_processed w2 = pages_processed w0 ++ range (lo + 1 + 1) (stop' + 1) ->
      pages_processed w2 = pages_processed w ++ range (lo + 1) (stop' + 1)).
    { intros stop' w2 Hs ->. unfold w0. rewrite pages_processed_page, <- app_assoc.
      cbn [app]. now rewrite (range_cons (lo + 1)) by lia. }
    destruct (bool_decide (text = []) || (Z.of_nat (length text) <? 50)).
    + destruct (IH (lo + 1) hi (save_state (lo + 1) (log_skip (lo + 1) w0)))
        as (stop & Hs & Hp & Hok & Hraise); [lia | lia | lia |].
      exists stop. split; [lia|]. split; [|split].
      * apply Hshift; [lia|]. rewrite Hp. f_equal.
        unfold pages_processed, save_state, log_skip, print. cbn [stdout].
        rewrite !omap_app. cbn [omap]. now rewrite !app_nil_r.
      * intros H. rewrite (Hok H). lia.
      * intros e H. destruct (Hraise e H) as (Hlt & Hc & Hcause).
        split; [lia|]. split; assumption.
    + pose proof (attempt_loop_steps encodes service lo text (range 0 max_retries) w0
                    (fun a H => H)) as Hsteps.
      apply attempt_steps_pages_processed in Hsteps.
      destruct (attempt_loop encodes service lo text (range 0 max_retries) w0)
        as [[[]|e] w1] eqn:Ea; cbn [snd] in Hsteps.
      * destruct (IH (lo + 1) hi (sleep BaseDelay w1))
          as (stop & Hs & Hp & Hok & Hraise); [lia | lia | lia |].
        exists stop. split; [lia|]. split; [|split].
        -- apply Hshift; [lia|]. rewrite Hp. f_equal.
           now rewrite <- Hsteps.
        -- intros H. rewrite (Hok H). lia.
        -- intros e H. destruct (Hraise e H) as (Hlt & Hc & Hcause).
           split; [lia|]. split; assumption.
      * apply attempt_loop_raise in Ea as (Hc & Hcause).
        exists (lo + 1). cbn [fst snd]. split; [lia|]. split; [|split].
        -- apply Hshift; [lia|]. rewrite range_empty by lia.
           now rewrite app_nil_r.
        -- discriminate.
        -- intros e' [= <-]. split; [lia|]. split; [exact Hc|].
           exists text. replace (lo + 1 - 1) with lo by lia.
           split; [exact Hidx | exact Hcause].
Qed.

End Outcome.

Section OutcomeOfRun.

Lemma last_page_le_total (pages : list str) start_page max_pages w :
  last_page pages start_page max_pages w <= Z.of_nat (length pages).
Proof.
  unfold last_page. destruct max_pages as [m|]; [|lia].
  destruct (m =? 0); lia.
Qed.


(** The outcome of the page loop, for a run of [process_pdf] that begins
    at a page of number one or more. *)
Lemma process_pdf_outcome (pages : list str) (encodes : char -> bool) (service : nat -> str -> Z -> response)
  (start_page max_pages : option Z) (w : world) :
  let lo := first_page start_page w in
  let hi := last_page pages start_page max_pages w in
  let run := process_pdf pages encodes service start_page max_pages w in
  1 <= lo ->
  exists stop,
    lo - 1 <= stop <= Z.max (lo - 1) hi
    /\ pages_processed (snd run) = pages_processed w ++ range lo (stop + 1)
    /\ (fst run = Ok () -> stop = Z.max (lo - 1) hi)
    /\ (forall e, fst run = Raise e ->
        lo <= stop
        /\ last (calls (snd run)) = Some stop
        /\ failure_cause pages encodes service e stop (snd run)).
Proof.
  intros lo hi run Hlo.
  destruct (process_pdf_page_loop pages encodes service start_page max_pages w)
    as (w0 & (_ & _ & _ & _ & _ & P0) & (S1 & _ & _ & _ & C1) & Hfst & Hpp).
  fold lo hi in S1, C1, Hfst, Hpp. fold run in S1, C1, Hfst, Hpp.
  destruct (page_loop_outcome pages encodes service (Z.of_nat (length pages))
              (Z.to_nat (hi - (lo - 1))) (lo - 1) hi w0 eq_refl)
    as (stop & Hs & Hp & Hok & Hraise);
    [lia | apply last_page_le_total |].
  exists stop. split; [lia|]. split; [|split].
  - rewrite Hpp, Hp, P0. now replace (lo - 1 + 1) with lo by lia.
  - rewrite Hfst. exact Hok.
  - intros e He. rewrite Hfst in He. destruct (Hraise e He) as (Hlt & Hc & Hcause).
    unfold failure_cause in *. rewrite S1, C1.
    split; [lia|]. split; assumption.
Qed.

End OutcomeOfRun.

(** X19: a run that begins at a page of number one or more starts the
    pages in order, one after the other from its first page, without gap
    or repetition; when it ends normally it has started every page up to
    its last page. *)
Theorem X19_pages_started_in_order
  (pages : list str) (encodes : char -> bool) (service : nat -> str -> Z -> response)
  (start_page max_pages : option Z) (w : world) :
  1 <= first_page start_page w ->
  exists stop,
    first_page start_page w - 1 <= stop
    <= Z.max (first_page start_page w - 1) (last_page pages start_page max_pages w)
    /\ pages_processed (snd (process_pdf pages encodes service start_page max_pages w))
       = pages_processed w ++ range (first_page start_page w) (stop + 1)
    /\ (fst (process_pdf pages encodes service start_page max_pages w) = Ok () ->
        stop = Z.max (first_page start_page w - 1)
                     (last_page pages start_page max_pages w)).
Proof.
  intros Hlo.
  destruct (process_pdf_outcome pages encodes service start_page max_pages w Hlo)
    as (stop & Hs & Hp & Hok & _).
  exists stop. auto.
Qed.

Lemma X19_pages_started_in_order_witness :
  exists stop,
    pages_processed
      (snd (process_pdf [[]; repeat (ord "a") 50; []]
              utf8 (fun _ _ _ => Completed (lit "% No concepts on this page"))
              (Some 2) None world0))
    = range 2 (stop + 1)
    /\ stop = 3.
Proof.
  destruct (X19_pages_started_in_order
              [[]; repeat (ord "a") 50; []]
              utf8 (fun _ _ _ => Completed (lit "% No concepts on this page"))
              (Some 2) None world0) as (stop & _ & Hp & Hok).
  - vm_compute. discriminate.
  - exists stop. split; [exact Hp|]. apply Hok. vm_compute. reflexivity.
Defined.



(** ** Pages without enough text *)

Section ShortPages.

Variable pages : list str.
Variable encodes : char -> bool.
Variable service : nat -> str -> Z -> response.
Hypothesis all_short : forall text, In text pages -> too_short text = true.

Lemma page_loop_all_short total (n : nat) : forall lo hi w,
  Z.to_nat (hi - lo) = n ->
  0 <= lo -> hi <= Z.of_nat (length pages) ->
  exists w',
    page_loop pages encodes service total (range lo hi) w = (Ok (), w')
    /\ calls w' = calls w /\ slept w' = slept w /\ raw w' = raw w
    /\ knowledge w' = knowledge w
    /\ state_file w' = (if lo <? hi then Some hi else state_file w).
Proof.
  induction n as [|n IH]; intros lo hi w Hn Hlo Hhi.
  - rewrite range_empty by lia. exists w. cbn [page_loop].
    destruct (Z.ltb_spec lo hi); [lia|]. repeat split.
  - rewrite range_cons by lia. cbn [page_loop].
    destruct (py_index_in_range pages lo) as (text & -> & Hin); [lia|].
    pose proof (all_short text Hin) as Hshort. unfold too_short in Hshort.
    rewrite Hshort.
    destruct (IH (lo + 1) hi
                (save_state (lo + 1)
                   (log_skip (lo + 1) (print (LogPage (lo + 1) total) w))))
      as (w' & E & Hc & Hs & Hr & Hk & Hst); [lia | lia | lia |].
    exists w'. rewrite E, Hc, Hs, Hr, Hk, Hst. split; [reflexivity|].
    destruct (Z.ltb_spec lo hi); [|lia].
    destruct (Z.ltb_spec (lo + 1) hi); repeat split.
    cbn [save_state state_file]. f_equal. lia.
Qed.

End ShortPages.

(** X21: pages whose text is missing or shorter than fifty characters
    cost nothing.  A run, from a page of number one or more, over a PDF
    that has such pages only ends normally without a call to the service,
    without a sleep and without a raw response file; the knowledge base
    is what it was, or the header, and the progress state is the last
    page of the run. *)
Theorem X21_short_pages_cost_nothing
  (pages : list str) (encodes : char -> bool) (service : nat -> str -> Z -> response)
  (start_page max_pages : option Z) (w : world) :
  (forall text, In text pages -> too_short text = true) ->
  1 <= first_page start_page w ->
  exists w',
    process_pdf pages encodes service start_page max_pages w = (Ok (), w')
    /\ calls w' = calls w /\ slept w' = slept w /\ raw w' = raw w
    /\ knowledge w' = Some (knowledge_base w)
    /\ state_file w'
       = (if first_page start_page w <=? last_page pages start_page max_pages w
          then Some (last_page pages start_page max_pages w)
          else state_file w).
Proof.
  intros Hshort Hlo.
  set (lo := first_page start_page w) in *.
  set (hi := last_page pages start_page max_pages w).
  destruct (process_pdf_page_loop pages encodes service start_page max_pages w)
    as (w0 & (S0 & K0 & R0 & L0 & C0 & _) & (S1 & K1 & R1 & L1 & C1) & Hfst & _).
  fold lo hi in S1, K1, R1, L1, C1, Hfst.
  destruct (page_loop_all_short pages encodes service Hshort (Z.of_nat (length pages))
              (Z.to_nat (hi - (lo - 1))) (lo - 1) hi w0 eq_refl)
    as (w1 & E & Hc & Hs & Hr & Hk & Hst);
    [lia | apply last_page_le_total |].
  rewrite E in *. cbn [fst snd] in *.
  destruct (process_pdf pages encodes service start_page max_pages w) as [r w'].
  cbn [fst snd] in *. subst r. exists w'. split; [reflexivity|].
  rewrite C1, L1, R1, K1, S1, Hc, Hs, Hr, Hk, Hst, C0, L0, R0, K0, S0.
  repeat split.
  destruct (Z.ltb_spec (lo - 1) hi), (Z.leb_spec lo hi); try lia; reflexivity.
Qed.

Lemma X21_short_pages_cost_nothing_witness :
  exists w',
    process_pdf [lit "Chapter 1"; []; lit "page 3"] utf8 (fun _ _ _ => ServiceError)
      None None world0 = (Ok (), w')
    /\ calls w' = [] /\ slept w' = [] /\ state_file w' = Some 3.
Proof.
  destruct (X21_short_pages_cost_nothing
              [lit "Chapter 1"; []; lit "page 3"] utf8 (fun _ _ _ => ServiceError)
              None None world0) as (w' & E & Hc & Hs & _ & _ & Hst).
  - intros text [<- | [<- | [<- | []]]]; reflexivity.
  - vm_compute. discriminate.
  - exists w'. auto.
Defined.

(** X22: a page whose generated payload passes validation gets the page
    marker and the payload appended to the knowledge base, closed by a
    newline, and its number recorded as progress, when the encoding of
    the files holds the payload; no raw response file is written, one
    call was made, and the loop goes on with the next page after the
    fixed delay.  When the encoding does not hold the payload, nothing of
    it is appended and nothing is recorded: the loop ends with the
    exception of the write. *)
Theorem X22_accepted_payload_appended
  (pages : list str) (encodes : char -> bool) (service : nat -> str -> Z -> response)
  (total_pages page_num : Z) (page_nums' : list Z) (text payload : str) (w : world) :
  py_index pages page_num = Ok text ->
  50 <= Z.of_nat (length text) ->
  service (length (calls w)) text (page_num + 1) = Completed payload ->
  validate_prolog_syntax payload = Ok true ->
  (encodable encodes payload = true ->
   exists w' nl,
     page_loop pages encodes service total_pages (page_num :: page_nums') w
     = page_loop pages encodes service total_pages page_nums' (sleep BaseDelay w')
     /\ knowledge w'
        = Some (match knowledge w with Some k => k | None => [] end
                ++ page_marker (page_num + 1) ++ payload ++ nl)
     /\ (nl = [] \/ nl = [LF])
     /\ endswith LF (page_marker (page_num + 1) ++ payload ++ nl) = true
     /\ state_file w' = Some (page_num + 1)
     /\ raw w' = raw w
     /\ calls w' = calls w ++ [page_num + 1]
     /\ stdout w' = stdout w ++ [LogPage (page_num + 1) total_pages;
                                 LogOk (page_num + 1)])
  /\ (encodable encodes payload = false ->
      exists w',
        page_loop pages encodes service total_pages (page_num :: page_nums') w
        = (Raise UnicodeEncodeError, w')
        /\ knowledge w' = Some (match knowledge w with Some k => k | None => [] end)
        /\ state_file w' = state_file w
        /\ raw w' = raw w
        /\ calls w' = calls w ++ [page_num + 1]
        /\ stdout w' = stdout w ++ [LogPage (page_num + 1) total_pages]).
Proof.
  intros Hidx Hlen Hok Hgood.
  rewrite validate_prolog_syntax_spec in Hgood. injection Hgood as Hgood.
  rewrite (page_loop_cons _ _ _ _ _ _ _ text) by assumption.
  rewrite range_attempts.
  rewrite (attempt_loop_completed encodes service page_num text _ _ _ payload) by exact Hok.
  rewrite Hgood. split; intros Henc; rewrite Henc.
  - destruct (appended_lines (page_num + 1) payload Hgood) as (_ & _ & Hend).
    cbv zeta in Hend.
    eexists. exists (if endswith LF (page_marker (page_num + 1) ++ payload)
                     then [] else [LF]).
    split; [reflexivity|].
    unfold print, save_state, append_text, record_call.
    cbn [knowledge state_file raw calls stdout].
    rewrite <- !app_assoc in *. repeat split; try assumption.
    destruct (endswith LF (page_marker (page_num + 1) ++ payload)); auto.
  - eexists. split; [reflexivity|].
    unfold unwritten_accept, open_append, print, record_call.
    cbn [knowledge state_file raw calls stdout]. repeat split.
Qed.

Lemma X22_accepted_payload_appended_witness :
  exists w' nl,
    page_loop [[]; []; repeat (ord "a") 50]
      utf8 (fun _ _ _ => Completed (lit "concept(nash_equilibrium, 3, def)."))
      3 [2] (init_knowledge_base world0)
    = (Ok (), sleep BaseDelay w')
    /\ knowledge w'
       = Some (KNOWLEDGE_HEADER ++ page_marker 3
               ++ lit "concept(nash_equilibrium, 3, def)." ++ nl)
    /\ state_file w' = Some 3.
Proof.
  destruct (X22_accepted_payload_appended
              [[]; []; repeat (ord "a") 50]
              utf8 (fun _ _ _ => Completed (lit "concept(nash_equilibrium, 3, def)."))
              3 2 [] (repeat (ord "a") 50) (lit "concept(nash_equilibrium, 3, def).")
              (init_knowledge_base world0))
    as [H _].
  - reflexivity.
  - vm_compute. discriminate.
  - reflexivity.
  - vm_compute. reflexivity.
  - destruct (H eq_refl) as (w' & nl & E & K & _ & _ & S & _).
    exists w', nl. auto.
Defined.

(** X23: [max_pages] bounds the pages of a run that begins at a page of
    number one or more: with a limit of [m >= 1] at most [m] pages are
    started, none before the start page and none after page
    [start + m - 1]; a limit of zero is no limit, the run is the one
    without [max_pages]. *)
Theorem X23_max_pages_limit
  (pages : list str) (encodes : char -> bool) (service : nat -> str -> Z -> response)
  (start_page : option Z) (m : Z) (w : world) :
  1 <= first_page start_page w ->
  (1 <= m ->
   exists started,
     pages_processed (snd (process_pdf pages encodes service start_page (Some m) w))
     = pages_processed w ++ started
     /\ Z.of_nat (length started) <= m
     /\ forall p, In p started ->
          first_page start_page w <= p <= first_page start_page w + m - 1)
  /\ (m = 0 ->
      process_pdf pages encodes service start_page (Some m) w
      = process_pdf pages encodes service start_page None w).
Proof.
  intros Hlo. split.
  - intros Hm.
    destruct (process_pdf_outcome pages encodes service start_page (Some m) w Hlo)
      as (stop & Hs & Hp & _ & _).
    exists (range (first_page start_page w) (stop + 1)).
    assert (Hhi : last_page pages start_page (Some m) w
                  <= first_page start_page w + m - 1).
    { unfold last_page. destruct (Z.eqb_spec m 0); lia. }
    split; [exact Hp|]. split.
    + unfold range. rewrite length_map, length_seq. lia.
    + intros p Hin. apply in_range_iff in Hin. lia.
  - intros ->. reflexivity.
Qed.

Lemma X23_max_pages_limit_witness :
  exists started,
    pages_processed
      (snd (process_pdf [[]; []; []; []] utf8 (fun _ _ _ => RateLimited)
              (Some 2) (Some 2) world0))
    = started
    /\ Z.of_nat (length started) <= 2.
Proof.
  destruct (X23_max_pages_limit [[]; []; []; []] utf8 (fun _ _ _ => RateLimited)
              (Some 2) 2 world0) as [H _].
  - vm_compute. discriminate.
  - destruct H as (started & Hp & Hlen & _); [lia|].
    exists started. split; [exact Hp | exact Hlen].
Defined.

(** ** What is checked of the arguments of a fact *)

Section FactArguments.

Variables pred args : str.
Hypothesis Hpred : In pred VALID_PREDICATES.
Hypothesis Hargs : without LF args = true.

Let line : str := pred ++ [LPAREN] ++ args ++ [RPAREN; DOT].

Lemma known_predicate_facts :
  forallb plain pred = true /\ is_ident pred = true
  /\ exists c tl, pred = c :: tl /\ is_space c = false /\ (c =? PERCENT)%N = false.
Proof.
  destruct Hpred as [<- | [<- | [<- | [<- | []]]]];
    (split; [reflexivity|]; split; [reflexivity|]);
    eexists _, _; (split; [reflexivity|]); split; reflexivity.
Qed.

Lemma fact_line_single : split_lines line = [line].
Proof.
  destruct known_predicate_facts as (Hplain & _).
  apply split_lines_single. fold (without LF line). unfold line.
  rewrite !without_app, (plain_without_LF pred Hplain), Hargs. reflexivity.
Qed.

Lemma fact_line_trimmed : strip line = line.
Proof.
  destruct known_predicate_facts as (_ & _ & c & tl & Hc & Hsp & _).
  unfold line. rewrite Hc. cbn [app].
  replace (tl ++ LPAREN :: args ++ [RPAREN; DOT])
    with ((tl ++ LPAREN :: args ++ [RPAREN]) ++ [DOT])
    by (repeat rewrite <- app_assoc; cbn [app]; repeat rewrite <- app_assoc; reflexivity).
  now apply strip_trimmed.
Qed.

Lemma fact_line_balance :
  check_balanced_parens line = check_balanced_parens ([LPAREN] ++ args ++ [RPAREN]).
Proof.
  destruct known_predicate_facts as (Hplain & _).
  unfold check_balanced_parens, line.
  rewrite scan_parens_app. change scanner0 with (Scanner 0 false false).
  rewrite (scan_parens_plain pred) by assumption.
  replace ([LPAREN] ++ args ++ [RPAREN; DOT])
    with (([LPAREN] ++ args ++ [RPAREN]) ++ [DOT])
    by (cbn [app]; now rewrite <- app_assoc).
  rewrite scan_parens_app.
  destruct (scan_parens ([LPAREN] ++ args ++ [RPAREN]) (Scanner 0 false false))
    as [st|]; [|reflexivity].
  destruct (scan_parens_inert_count [DOT] st eq_refl) as (st' & -> & ->).
  reflexivity.
Qed.

Lemma fact_line_verdict :
  fact_verdict line = check_balanced_parens ([LPAREN] ++ args ++ [RPAREN]).
Proof.
  destruct known_predicate_facts as (_ & Hid & c & tl & Hc & _ & Hpc).
  unfold fact_verdict. rewrite validate_fact_cases, fact_line_trimmed.
  assert (Hskip : skipped line = false).
  { unfold line. rewrite Hc. cbn [app skipped startswith]. exact Hpc. }
  rewrite Hskip, fact_line_balance.
  destruct (check_balanced_parens ([LPAREN] ++ args ++ [RPAREN])); [|reflexivity].
  cbn [negb].
  assert (Hshape : fact_shape line pred).
  { exists [], args, [], []. unfold line. cbn [app].
    repeat split; try assumption; reflexivity. }
  apply FACT_PATTERN_match_shape in Hshape as [g2 ->].
  apply existsb_str_eqb in Hpred. now rewrite Hpred.
Qed.

End FactArguments.

(** X24: of the arguments of a fact with one of the four predicate names
    only the parentheses and the quotes are looked at: a one-line payload
    [pred(args).] is valid exactly when [(args)] is balanced.  The number
    of the arguments and what they are, the relation type of [relates]
    among them, are not checked. *)
Theorem X24_arguments_checked_for_balance_only (pred args : str) :
  In pred VALID_PREDICATES ->
  without LF args = true ->
  validate_prolog_syntax (pred ++ [LPAREN] ++ args ++ [RPAREN; DOT])
  = Ok (check_balanced_parens ([LPAREN] ++ args ++ [RPAREN])).
Proof.
  intros Hpred Hargs.
  rewrite validate_prolog_syntax_spec, fact_line_single by assumption.
  cbn [forallb]. rewrite fact_line_verdict by assumption.
  now rewrite andb_true_r.
Qed.

Lemma X24_arguments_checked_for_balance_only_witness :
  ~ In (lit "dislikes") VALID_RELATION_TYPES
  /\ validate_prolog_syntax (lit "relates(nash_equilibrium, dislikes).") = Ok true.
Proof.
  split.
  - vm_compute. intros [H | [H | [H | [H | [H | []]]]]]; discriminate.
  - apply (X24_arguments_checked_for_balance_only
             (lit "relates") (lit "nash_equilibrium, dislikes")).
    + vm_compute. auto.
    + reflexivity.
Defined.

(** ** The names of the raw response files *)

Section RawNames.

Lemma lit_inj (s t : string) : lit s = lit t -> s = t.
Proof.
  revert t; induction s as [|a s IH]; intros [|b t] H; try discriminate.
  - reflexivity.
  - cbn [lit] in H. injection H as Hab Hst.
    f_equal; [|now apply IH].
    unfold ord in Hab.
    rewrite <- (ascii_N_embedding a), <- (ascii_N_embedding b).
    now rewrite Hab.
Qed.

Lemma zeros_digits (k : nat) (u : Decimal.uint) :
  repeat (ord "0") k ++ lit (NilEmpty.string_of_uint u)
  = lit (NilEmpty.string_of_uint (Nat.iter k Decimal.D0 u)).
Proof.
  induction k as [|k IH]; [reflexivity|].
  cbn [repeat app Nat.iter nat_rect NilEmpty.string_of_uint lit].
  now rewrite IH.
Qed.

Lemma zeros_value (k : nat) (u : Decimal.uint) :
  Pos.of_uint (Nat.iter k Decimal.D0 u) = Pos.of_uint u.
Proof.
  induction k as [|k IH]; [reflexivity|].
  cbn [Nat.iter nat_rect Pos.of_uint]. exact IH.
Qed.

Lemma str_of_int_pos (p : positive) :
  str_of_int (Z.pos p) = lit (NilEmpty.string_of_uint (Pos.to_uint p)).
Proof.
  unfold str_of_int. cbn [Z.to_int NilZero.string_of_int].
  unfold NilZero.string_of_uint.
  destruct (Pos.to_uint p) eqn:E; try reflexivity.
  now apply DecimalPos.Unsigned.to_uint_nonnil in E.
Qed.

(** The formatted number is a decimal numeral, with its sign and leading
    zeros, whose value is the number. *)
Lemma format_03d_decimal (n : Z) :
  exists d, format_03d n = lit (NilEmpty.string_of_int d) /\ Z.of_int d = n.
Proof.
  destruct n as [|p|p].
  - exists (Decimal.Pos (Decimal.D0 (Decimal.D0 (Decimal.D0 Decimal.Nil)))).
    split; reflexivity.
  - unfold format_03d.
    change (Z.pos p <? 0) with false. cbv iota.
    change (Z.abs (Z.pos p)) with (Z.pos p).
    rewrite str_of_int_pos. cbn [app].
    rewrite zeros_digits.
    eexists (Decimal.Pos _). split; [reflexivity|].
    cbn [Z.of_int]. unfold Z.of_uint.
    rewrite zeros_value, DecimalPos.Unsigned.of_to. reflexivity.
  - unfold format_03d.
    change (Z.neg p <? 0) with true. cbv iota.
    change (Z.abs (Z.neg p)) with (Z.pos p).
    rewrite str_of_int_pos.
    change (lit "-") with [ord "-"]. cbn [app].
    rewrite zeros_digits.
    eexists (Decimal.Neg _). split; [reflexivity|].
    cbn [Z.of_int]. unfold Z.of_uint.
    rewrite zeros_value, DecimalPos.Unsigned.of_to. reflexivity.
Qed.

Lemma format_03d_inj (a b : Z) : format_03d a = format_03d b -> a = b.
Proof.
  intros H.
  destruct (format_03d_decimal a) as (da & Ha & <-).
  destruct (format_03d_decimal b) as (db & Hb & <-).
  rewrite Ha, Hb in H. apply lit_inj in H.
  assert (Hd : Some da = Some db)
    by (now rewrite <- (NilEmpty.isi da), <- (NilEmpty.isi db), H).
  now injection Hd as ->.
Qed.

End RawNames.

(** X25: [save_raw_response] writes the payloads of different pages to
    different files: the path [output/raw/page_NNN.txt], with the page
    number in the format [03d], is not the same for two page numbers. *)
Theorem X25_raw_paths_distinct (a b : Z) :
  a <> b -> raw_path a <> raw_path b.
Proof.
  intros Hab H. apply Hab. unfold raw_path in H.
  apply app_inv_head in H. apply app_inv_head in H. apply app_inv_head in H.
  apply app_inv_tail in H. now apply format_03d_inj.
Qed.

Lemma X25_raw_paths_distinct_witness :
  raw_path 7 = lit "output/raw/page_007.txt"
  /\ raw_path 1234 = lit "output/raw/page_1234.txt"
  /\ raw_path 7 <> raw_path 1234.
Proof.
  split; [reflexivity|]. split; [reflexivity|].
  apply (X25_raw_paths_distinct 7 1234). lia.
Defined.
